(** * krisp-local-monitoring: state cache, connection supervisor and facade

    A shallow embedding of the TypeScript sources
    - [state-manager.ts]      (module [StateManager]),
    - [connection-manager.ts] (module [ConnectionManager], the version with
      the SDK's own reconnect scheduler),
    - [index.ts]              (module [Sdk], the facade),
    together with the fragment of JavaScript they rely on (module [Js]):
    dynamically typed JSON values, truthiness, [typeof], property access,
    strict equality, [JSON.stringify] and [String]. *)

From Stdlib Require Import ZArith QArith Qminmax Floats Lia Ascii.
From stdpp Require Import base option list strings gmap pretty.

Set Warnings "-register-all".

Open Scope Z_scope.

(** ** Effects

    The classes mutate their fields, raise exceptions and call back into
    observers.  A computation is a function from the state before to an
    outcome (a value or the exception thrown), the state after and the list of
    notifications raised meanwhile, in order. *)

Inductive Outcome (E A : Type) : Type :=
  | Ok (a : A)
  | Throw (e : E).
Arguments Ok {E A} a.
Arguments Throw {E A} e.

Record Run (S E L A : Type) : Type := MkRun {
  result : Outcome E A;
  final : S;
  trace : list L
}.
Arguments MkRun {S E L A} result final trace.
Arguments result {S E L A} r.
Arguments final {S E L A} r.
Arguments trace {S E L A} r.

Definition Eff (S E L A : Type) : Type := S -> Run S E L A.

Section Effects.
Context {S E L : Type}.

Definition ret {A} (a : A) : Eff S E L A :=
  fun s => MkRun (Ok a) s [].

Definition throw {A} (e : E) : Eff S E L A :=
  fun s => MkRun (Throw e) s [].

Definition bind {A B} (m : Eff S E L A) (k : A -> Eff S E L B) : Eff S E L B :=
  fun s =>
    match m s with
    | MkRun (Ok a) s1 t1 =>
        match k a s1 with
        | MkRun r s2 t2 => MkRun r s2 (t1 ++ t2)
        end
    | MkRun (Throw e) s1 t1 => MkRun (Throw e) s1 t1
    end.

(** [try { m } catch (e) { h e }] *)
Definition try_catch {A} (m : Eff S E L A) (h : E -> Eff S E L A) : Eff S E L A :=
  fun s =>
    match m s with
    | MkRun (Ok a) s1 t1 => MkRun (Ok a) s1 t1
    | MkRun (Throw e) s1 t1 =>
        match h e s1 with
        | MkRun r s2 t2 => MkRun r s2 (t1 ++ t2)
        end
    end.

Definition get_state : Eff S E L S :=
  fun s => MkRun (Ok s) s [].

Definition modify (f : S -> S) : Eff S E L unit :=
  fun s => MkRun (Ok tt) (f s) [].

Definition notify (l : L) : Eff S E L unit :=
  fun s => MkRun (Ok tt) s [l].

(** A pure computation that may throw, run inside a stateful one. *)
Definition lift {A} (o : Outcome E A) : Eff S E L A :=
  fun s => MkRun o s [].
End Effects.

(** Sequencing uses stdpp's monad notation: [x ← m; k] and [m ;; k]. *)
#[global] Instance eff_ret {S E L} : MRet (Eff S E L) := @ret S E L.
#[global] Instance eff_bind {S E L} : MBind (Eff S E L) :=
  fun A B k m => bind m k.

(** ** The JavaScript fragment *)

Module Js.

(** A value as the transport delivers it (parsed JSON), plus [undefined],
    which a missing property or a missing argument yields.  Numbers are the
    integers (millisecond timestamps, ports, counters); an object lists its
    properties in enumeration order. *)
Inductive JsValue : Type :=
  | JUndefined
  | JNull
  | JBool (b : bool)
  | JNum (n : Z)
  | JStr (s : string)
  | JArr (items : list JsValue)
  | JObj (props : list (string * JsValue)).

(** What the code can throw: [new Error(msg)], the engine's [TypeError] for
    a property read on [null] or [undefined], and the SDK's own
    [KrispSDKError], see [ErrorCode] below. *)
Inductive ErrorCode : Type :=
  | KRISP_NOT_REACHABLE
  | CONNECTION_REFUSED
  | CONNECTION_TIMEOUT
  | INVALID_MESSAGE
  | UNKNOWN_ERROR.

Definition code_name (c : ErrorCode) : string :=
  match c with
  | KRISP_NOT_REACHABLE => "KRISP_NOT_REACHABLE"
  | CONNECTION_REFUSED => "CONNECTION_REFUSED"
  | CONNECTION_TIMEOUT => "CONNECTION_TIMEOUT"
  | INVALID_MESSAGE => "INVALID_MESSAGE"
  | UNKNOWN_ERROR => "UNKNOWN_ERROR"
  end.

Inductive JsError : Type :=
  | PlainError (message : string)
  | TypeError (base : JsValue) (property : string)
  | KrispSDKError (code : ErrorCode) (message : string).

Definition is_sdk_error (e : JsError) : bool :=
  match e with KrispSDKError _ _ => true | _ => false end.

Definition error_message (e : JsError) : string :=
  match e with
  | PlainError m => m
  | TypeError base p =>
      "Cannot read properties of "
      +:+ (match base with JNull => "null" | _ => "undefined" end)
      +:+ " (reading '" +:+ p +:+ "')"
  | KrispSDKError _ m => m
  end.

(** [`${error}`]: the error's name, a colon and its message. *)
Definition error_to_string (e : JsError) : string :=
  match e with
  | PlainError _ => "Error: " +:+ error_message e
  | TypeError _ _ => "TypeError: " +:+ error_message e
  | KrispSDKError _ _ => "KrispSDKError: " +:+ error_message e
  end.

Definition Exc (A : Type) : Type := Outcome JsError A.

(** [Boolean(v)], also the test of [if (v)], [!v] and [v || w]. *)
Definition truthy (v : JsValue) : bool :=
  match v with
  | JUndefined | JNull => false
  | JBool b => b
  | JNum n => negb (n =? 0)
  | JStr s => negb (bool_decide (s = EmptyString))
  | JArr _ | JObj _ => true
  end.

(** [a || b], with [b] already evaluated or free of effects. *)
Definition or_else (a b : JsValue) : JsValue :=
  if truthy a then a else b.

Inductive JsType : Type :=
  | TyUndefined | TyObject | TyBoolean | TyNumber | TyString.

Definition typeof (v : JsValue) : JsType :=
  match v with
  | JUndefined => TyUndefined
  | JNull | JArr _ | JObj _ => TyObject
  | JBool _ => TyBoolean
  | JNum _ => TyNumber
  | JStr _ => TyString
  end.

Definition is_object_type (v : JsValue) : bool :=
  match typeof v with TyObject => true | _ => false end.

(** The guard [!state || typeof state !== 'object'] of the normalizers is
    false exactly on objects and arrays. *)
Definition is_object (v : JsValue) : bool :=
  truthy v && is_object_type v.

(** An array index written as a property name: a decimal numeral without
    leading zeros. *)
Definition digit_of (c : ascii) : option nat :=
  let n := nat_of_ascii c in
  if ((48 <=? n) && (n <=? 57))%nat then Some (n - 48)%nat else None.

Fixpoint parse_digits (acc : nat) (s : string) : option nat :=
  match s with
  | EmptyString => Some acc
  | String c r =>
      match digit_of c with
      | Some d => parse_digits (10 * acc + d)%nat r
      | None => None
      end
  end.

Definition array_index (k : string) : option nat :=
  match k with
  | EmptyString => None
  | String c r =>
      if bool_decide (c = "0"%char)
      then (match r with EmptyString => Some 0%nat | _ => None end)
      else parse_digits 0 k
  end.

Fixpoint assoc (k : string) (props : list (string * JsValue)) : option JsValue :=
  match props with
  | [] => None
  | (k', v) :: rest => if bool_decide (k = k') then Some v else assoc k rest
  end.

(** [v[k]] and [v.k]: a [TypeError] on [null] and [undefined], the property
    or [undefined] otherwise.  Only own data properties of parsed JSON are
    modelled ([length] and the prototype methods are never read by the
    code under study). *)
Definition prop (v : JsValue) (k : string) : Exc JsValue :=
  match v with
  | JUndefined | JNull => Throw (TypeError v k)
  | JObj props => Ok (default JUndefined (assoc k props))
  | JArr items =>
      Ok (match array_index k with
          | Some i => default JUndefined (items !! i)
          | None => JUndefined
          end)
  | JStr s =>
      Ok (match array_index k with
          | Some i =>
              match String.get i s with
              | Some c => JStr (String c EmptyString)
              | None => JUndefined
              end
          | None => JUndefined
          end)
  | JBool _ | JNum _ => Ok JUndefined
  end.

(** [v?.k] *)
Definition opt_prop (v : JsValue) (k : string) : JsValue :=
  match prop v k with
  | Ok x => x
  | Throw _ => JUndefined
  end.

(** [a === b].  Two objects are equal only when they are the same object;
    a cached snapshot is built afresh by the normalizer and a payload is
    parsed afresh from the wire, so the two never are. *)
Definition strict_eq (a b : JsValue) : bool :=
  match a, b with
  | JUndefined, JUndefined => true
  | JNull, JNull => true
  | JBool x, JBool y => bool_decide (x = y)
  | JNum x, JNum y => x =? y
  | JStr x, JStr y => bool_decide (x = y)
  | _, _ => false
  end.

Definition strict_neq (a b : JsValue) : bool := negb (strict_eq a b).

(** *** [JSON.stringify] *)

Definition dquote : ascii := ascii_of_nat 34.
Definition backslash : ascii := ascii_of_nat 92.

Definition hex_digit (n : nat) : ascii :=
  if (n <? 10)%nat then ascii_of_nat (48 + n) else ascii_of_nat (87 + n).

Definition escape_char (c : ascii) : string :=
  let n := nat_of_ascii c in
  if (n =? 34)%nat then String backslash (String dquote EmptyString)
  else if (n =? 92)%nat then String backslash (String backslash EmptyString)
  else if (n =? 8)%nat then String backslash "b"
  else if (n =? 9)%nat then String backslash "t"
  else if (n =? 10)%nat then String backslash "n"
  else if (n =? 12)%nat then String backslash "f"
  else if (n =? 13)%nat then String backslash "r"
  else if (n <? 32)%nat then
    String backslash
      ("u00" +:+ String (hex_digit (n / 16)) (String (hex_digit (n mod 16)) EmptyString))
  else String c EmptyString.

Fixpoint escape (s : string) : string :=
  match s with
  | EmptyString => EmptyString
  | String c r => escape_char c +:+ escape r
  end.

Definition quote (s : string) : string :=
  String dquote (escape s +:+ String dquote EmptyString).

Fixpoint join_comma (parts : list string) : string :=
  match parts with
  | [] => EmptyString
  | [p] => p
  | p :: rest => p +:+ "," +:+ join_comma rest
  end.

(** [None] is JavaScript's [undefined] result.  An [undefined] array item
    prints as [null]; an [undefined] property is left out. *)
Fixpoint stringify (v : JsValue) : option string :=
  match v with
  | JUndefined => None
  | JNull => Some "null"
  | JBool b => Some (if b then "true" else "false")
  | JNum n => Some (pretty n)
  | JStr s => Some (quote s)
  | JArr items =>
      let fix items_go (l : list JsValue) : list string :=
        match l with
        | [] => []
        | x :: r => default "null" (stringify x) :: items_go r
        end in
      Some ("[" +:+ join_comma (items_go items) +:+ "]")
  | JObj props =>
      let fix props_go (l : list (string * JsValue)) : list string :=
        match l with
        | [] => []
        | (k, x) :: r =>
            match stringify x with
            | Some s => (quote k +:+ ":" +:+ s) :: props_go r
            | None => props_go r
            end
        end in
      Some ("{" +:+ join_comma (props_go props) +:+ "}")
  end.

(** [JSON.stringify(a) !== JSON.stringify(b)] *)
Definition stringify_neq (a b : JsValue) : bool :=
  negb (bool_decide (stringify a = stringify b)).

(** *** [String(v)]

    How a number prints when it is converted to a string.  An integer up to
    2^53 in absolute value is a binary64 value and prints as its decimal
    digits.  A larger one is the binary64 value nearest to it (ties to even),
    which is what parsing the numeral gives, and prints as the shortest
    decimal numeral that still rounds to that value, with zeros up to 21
    digits and in exponent notation beyond.  [stringify] above keeps the
    plain digits: they tell two binary64 integers apart exactly when their
    printed forms do, and it is only compared. *)
Definition binary64 (n : Z) : Z :=
  let e := Z.log2 n - 52 in
  if e <=? 0 then n
  else
    let q := Z.shiftr n e in
    let r := Z.land n (Z.ones e) in
    let half := Z.shiftl 1 (e - 1) in
    let q' := if (half <? r) || ((r =? half) && Z.odd q) then q + 1 else q in
    Z.shiftl q' e.

(** The multiple of [10^z] that rounds to [x], if one does: of the two
    next to [x], the nearer, and on a tie the even one. *)
Definition shortest_with (x z : Z) : option Z :=
  let scale := 10 ^ z in
  let lo := (x / scale) * scale in
  let hi := lo + scale in
  let lo_ok := binary64 lo =? x in
  let hi_ok := binary64 hi =? x in
  if lo_ok && hi_ok
  then Some (if x - lo <? hi - x then lo
             else if hi - x <? x - lo then hi
             else if Z.even (lo / scale) then lo else hi)
  else if lo_ok then Some lo
  else if hi_ok then Some hi
  else None.

(** The numeral with the fewest significant digits that rounds to [x]: the
    one with the most zeros at its end. *)
Fixpoint shortest_from (x : Z) (z : nat) : Z :=
  match shortest_with x (Z.of_nat z) with
  | Some v => v
  | None =>
      match z with
      | O => x
      | S z' => shortest_from x z'
      end
  end.

(** No numeral has more zeros at its end than [x] has digits. *)
Definition shortest (x : Z) : Z := shortest_from x (String.length (pretty x)).

(** [v] without the zeros at its end. *)
Fixpoint strip_zeros (fuel : nat) (v : Z) : Z :=
  match fuel with
  | O => v
  | S fuel' => if (0 <? v) && (v mod 10 =? 0) then strip_zeros fuel' (v / 10) else v
  end.

(** [d.ddde+n] *)
Definition exponent_form (v : Z) : string :=
  let n := String.length (pretty v) in
  let tail := "e+" +:+ pretty (Z.of_nat (n - 1)) in
  match pretty (strip_zeros n v) with
  | String d EmptyString => String d tail
  | String d rest => String d ("." +:+ rest +:+ tail)
  | EmptyString => tail
  end.

(** [String(n)] for a number [n]. *)
Definition number_to_string (n : Z) : string :=
  if Z.abs n <=? 2 ^ 53 then pretty n
  else
    let v := shortest (binary64 (Z.abs n)) in
    (if n <? 0 then "-" else EmptyString)
    +:+ (if (String.length (pretty v) <=? 21)%nat then pretty v else exponent_form v).

End Js.

(** ** state-manager.ts *)

Module StateManager.
Import Js.

(** events.ts *)
Inductive SDKEvent : Type :=
  | DEVICES_CHANGED
  | NOISE_CANCELLATION_CHANGED
  | ACCENT_CONVERSION_CHANGED
  | IN_CALL_CHANGED
  | CONNECTION_CHANGED
  | ERROR.

(** The keys of [ServerToClientMessages] (types/index.ts). *)
Inductive ServerEvent : Type :=
  | device_state
  | nc_state
  | ac_state
  | in_call_state
  | error
  | pong.

(** The four private snapshot fields, [null] being [None].  [clock] and
    [ticks] stand for the environment behind [Date.now()]: the [n]-th call
    returns [clock n]. *)
Record State : Type := MkState {
  deviceState : option JsValue;
  ncState : option JsValue;
  acState : option JsValue;
  inCallState : option JsValue;
  clock : nat -> Z;
  ticks : nat
}.

Definition initial (clk : nat -> Z) : State :=
  MkState None None None None clk 0.

Definition set_deviceState (v : JsValue) (s : State) : State :=
  MkState (Some v) (ncState s) (acState s) (inCallState s) (clock s) (ticks s).
Definition set_ncState (v : JsValue) (s : State) : State :=
  MkState (deviceState s) (Some v) (acState s) (inCallState s) (clock s) (ticks s).
Definition set_acState (v : JsValue) (s : State) : State :=
  MkState (deviceState s) (ncState s) (Some v) (inCallState s) (clock s) (ticks s).
Definition set_inCallState (v : JsValue) (s : State) : State :=
  MkState (deviceState s) (ncState s) (acState s) (Some v) (clock s) (ticks s).

(** A notification is one call of [emitInternal]: the event and the data
    handed to every handler registered for it (a handler that throws is
    caught and logged inside [emitInternal], so a dispatch never throws). *)
Definition Notification : Type := SDKEvent * JsValue.

Definition SM (A : Type) : Type := Eff State JsError Notification A.

Definition emitInternal (event : SDKEvent) (data : JsValue) : SM unit :=
  notify (event, data).

Definition date_now : SM JsValue :=
  fun s =>
    MkRun (Ok (JNum (clock s (ticks s))))
          (MkState (deviceState s) (ncState s) (acState s) (inCallState s)
                   (clock s) (S (ticks s)))
          [].

(** [v || Date.now()] *)
Definition or_now (v : JsValue) : SM JsValue :=
  if truthy v then mret v else date_now.

Definition hasInCallStateChanged (oldState newState : JsValue) : SM bool :=
  o ← lift (prop oldState "inCall");
  n ← lift (prop newState "inCall");
  mret (strict_neq o n).

Definition hasDeviceStateChanged (oldState newState : JsValue) : SM bool :=
  o0 ← lift (prop oldState "0");
  n0 ← lift (prop newState "0");
  if stringify_neq o0 n0 then mret true
  else
    o1 ← lift (prop oldState "1");
    n1 ← lift (prop newState "1");
    mret (stringify_neq o1 n1).

(** [oldState[k].enabled !== newState[k].enabled] *)
Definition enabled_differs (oldState newState : JsValue) (k : string) : SM bool :=
  o ← lift (prop oldState k);
  oe ← lift (prop o "enabled");
  n ← lift (prop newState k);
  ne ← lift (prop n "enabled");
  mret (strict_neq oe ne).

Definition hasNcStateChanged (oldState newState : JsValue) : SM bool :=
  d0 ← enabled_differs oldState newState "0";
  if (d0 : bool) then mret true else enabled_differs oldState newState "1".

Definition hasAcStateChanged (oldState newState : JsValue) : SM bool :=
  d0 ← enabled_differs oldState newState "0";
  if (d0 : bool) then mret true else enabled_differs oldState newState "1".

(** One entry of the device snapshot:
    [{ physicalDeviceInfo: state[k].physicalDeviceInfo || null,
       updatedAt: state[k].updatedAt || Date.now() }] *)
Definition device_entry (state : JsValue) (k : string) : SM JsValue :=
  e ← lift (prop state k);
  info ← lift (prop e "physicalDeviceInfo");
  e' ← lift (prop state k);
  u ← lift (prop e' "updatedAt");
  t ← or_now u;
  mret (JObj [("physicalDeviceInfo", or_else info JNull); ("updatedAt", t)]).

Definition validateAndNormalizeDeviceState (state : JsValue) : SM JsValue :=
  if negb (truthy state) || negb (is_object_type state)
  then throw (PlainError "Invalid device state: must be an object")
  else
    s0 ← lift (prop state "0");
    bad ← (if negb (is_object_type s0) then mret true
           else s1 ← lift (prop state "1"); mret (negb (is_object_type s1))) : SM bool;
    if (bad : bool)
    then throw (PlainError "Invalid device state: missing microphone or speaker state")
    else
      e0 ← device_entry state "0";
      e1 ← device_entry state "1";
      mret (JObj [("0", e0); ("1", e1)]).

(** One entry of the NC and AC snapshots:
    [{ enabled: Boolean(state[k]?.enabled),
       updatedAt: state[k]?.updatedAt || Date.now() }] *)
Definition toggle_entry (state : JsValue) (k : string) : SM JsValue :=
  e ← lift (prop state k);
  let enabled := truthy (opt_prop e "enabled") in
  e' ← lift (prop state k);
  t ← or_now (opt_prop e' "updatedAt");
  mret (JObj [("enabled", JBool enabled); ("updatedAt", t)]).

Definition validateAndNormalizeNcState (state : JsValue) : SM JsValue :=
  if negb (truthy state) || negb (is_object_type state)
  then throw (PlainError "Invalid NC state: must be an object")
  else
    e0 ← toggle_entry state "0";
    e1 ← toggle_entry state "1";
    mret (JObj [("0", e0); ("1", e1)]).

Definition validateAndNormalizeAcState (state : JsValue) : SM JsValue :=
  if negb (truthy state) || negb (is_object_type state)
  then throw (PlainError "Invalid AC state: must be an object")
  else
    e0 ← toggle_entry state "0";
    e1 ← toggle_entry state "1";
    mret (JObj [("0", e0); ("1", e1)]).

Definition validateAndNormalizeInCallState (state : JsValue) : SM JsValue :=
  if negb (truthy state) || negb (is_object_type state)
  then throw (PlainError "Invalid in-call state: must be an object")
  else
    i ← lift (prop state "inCall");
    u ← lift (prop state "updatedAt");
    t ← or_now u;
    mret (JObj [("inCall", JBool (truthy i)); ("updatedAt", t)]).

(** [!this.xState || this.hasXStateChanged(this.xState, newState)]: with
    nothing cached the comparison is not evaluated. *)
Definition changed_or_first (cachedState : option JsValue)
    (compare : JsValue -> JsValue -> SM bool) (newState : JsValue) : SM bool :=
  match cachedState with
  | None => mret true
  | Some oldState => compare oldState newState
  end.

Definition updateDeviceState (newState : JsValue) : SM unit :=
  s ← get_state;
  hasChanged ← changed_or_first (deviceState s) hasDeviceStateChanged newState;
  normalized ← validateAndNormalizeDeviceState newState;
  modify (set_deviceState normalized);;
  if (hasChanged : bool) then emitInternal DEVICES_CHANGED normalized else mret tt.

Definition updateNcState (newState : JsValue) : SM unit :=
  s ← get_state;
  hasChanged ← changed_or_first (ncState s) hasNcStateChanged newState;
  normalized ← validateAndNormalizeNcState newState;
  modify (set_ncState normalized);;
  if (hasChanged : bool) then emitInternal NOISE_CANCELLATION_CHANGED normalized
  else mret tt.

Definition updateAcState (newState : JsValue) : SM unit :=
  s ← get_state;
  hasChanged ← changed_or_first (acState s) hasAcStateChanged newState;
  normalized ← validateAndNormalizeAcState newState;
  modify (set_acState normalized);;
  if (hasChanged : bool) then emitInternal ACCENT_CONVERSION_CHANGED normalized
  else mret tt.

Definition updateInCallState (newState : JsValue) : SM unit :=
  s ← get_state;
  hasChanged ← changed_or_first (inCallState s) hasInCallStateChanged newState;
  normalized ← validateAndNormalizeInCallState newState;
  modify (set_inCallState normalized);;
  if (hasChanged : bool) then emitInternal IN_CALL_CHANGED normalized else mret tt.

Definition handleMessage (event : ServerEvent) (data : JsValue) : SM unit :=
  match event with
  | device_state => updateDeviceState data
  | nc_state => updateNcState data
  | ac_state => updateAcState data
  | in_call_state => updateInCallState data
  | error => emitInternal ERROR data
  | pong => mret tt
  end.

(** *** The four domains, uniformly *)

Inductive Domain : Type :=
  | Devices
  | NoiseCancellation
  | AccentConversion
  | InCall.

#[global] Instance domain_eq_dec : EqDecision Domain.
Proof. solve_decision. Defined.

(** [getDeviceState()], [getNcState()], [getAcState()], [getInCallState()] *)
Definition cached (d : Domain) (s : State) : option JsValue :=
  match d with
  | Devices => deviceState s
  | NoiseCancellation => ncState s
  | AccentConversion => acState s
  | InCall => inCallState s
  end.

Definition pushEvent (d : Domain) : ServerEvent :=
  match d with
  | Devices => device_state
  | NoiseCancellation => nc_state
  | AccentConversion => ac_state
  | InCall => in_call_state
  end.

Definition changeEvent (d : Domain) : SDKEvent :=
  match d with
  | Devices => DEVICES_CHANGED
  | NoiseCancellation => NOISE_CANCELLATION_CHANGED
  | AccentConversion => ACCENT_CONVERSION_CHANGED
  | InCall => IN_CALL_CHANGED
  end.

Definition validateAndNormalize (d : Domain) : JsValue -> SM JsValue :=
  match d with
  | Devices => validateAndNormalizeDeviceState
  | NoiseCancellation => validateAndNormalizeNcState
  | AccentConversion => validateAndNormalizeAcState
  | InCall => validateAndNormalizeInCallState
  end.

Definition hasStateChanged (d : Domain) : JsValue -> JsValue -> SM bool :=
  match d with
  | Devices => hasDeviceStateChanged
  | NoiseCancellation => hasNcStateChanged
  | AccentConversion => hasAcStateChanged
  | InCall => hasInCallStateChanged
  end.

(** [handleMessage] at the domain's push event. *)
Definition update (d : Domain) (newState : JsValue) : SM unit :=
  handleMessage (pushEvent d) newState.

End StateManager.

(** ** connection-manager.ts *)

Module ConnectionManager.
Import Js.

Definition DEFAULT_HOST : string := "127.0.0.1".
Definition DEFAULT_PORTS : list Z := [50190; 50191; 50192].
Definition DEFAULT_CONNECTION_TIMEOUT : Z := 5000.

(** The backoff constants and the delay they produce are JavaScript numbers,
    that is IEEE 754 binary64 values, and so are Rocq's primitive floats. *)
Definition DEFAULT_RECONNECT_DELAY : float := 1000%float.
Definition MAX_RECONNECT_DELAY : float := 30000%float.
Definition RECONNECT_BACKOFF_MULTIPLIER : float := 1.5%float.

(** [Math.min(a, b)] on two numbers neither of which is NaN. *)
Definition math_min (a b : float) : float :=
  if PrimFloat.ltb a b then a else b.

(** [ConnectionOptions]; an absent option is [None]. *)
Record ConnectionOptions : Type := MkOptions {
  connectionTimeout : option Z;
  autoReconnect : option bool;
  maxReconnectAttempts : option Z
}.

(** [this.options.autoReconnect !== false] *)
Definition auto_reconnect_enabled (opts : ConnectionOptions) : bool :=
  match autoReconnect opts with
  | Some false => false
  | _ => true
  end.

(** [this.options.connectionTimeout || DEFAULT_CONNECTION_TIMEOUT] *)
Definition timeout_of (opts : ConnectionOptions) : Z :=
  match connectionTimeout opts with
  | Some t => if t =? 0 then DEFAULT_CONNECTION_TIMEOUT else t
  | None => DEFAULT_CONNECTION_TIMEOUT
  end.

Record ConnectionStatus : Type := MkStatus {
  connected : bool;
  connecting : bool;
  port : option Z;
  error : option (ErrorCode * string)
}.

(** Who listens on a socket: the supervisor's own handlers, or a handler a
    client passed to [on], known by an identifier. *)
Inductive Handler : Type :=
  | Own
  | Client (id : nat).

#[global] Instance handler_eq_dec : EqDecision Handler.
Proof. solve_decision. Defined.

(** The transport handle: what [io(url, options)] returns. *)
Record Socket : Type := MkSocket {
  sock_port : Z;
  sock_connected : bool;
  sock_listeners : list (string * Handler)
}.

#[global] Instance socket_eq_dec : EqDecision Socket.
Proof. solve_decision. Defined.

(** The private fields.  A timer field holds the delay of the timer that is
    pending, [None] when none is (a cleared or a spent one). *)
Record State : Type := MkCM {
  socket : option Socket;
  currentPort : option Z;
  isConnecting : bool;
  reconnectAttempts : Z;
  reconnectTimer : option float;
  currentReconnectDelay : float;
  connectionTimeoutTimer : option Z
}.

Definition initial : State :=
  MkCM None None false 0 None DEFAULT_RECONNECT_DELAY None.

Definition set_socket (v : option Socket) (s : State) : State :=
  MkCM v (currentPort s) (isConnecting s) (reconnectAttempts s) (reconnectTimer s)
       (currentReconnectDelay s) (connectionTimeoutTimer s).
Definition set_currentPort (v : option Z) (s : State) : State :=
  MkCM (socket s) v (isConnecting s) (reconnectAttempts s) (reconnectTimer s)
       (currentReconnectDelay s) (connectionTimeoutTimer s).
Definition set_isConnecting (v : bool) (s : State) : State :=
  MkCM (socket s) (currentPort s) v (reconnectAttempts s) (reconnectTimer s)
       (currentReconnectDelay s) (connectionTimeoutTimer s).
Definition set_reconnectAttempts (v : Z) (s : State) : State :=
  MkCM (socket s) (currentPort s) (isConnecting s) v (reconnectTimer s)
       (currentReconnectDelay s) (connectionTimeoutTimer s).
Definition set_reconnectTimer (v : option float) (s : State) : State :=
  MkCM (socket s) (currentPort s) (isConnecting s) (reconnectAttempts s) v
       (currentReconnectDelay s) (connectionTimeoutTimer s).
Definition set_currentReconnectDelay (v : float) (s : State) : State :=
  MkCM (socket s) (currentPort s) (isConnecting s) (reconnectAttempts s) (reconnectTimer s)
       v (connectionTimeoutTimer s).
Definition set_connectionTimeoutTimer (v : option Z) (s : State) : State :=
  MkCM (socket s) (currentPort s) (isConnecting s) (reconnectAttempts s) (reconnectTimer s)
       (currentReconnectDelay s) v.

(** A notification is one call of the [onConnectionChange] callback. *)
Definition CM (A : Type) : Type := Eff State JsError ConnectionStatus A.

Definition onConnectionChange (status : ConnectionStatus) : CM unit :=
  notify status.

Definition failure_status (e : ErrorCode * string) : ConnectionStatus :=
  MkStatus false false None (Some e).

(** [this.socket?.connected ?? false] *)
Definition isConnected (s : State) : bool :=
  match socket s with
  | Some sock => sock_connected sock
  | None => false
  end.

Definition getStatus (s : State) : ConnectionStatus :=
  MkStatus (isConnected s) (isConnecting s) (currentPort s) None.

Definition clearReconnectTimer : CM unit :=
  modify (set_reconnectTimer None).

Definition clearConnectionTimeout : CM unit :=
  modify (set_connectionTimeoutTimer None).

Definition max_attempts_message (maxAttempts : Z) : string :=
  "Max reconnect attempts (" +:+ number_to_string maxAttempts +:+ ") reached".

(** The part of [scheduleReconnect] after the limit check: count the
    attempt, arm the timer with the current delay, then raise the delay. *)
Definition arm_reconnect : CM unit :=
  s ← get_state;
  modify (set_reconnectAttempts (reconnectAttempts s + 1));;
  modify (set_reconnectTimer (Some (currentReconnectDelay s)));;
  modify (set_currentReconnectDelay
            (math_min (currentReconnectDelay s * RECONNECT_BACKOFF_MULTIPLIER)%float
                      MAX_RECONNECT_DELAY)).

Definition scheduleReconnect (opts : ConnectionOptions) : CM unit :=
  clearReconnectTimer;;
  s ← get_state;
  match maxReconnectAttempts opts with
  | Some maxAttempts =>
      if reconnectAttempts s >=? maxAttempts
      then onConnectionChange
             (failure_status (CONNECTION_REFUSED, max_attempts_message maxAttempts))
      else arm_reconnect
  | None => arm_reconnect
  end.

(** What the transport does with one connection attempt: the socket's
    [connect] event, its [connect_error] event, the expiry of the connection
    timer, or [io] itself throwing. *)
Inductive Transport : Type :=
  | Connects
  | ConnectError (message : string)
  | TimesOut
  | IoThrows (message : string).

Fixpoint includes (needle hay : string) : bool :=
  if String.prefix needle hay then true
  else match hay with
       | EmptyString => false
       | String _ rest => includes needle rest
       end.

Definition connect_error (message : string) : JsError :=
  if includes "xhr poll error" message || includes "websocket error" message
  then KrispSDKError CONNECTION_REFUSED ("Connection refused: " +:+ message)
  else KrispSDKError UNKNOWN_ERROR ("Connection error: " +:+ message).

Definition message_events : list string :=
  ["device_state"; "nc_state"; "ac_state"; "in_call_state"; "error"; "pong"].

Definition add_listeners (ls : list (string * Handler)) (sock : Socket) : Socket :=
  MkSocket (sock_port sock) (sock_connected sock) (sock_listeners sock ++ ls).

Definition setupMessageHandlers : CM unit :=
  s ← get_state;
  match socket s with
  | None => mret tt
  | Some sock =>
      modify (set_socket (Some (add_listeners (map (fun e => (e, Own)) message_events) sock)))
  end.

(** [connectToPort(port)], awaited: it returns when the promise resolves and
    throws the rejection. *)
Definition connectToPort (opts : ConnectionOptions) (net : Z -> Transport) (p : Z)
    : CM unit :=
  match net p with
  | IoThrows m => throw (PlainError m)
  | outcome =>
      let timeout := timeout_of opts in
      let lifecycle := [("connect", Own); ("connect_error", Own); ("disconnect", Own)] in
      modify (set_socket (Some (MkSocket p false lifecycle)));;
      modify (set_connectionTimeoutTimer (Some timeout));;
      match outcome with
      | Connects =>
          modify (set_socket (Some (MkSocket p true lifecycle)));;
          clearConnectionTimeout;;
          setupMessageHandlers
      | ConnectError m =>
          clearConnectionTimeout;;
          throw (connect_error m)
      | _ =>
          modify (set_connectionTimeoutTimer None);;
          throw (KrispSDKError CONNECTION_TIMEOUT
                   ("Connection timeout after " +:+ number_to_string timeout +:+ "ms"))
      end
  end.

(** The body of the [for] loop over the ports, for one port: [None] when
    the port connected (the loop returns), the error caught otherwise. *)
Definition attempt_port (opts : ConnectionOptions) (net : Z -> Transport) (p : Z)
    : CM (option JsError) :=
  try_catch
    (modify (set_currentPort (Some p));;
     connectToPort opts net p;;
     modify (set_isConnecting false);;
     modify (set_reconnectAttempts 0);;
     modify (set_currentReconnectDelay DEFAULT_RECONNECT_DELAY);;
     onConnectionChange (MkStatus true false (Some p) None);;
     mret None)
    (fun err =>
       modify (set_socket None);;
       mret (Some err)).

(** The loop: [None] is the [return] of the success branch, [Some lastError]
    the fall-through after the last port. *)
Fixpoint try_ports (opts : ConnectionOptions) (net : Z -> Transport) (ports : list Z)
    (lastError : option JsError) : CM (option (option JsError)) :=
  match ports with
  | [] => mret (Some lastError)
  | p :: rest =>
      r ← attempt_port opts net p;
      match r with
      | None => mret None
      | Some err => try_ports opts net rest (Some err)
      end
  end.

Definition not_reachable : JsError :=
  KrispSDKError KRISP_NOT_REACHABLE "Krisp Desktop is not reachable or API is disabled".

Definition status_of_error (e : JsError) : ConnectionStatus :=
  match e with
  | KrispSDKError c m => failure_status (c, m)
  | _ => failure_status (UNKNOWN_ERROR, error_message e)
  end.

(** [connect()], for one full pass; [net] says what the transport does at
    each port.  The result is the settlement of the returned promise. *)
Definition connect (opts : ConnectionOptions) (net : Z -> Transport) : CM unit :=
  s ← get_state;
  if isConnected s then mret tt
  else if isConnecting s then mret tt
  else
    modify (set_isConnecting true);;
    onConnectionChange (MkStatus false true None None);;
    try_catch
      (r ← try_ports opts net DEFAULT_PORTS None;
       match r with
       | None => mret tt
       | Some lastError =>
           let sdkError :=
             match lastError with
             | Some e => if is_sdk_error e then e else not_reachable
             | None => not_reachable
             end in
           modify (set_isConnecting false);;
           onConnectionChange (status_of_error sdkError);;
           if auto_reconnect_enabled opts then scheduleReconnect opts
           else throw sdkError
       end)
      (fun err =>
         modify (set_isConnecting false);;
         let sdkError :=
           if is_sdk_error err then err
           else KrispSDKError UNKNOWN_ERROR ("Connection failed: " +:+ error_to_string err) in
         onConnectionChange (status_of_error sdkError);;
         if auto_reconnect_enabled opts then scheduleReconnect opts
         else throw sdkError).

(** The reconnect timer fires: [this.connect().catch(() => {})]. *)
Definition reconnect_timer_fires (opts : ConnectionOptions) (net : Z -> Transport)
    : CM unit :=
  s ← get_state;
  match reconnectTimer s with
  | None => mret tt
  | Some _ =>
      modify (set_reconnectTimer None);;
      try_catch (connect opts net) (fun _ => mret tt)
  end.

Definition disconnect : CM unit :=
  clearReconnectTimer;;
  clearConnectionTimeout;;
  modify (set_socket None);;
  modify (set_currentPort None);;
  modify (set_isConnecting false);;
  modify (set_reconnectAttempts 0);;
  modify (set_currentReconnectDelay DEFAULT_RECONNECT_DELAY);;
  onConnectionChange (MkStatus false false None None).

(** The socket's [disconnect] event. *)
Definition socket_disconnected (opts : ConnectionOptions) (reason : string) : CM unit :=
  s ← get_state;
  match socket s with
  | None => mret tt
  | Some sock =>
      modify (set_socket (Some (MkSocket (sock_port sock) false (sock_listeners sock))));;
      clearConnectionTimeout;;
      if bool_decide (reason = "io server disconnect")
      then onConnectionChange
             (failure_status (CONNECTION_REFUSED, "Server disconnected client"))
      else if bool_decide (reason = "io client disconnect")
      then mret tt
      else
        onConnectionChange
          (failure_status (CONNECTION_REFUSED, "Disconnected: " +:+ reason));;
        if auto_reconnect_enabled opts then scheduleReconnect opts else mret tt
  end.

(** The socket's [connect] event when it fires again on the socket the
    supervisor holds (Socket.IO reconnects a socket by itself): the handler
    clears the connection timer and registers the message handlers once
    more; its [resolve()] finds the promise settled. *)
Definition socket_reconnected : CM unit :=
  s ← get_state;
  match socket s with
  | None => mret tt
  | Some sock =>
      modify (set_socket (Some (MkSocket (sock_port sock) true (sock_listeners sock))));;
      clearConnectionTimeout;;
      setupMessageHandlers
  end.

(** [on(event, handler)] and [off(event, handler)]: nothing happens without
    a socket. *)
Definition on (event : string) (h : Handler) (s : State) : State :=
  match socket s with
  | Some sock => set_socket (Some (add_listeners [(event, h)] sock)) s
  | None => s
  end.

Definition remove_listener (event : string) (h : Handler) (sock : Socket) : Socket :=
  MkSocket (sock_port sock) (sock_connected sock)
           (filter (fun l => l <> (event, h)) (sock_listeners sock)).

Definition off (event : string) (h : Handler) (s : State) : State :=
  match socket s with
  | Some sock => set_socket (Some (remove_listener event h sock)) s
  | None => s
  end.

(** [emit(event, data, callback)] throws unless connected; otherwise the
    request goes out on the socket. *)
Definition emit (s : State) : Outcome JsError unit :=
  if isConnected s then Ok tt
  else Throw (KrispSDKError CONNECTION_REFUSED "Not connected to server").

End ConnectionManager.

(** ** The handler tables

    [state-manager.ts] and [index.ts] keep the same structure, a
    [Map<SDKEvent, Set<EventHandler>>] filled by the constructor, and the
    same code around it: [on], [off] and the dispatch loop. *)

Module EventHandlers.
Import Js StateManager.

(** The string values of the [SDKEvent] enum: the keys of the map. *)
Definition sdk_event (e : SDKEvent) : string :=
  match e with
  | DEVICES_CHANGED => "devicesChanged"
  | NOISE_CANCELLATION_CHANGED => "noiseCancellationChanged"
  | ACCENT_CONVERSION_CHANGED => "accentConversionChanged"
  | IN_CALL_CHANGED => "inCallChanged"
  | CONNECTION_CHANGED => "connectionChanged"
  | ERROR => "error"
  end.

(** [Object.values(SDKEvent)] *)
Definition SDK_EVENTS : list SDKEvent :=
  [DEVICES_CHANGED; NOISE_CANCELLATION_CHANGED; ACCENT_CONVERSION_CHANGED;
   IN_CALL_CHANGED; CONNECTION_CHANGED; ERROR].

(** A handler is a function object, known here by a number; a [Set] of
    handlers is the list of its members in insertion order. *)
Definition EventHandler : Type := nat.

Definition Table : Type := gmap string (list EventHandler).

(** [handlers.add(handler)] and [handlers.delete(handler)] *)
Definition set_add (handler : EventHandler) (handlers : list EventHandler)
    : list EventHandler :=
  if bool_decide (handler ∈ handlers) then handlers else handlers ++ [handler].

Definition set_delete (handler : EventHandler) (handlers : list EventHandler)
    : list EventHandler :=
  filter (fun h => h <> handler) handlers.

(** The loop of the constructor: every event gets an empty set. *)
Definition create : Table :=
  foldl (fun t e => <[sdk_event e := []]> t) ∅ SDK_EVENTS.

(** [on(event, handler)] *)
Definition on (event : string) (handler : EventHandler) (t : Table) : Table :=
  match t !! event with
  | Some handlers => <[event := set_add handler handlers]> t
  | None => t
  end.

(** [off(event, handler?)]: without a handler the set is cleared. *)
Definition off (event : string) (handler : option EventHandler) (t : Table) : Table :=
  match t !! event with
  | Some handlers =>
      match handler with
      | Some h => <[event := set_delete h handlers]> t
      | None => <[event := []]> t
      end
  | None => t
  end.

(** What calling a handler does: it returns ([None]) or throws.  Handlers
    that register or remove handlers while a dispatch is running are not
    considered. *)
Definition Behaviour : Type := EventHandler -> JsValue -> option JsError.

(** What a dispatch does, in order: the calls it makes, and the errors it
    catches and writes to the console. *)
Inductive Effect : Type :=
  | Called (handler : EventHandler) (data : JsValue)
  | ConsoleError (text : string) (e : JsError).

Definition call_handler (b : Behaviour) (text : string) (data : JsValue)
    (handler : EventHandler) : list Effect :=
  Called handler data
  :: match b handler data with
     | Some e => [ConsoleError text e]
     | None => []
     end.

(** [emitInternal(event, data)] of the state manager and
    [emitToHandlers(event, data)] of the facade. *)
Definition dispatch (b : Behaviour) (event : string) (data : JsValue) (t : Table)
    : list Effect :=
  match t !! event with
  | Some handlers =>
      flat_map (call_handler b ("Error in event handler for " +:+ event +:+ ":") data)
               handlers
  | None => []
  end.

End EventHandlers.

(** ** index.ts: the facade *)

Module Sdk.
Import Js StateManager.

(** [KrispSDKOptions] *)
Record KrispSDKOptions : Type := MkSdkOptions {
  connection : ConnectionManager.ConnectionOptions;
  autoSubscribe : option bool;
  autoSubscribeTopics : option (list string)
}.

Definition ALL_TOPICS : list string := ["devices"; "nc"; "ac"; "in_call"].

(** [this.options.autoSubscribe !== false] *)
Definition auto_subscribe_enabled (opts : KrispSDKOptions) : bool :=
  match autoSubscribe opts with
  | Some false => false
  | _ => true
  end.

(** [this.options.autoSubscribeTopics || ['devices', 'nc', 'ac', 'in_call']]:
    an array, even an empty one, is truthy. *)
Definition auto_topics (opts : KrispSDKOptions) : list string :=
  default ALL_TOPICS (autoSubscribeTopics opts).

(** *** Events to the client's handlers *)

(** [emitToHandlers(event, data)]: every handler the client registered for
    the event is called with the data; one that throws is caught and logged.
    A notification of the facade is one such dispatch. *)
Definition Facade (A : Type) : Type := Eff StateManager.State JsError Notification A.

Definition emitToHandlers (event : SDKEvent) (data : JsValue) : Facade unit :=
  notify (event, data).

(** [emitError(new KrispSDKError(code, message))] *)
Definition error_data (code : ErrorCode) (message : string) : JsValue :=
  JObj [("code", JStr (code_name code)); ("message", JStr message);
        ("originalError", JUndefined)].

Definition emitError (code : ErrorCode) (message : string) : Facade unit :=
  emitToHandlers ERROR (error_data code message).

(** [String(v)], as the [Error] constructor applies it to its message.
    [None] is the [TypeError] of an object that has no primitive value:
    parsed JSON holds no functions, so an own [toString] property hides
    [Object.prototype.toString] behind something that cannot be called, and
    [valueOf] gives back the object.  An array joins its items, [null] and
    [undefined] as nothing, and fails when an item does. *)
Fixpoint to_string (v : JsValue) : option string :=
  match v with
  | JUndefined => Some "undefined"
  | JNull => Some "null"
  | JBool b => Some (if b then "true" else "false")
  | JNum n => Some (number_to_string n)
  | JStr s => Some s
  | JArr items =>
      let fix items_go (l : list JsValue) : option (list string) :=
        match l with
        | [] => Some []
        | x :: r =>
            match (match x with
                   | JUndefined | JNull => Some EmptyString
                   | _ => to_string x
                   end) with
            | Some sx =>
                match items_go r with
                | Some sr => Some (sx :: sr)
                | None => None
                end
            | None => None
            end
        end in
      match items_go items with
      | Some parts => Some (join_comma parts)
      | None => None
      end
  | JObj props =>
      match assoc "toString" props with
      | Some _ => None
      | None => Some "[object Object]"
      end
  end.

(** The handlers the constructor registers on the state manager: the four
    change events go to the client's handlers as they are; the server's
    [error] message becomes an UNKNOWN_ERROR event, unless reading its
    [message] or building the error throws, which [emitInternal] catches. *)
Definition forward (n : Notification) : list Notification :=
  match fst n with
  | ERROR =>
      match prop (snd n) "message" with
      | Ok m =>
          match to_string (or_else m (JStr "Server error")) with
          | Some text => [(ERROR, error_data UNKNOWN_ERROR text)]
          | None => []
          end
      | Throw _ => []
      end
  | CONNECTION_CHANGED => []
  | event => [(event, snd n)]
  end.

Definition relay {A} (m : SM A) : Facade A :=
  fun s =>
    match m s with
    | MkRun r s' t => MkRun r s' (flat_map forward t)
    end.

(** The [onMessage] callback handed to the connection manager. *)
Definition onMessage (event : ServerEvent) (data : JsValue) : Facade unit :=
  try_catch (relay (handleMessage event data))
    (fun err =>
       emitError INVALID_MESSAGE ("Failed to process message: " +:+ error_to_string err)).

(** *** Connection changes and the reconnection flags *)

Record Flags : Type := MkFlags {
  wasConnected : bool;
  isReconnecting : bool
}.

(** [emitConnectionChange(status)]: the new flags, and whether
    [handleReconnection()] is started. *)
Definition emitConnectionChange (status : ConnectionManager.ConnectionStatus)
    (f : Flags) : Flags * bool :=
  let connected := ConnectionManager.connected status in
  let justReconnected := negb (wasConnected f) && connected && isReconnecting f in
  if connected && negb (wasConnected f)
  then (MkFlags true (wasConnected f), justReconnected)
  else if negb connected && wasConnected f
  then (MkFlags false true, false)
  else (f, false).

(** The [ConnectionState] built by [emitConnectionChange]: the status
    without its port. *)
Definition connection_state (status : ConnectionManager.ConnectionStatus) : JsValue :=
  JObj [("connected", JBool (ConnectionManager.connected status));
        ("connecting", JBool (ConnectionManager.connecting status));
        ("error",
         match ConnectionManager.error status with
         | Some (code, message) =>
             JObj [("code", JStr (code_name code)); ("message", JStr message)]
         | None => JUndefined
         end)].

(** What the client's connection handlers are called with when the
    supervisor reports a status. *)
Definition connection_change (status : ConnectionManager.ConnectionStatus) : Notification :=
  (CONNECTION_CHANGED, connection_state status).

(** The facade's [connect()] starts with [this.isReconnecting = false];
    its [disconnect()] ends with both flags false. *)
Definition manual_connect_flags (f : Flags) : Flags :=
  MkFlags (wasConnected f) false.

Definition disconnect_flags (f : Flags) : Flags :=
  MkFlags false false.

(** *** Asynchronous code

    An [async] function is a tree of the calls it awaits; each node hands the
    answer of the environment to the continuation. *)
Inductive Prog (A : Type) : Type :=
  | Return (a : A)
  | Raise (e : JsError)
  | AskConnected (k : bool -> Prog A)
  | Wait (ms : Z) (k : Prog A)
  | FetchAll (domains : list Domain) (k : Prog A)
  | AwaitSubscribe (topics : list string) (k : Outcome JsError unit -> Prog A)
  | Log (message : string) (k : Prog A).
Arguments Return {A} a.
Arguments Raise {A} e.
Arguments AskConnected {A} k.
Arguments Wait {A} ms k.
Arguments FetchAll {A} domains k.
Arguments AwaitSubscribe {A} topics k.
Arguments Log {A} message k.

Fixpoint prog_bind {A B} (p : Prog A) (f : A -> Prog B) : Prog B :=
  match p with
  | Return a => f a
  | Raise e => Raise e
  | AskConnected k => AskConnected (fun c => prog_bind (k c) f)
  | Wait ms k => Wait ms (prog_bind k f)
  | FetchAll ds k => FetchAll ds (prog_bind k f)
  | AwaitSubscribe ts k => AwaitSubscribe ts (fun o => prog_bind (k o) f)
  | Log m k => Log m (prog_bind k f)
  end.

(** [try { p } catch (e) { h e }] *)
Fixpoint prog_catch {A} (p : Prog A) (h : JsError -> Prog A) : Prog A :=
  match p with
  | Return a => Return a
  | Raise e => h e
  | AskConnected k => AskConnected (fun c => prog_catch (k c) h)
  | Wait ms k => Wait ms (prog_catch k h)
  | FetchAll ds k => FetchAll ds (prog_catch k h)
  | AwaitSubscribe ts k => AwaitSubscribe ts (fun o => prog_catch (k o) h)
  | Log m k => Log m (prog_catch k h)
  end.

(** [await this.subscribe(topics)]: a rejection is thrown at the [await]. *)
Definition await_subscribe (topics : list string) : Prog unit :=
  AwaitSubscribe topics
    (fun o => match o with Ok _ => Return tt | Throw e => Raise e end).

(** The settling loop of [handleReconnection]:
    [while (!this.connectionManager.isConnected() && retries > 0)
       { await sleep(100); retries--; }] *)
Fixpoint settle (retries : nat) : Prog unit :=
  AskConnected
    (fun c =>
       if c then Return tt
       else match retries with
            | O => Return tt
            | S r => Wait 100 (settle r)
            end).

(** [fetchInitialStates()]: the four get-state calls are started in this
    order, in one turn, and awaited together; each one's rejection is
    swallowed by its own [catch], so the whole never throws.  In
    [handleReconnection] that turn is the one of the connectivity check just
    before, so each call passes its own check and sends its request. *)
Definition fetchInitialStates : Prog unit :=
  FetchAll [Devices; NoiseCancellation; AccentConversion; InCall] (Return tt).

Definition join_topics (topics : list string) : string :=
  foldr (fun t acc =>
           if bool_decide (acc = EmptyString) then t else t +:+ ", " +:+ acc)
        EmptyString topics.

(** [handleReconnection()]; [subscribedTopics] is the subscription set as
    the procedure reads it when it gets to re-subscribing. *)
Definition handleReconnection (opts : KrispSDKOptions) (subscribedTopics : list string)
    : Prog unit :=
  prog_catch
    (prog_bind (settle 10) (fun _ =>
     AskConnected (fun c =>
       if negb c then Log "Connection not ready after reconnection" (Return tt)
       else
         prog_bind fetchInitialStates (fun _ =>
         if auto_subscribe_enabled opts
         then
           let topics :=
             if (0 <? length subscribedTopics)%nat then subscribedTopics
             else auto_topics opts in
           prog_bind (await_subscribe topics) (fun _ =>
           Log ("Re-subscribed to topics after reconnection: " +:+ join_topics topics)
               (Return tt))
         else Return tt))))
    (fun e => Log ("Failed to handle reconnection: " +:+ error_to_string e) (Return tt)).

(** What the program did, as seen from outside: the answers it got from
    [isConnected()], its waits, the get-state calls and the [subscribe]
    calls it made, and what it logged. *)
Inductive Action : Type :=
  | Polled (connected : bool)
  | Waited (ms : Z)
  | Requested (d : Domain)
  | Subscribed (topics : list string)
  | Logged (message : string).

(** The environment: what the [n]-th call of [isConnected()] answers, and
    how a subscribe call settles. *)
Record Env : Type := MkEnv {
  connectivity : nat -> bool;
  subscribe_outcome : list string -> Outcome JsError unit
}.

(** Runs a program against an environment; [polls] counts the calls of
    [isConnected()] made so far. *)
Fixpoint exec {A} (env : Env) (polls : nat) (p : Prog A) : Outcome JsError A * list Action :=
  match p with
  | Return a => (Ok a, [])
  | Raise e => (Throw e, [])
  | AskConnected k =>
      let c := connectivity env polls in
      let '(r, t) := exec env (S polls) (k c) in
      (r, Polled c :: t)
  | Wait ms k =>
      let '(r, t) := exec env polls k in
      (r, Waited ms :: t)
  | FetchAll ds k =>
      let '(r, t) := exec env polls k in
      (r, map Requested ds ++ t)
  | AwaitSubscribe ts k =>
      let '(r, t) := exec env polls (k (subscribe_outcome env ts)) in
      (r, Subscribed ts :: t)
  | Log m k =>
      let '(r, t) := exec env polls k in
      (r, Logged m :: t)
  end.

(** *** One get-state call in flight *)

Definition push_name (d : Domain) : string :=
  match d with
  | Devices => "device_state"
  | NoiseCancellation => "nc_state"
  | AccentConversion => "ac_state"
  | InCall => "in_call_state"
  end.

Definition request_name (d : Domain) : string :=
  match d with
  | Devices => "get_device_state"
  | NoiseCancellation => "get_nc_state"
  | AccentConversion => "get_ac_state"
  | InCall => "get_in_call_state"
  end.

Definition failed_message (d : Domain) : string :=
  match d with
  | Devices => "Failed to get device state"
  | NoiseCancellation => "Failed to get NC state"
  | AccentConversion => "Failed to get AC state"
  | InCall => "Failed to get in-call state"
  end.

Definition event_name (e : ServerEvent) : string :=
  match e with
  | device_state => "device_state"
  | nc_state => "nc_state"
  | ac_state => "ac_state"
  | in_call_state => "in_call_state"
  | error => "error"
  | pong => "pong"
  end.

(** The facade with one get-state call: the options, the cache, the
    supervisor, the sockets the supervisor has let go of (such an object
    lives on, here with the listeners it had at that moment), the call's
    domain, listener, timer and promise, the requests sent and the events
    given to the client. *)
Record World : Type := MkWorld {
  options : ConnectionManager.ConnectionOptions;
  sm : StateManager.State;
  cm : ConnectionManager.State;
  dropped : list ConnectionManager.Socket;
  domain : Domain;
  handler : nat;
  timer : option Z;
  promise : option (Outcome JsError JsValue);
  sent : list (string * JsValue);
  events : list Notification
}.

Definition set_sm (v : StateManager.State) (w : World) : World :=
  MkWorld (options w) v (cm w) (dropped w) (domain w) (handler w) (timer w) (promise w)
          (sent w) (events w).
Definition set_cm (v : ConnectionManager.State) (w : World) : World :=
  MkWorld (options w) (sm w) v (dropped w) (domain w) (handler w) (timer w) (promise w)
          (sent w) (events w).
Definition set_timer (v : option Z) (w : World) : World :=
  MkWorld (options w) (sm w) (cm w) (dropped w) (domain w) (handler w) v (promise w)
          (sent w) (events w).

(** [resolve(v)] and [reject(e)]: a promise settles once, later calls do
    nothing. *)
Definition settle_promise (o : Outcome JsError JsValue) (w : World) : World :=
  match promise w with
  | Some _ => w
  | None =>
      MkWorld (options w) (sm w) (cm w) (dropped w) (domain w) (handler w) (timer w)
              (Some o) (sent w) (events w)
  end.

(** [cleanup()]: [clearTimeout(timeout)] and
    [this.connectionManager.off(event, handler)]. *)
Definition cleanup (w : World) : World :=
  set_cm (ConnectionManager.off (push_name (domain w)) (ConnectionManager.Client (handler w))
            (cm w))
         (set_timer None w).

(** [getXState()] up to the first suspension: the connectivity check, the
    timer, the one-shot listener and the request.  [h] names the listener. *)
Definition getState (opts : ConnectionManager.ConnectionOptions) (d : Domain) (h : nat)
    (sm0 : StateManager.State) (cm0 : ConnectionManager.State) : World :=
  if ConnectionManager.isConnected cm0
  then
    MkWorld opts sm0
            (ConnectionManager.on (push_name d) (ConnectionManager.Client h) cm0)
            [] d h (Some 5000) None [(request_name d, JObj [])] []
  else
    MkWorld opts sm0 cm0 [] d h None
            (Some (Throw (KrispSDKError CONNECTION_REFUSED "Not connected to server")))
            [] [].

(** The timer's callback. *)
Definition on_timeout (w : World) : World :=
  settle_promise (Throw (KrispSDKError CONNECTION_TIMEOUT "Request timeout")) (cleanup w).

(** The one-shot listener. *)
Definition on_push (state : JsValue) (w : World) : World :=
  settle_promise (Ok state) (cleanup w).

(** The acknowledgement callback of the request. *)
Definition on_ack (response : JsValue) (w : World) : World :=
  let w1 :=
    if negb (truthy (opt_prop response "success"))
    then settle_promise
           (Throw (KrispSDKError UNKNOWN_ERROR (failed_message (domain w))))
           (cleanup w)
    else w in
  match cached (domain w1) (sm w1) with
  | Some currentState => settle_promise (Ok currentState) (cleanup w1)
  | None => w1
  end.

(** One listener of the socket is called with a server message. *)
Definition call_listener (e : ServerEvent) (data : JsValue)
    (l : string * ConnectionManager.Handler) (w : World) : World :=
  if bool_decide (fst l = event_name e)
  then
    match snd l with
    | ConnectionManager.Own =>
        match onMessage e data (sm w) with
        | MkRun _ s' t =>
            MkWorld (options w) s' (cm w) (dropped w) (domain w) (handler w) (timer w)
                    (promise w) (sent w) (events w ++ t)
        end
    | ConnectionManager.Client id =>
        if bool_decide (id = handler w) then on_push data w else w
    end
  else w.

(** What the supervisor may do while the call is in flight: a [connect()]
    pass, started by the client or by the reconnect timer, the [disconnect]
    event of the socket it holds, a later [connect] event of that socket,
    and [disconnect()]. *)
Inductive SupervisorCall : Type :=
  | CallConnect (net : Z -> ConnectionManager.Transport)
  | ReconnectTimer (net : Z -> ConnectionManager.Transport)
  | SocketDisconnected (reason : string)
  | SocketReconnected
  | CallDisconnect.

Definition supervise (opts : ConnectionManager.ConnectionOptions) (c : SupervisorCall)
    : ConnectionManager.CM unit :=
  match c with
  | CallConnect net => ConnectionManager.connect opts net
  | ReconnectTimer net => ConnectionManager.reconnect_timer_fires opts net
  | SocketDisconnected reason => ConnectionManager.socket_disconnected opts reason
  | SocketReconnected => ConnectionManager.socket_reconnected
  | CallDisconnect => ConnectionManager.disconnect
  end.

(** The socket the supervisor held before the call, if it is let go of: the
    socket's own events keep the object, [disconnect()] gives it up, and a
    pass that assigns [this.socket] gives up the one it overwrites. *)
Definition let_go (c : SupervisorCall) (before after : ConnectionManager.State)
    : list ConnectionManager.Socket :=
  match c, ConnectionManager.socket before with
  | SocketDisconnected _, _ => []
  | SocketReconnected, _ => []
  | _, Some old =>
      if bool_decide (ConnectionManager.socket after = Some old) then []
      else [ConnectionManager.MkSocket (ConnectionManager.sock_port old) false
              (ConnectionManager.sock_listeners old)]
  | _, None => []
  end.

(** What can happen to the call: its timer expires (if still pending), the
    socket the supervisor holds delivers a server message to the listeners
    it had at that moment, the acknowledgement callback is invoked, or the
    supervisor acts; every status the supervisor reports then goes to the
    client through [emitConnectionChange]. *)
Inductive Event : Type :=
  | TimerFires
  | Push (e : ServerEvent) (data : JsValue)
  | Ack (response : JsValue)
  | Supervisor (c : SupervisorCall).

Definition step (w : World) (ev : Event) : World :=
  match ev with
  | TimerFires =>
      match timer w with
      | Some _ => on_timeout w
      | None => w
      end
  | Push e data =>
      match ConnectionManager.socket (cm w) with
      | Some sock =>
          if ConnectionManager.sock_connected sock
          then foldl (fun w' l => call_listener e data l w') w
                     (ConnectionManager.sock_listeners sock)
          else w
      | None => w
      end
  | Ack response => on_ack response w
  | Supervisor c =>
      let r := supervise (options w) c (cm w) in
      MkWorld (options w) (sm w) (final r) (let_go c (cm w) (final r) ++ dropped w)
              (domain w) (handler w) (timer w) (promise w) (sent w)
              (events w ++ map connection_change (trace r))
  end.

Definition steps (w : World) (evs : list Event) : World := foldl step w evs.

(** *** subscribe *)

(** [this.subscribedTopics.add(topic)] on a [Set], kept in insertion
    order. *)
Definition set_add (topic : string) (topics : list string) : list string :=
  if bool_decide (topic ∈ topics) then topics else topics ++ [topic].

(** One subscribe call in flight. *)
Record Subscription : Type := MkSubscription {
  requested : list string;
  subscribedTopics : list string;
  sub_timer : option Z;
  sub_promise : option (Outcome JsError unit)
}.

Definition sub_settle (o : Outcome JsError unit) (s : Subscription) : Subscription :=
  match sub_promise s with
  | Some _ => s
  | None => MkSubscription (requested s) (subscribedTopics s) (sub_timer s) (Some o)
  end.

(** [subscribe(topics)] up to the first suspension: it throws when the
    supervisor is not connected, and otherwise arms the timer and sends the
    request. *)
Definition subscribe (connected : bool) (topics : list string) (subscribed : list string)
    : Subscription :=
  if connected
  then MkSubscription topics subscribed (Some 5000) None
  else MkSubscription topics subscribed None
         (Some (Throw (KrispSDKError CONNECTION_REFUSED "Not connected to server"))).

(** [confirmedTopics.forEach(topic => { if (topics.includes(topic))
    this.subscribedTopics.add(topic) })] *)
Definition add_confirmed (topics : list string) (confirmed : list JsValue)
    (subscribed : list string) : list string :=
  foldl (fun acc item =>
           match item with
           | JStr topic => if bool_decide (topic ∈ topics) then set_add topic acc else acc
           | _ => acc
           end)
        subscribed confirmed.

(** The acknowledgement callback.  [None]: the callback threw (the
    server's [subscribed] is truthy and has no [forEach]). *)
Definition sub_on_ack (response : JsValue) (s : Subscription) : option Subscription :=
  let s1 := MkSubscription (requested s) (subscribedTopics s) None (sub_promise s) in
  if truthy (opt_prop response "success")
  then
    let subscribed := opt_prop response "subscribed" in
    let confirmed :=
      if truthy subscribed
      then match subscribed with JArr items => Some items | _ => None end
      else Some (map JStr (requested s)) in
    match confirmed with
    | Some items =>
        Some (sub_settle (Ok tt)
                (MkSubscription (requested s1)
                   (add_confirmed (requested s) items (subscribedTopics s1))
                   (sub_timer s1) (sub_promise s1)))
    | None => None
    end
  else Some (sub_settle (Throw (KrispSDKError UNKNOWN_ERROR "Failed to subscribe")) s1).


(** *** unsubscribe *)

(** [topics.forEach((topic) => this.subscribedTopics.delete(topic))] *)
Definition delete_topics (topics : list string) (subscribed : list string) : list string :=
  foldl (fun acc topic => filter (fun t => t <> topic) acc) subscribed topics.

(** [unsubscribe(topics)] up to the first suspension. *)
Definition unsubscribe (connected : bool) (topics : list string) (subscribed : list string)
    : Subscription :=
  if connected
  then MkSubscription topics subscribed (Some 5000) None
  else MkSubscription topics subscribed None
         (Some (Throw (KrispSDKError CONNECTION_REFUSED "Not connected to server"))).

(** The acknowledgement callback. *)
Definition unsub_on_ack (response : JsValue) (s : Subscription) : Subscription :=
  let s1 := MkSubscription (requested s) (subscribedTopics s) None (sub_promise s) in
  if truthy (opt_prop response "success")
  then sub_settle (Ok tt)
         (MkSubscription (requested s1)
            (delete_topics (requested s) (subscribedTopics s1))
            (sub_timer s1) (sub_promise s1))
  else sub_settle (Throw (KrispSDKError UNKNOWN_ERROR "Failed to unsubscribe")) s1.

(** The timer's callback. *)
Definition unsub_on_timeout (s : Subscription) : Subscription :=
  sub_settle (Throw (KrispSDKError CONNECTION_TIMEOUT "Request timeout"))
    (MkSubscription (requested s) (subscribedTopics s) None (sub_promise s)).

(** *** ping *)

Record Ping : Type := MkPing {
  ping_timer : option Z;
  ping_promise : option (Outcome JsError unit)
}.

Definition ping_settle (o : Outcome JsError unit) (p : Ping) : Ping :=
  match ping_promise p with
  | Some _ => p
  | None => MkPing (ping_timer p) (Some o)
  end.

(** [ping()] up to the first suspension. *)
Definition ping (connected : bool) : Ping :=
  if connected
  then MkPing (Some 5000) None
  else MkPing None (Some (Throw (KrispSDKError CONNECTION_REFUSED "Not connected to server"))).

(** The acknowledgement callback. *)
Definition ping_on_ack (response : JsValue) (p : Ping) : Ping :=
  let p1 := MkPing None (ping_promise p) in
  if truthy (opt_prop response "success")
  then ping_settle (Ok tt) p1
  else ping_settle (Throw (KrispSDKError UNKNOWN_ERROR "Ping failed")) p1.

(** The timer's callback. *)
Definition ping_on_timeout (p : Ping) : Ping :=
  ping_settle (Throw (KrispSDKError CONNECTION_TIMEOUT "Ping timeout"))
    (MkPing None (ping_promise p)).

(** *** The client's handlers *)

(** The two private fields [connectionChangeHandlers] and
    [eventHandlers]. *)
Record Handlers : Type := MkHandlers {
  connectionChangeHandlers : list EventHandlers.EventHandler;
  eventHandlers : EventHandlers.Table
}.

(** The fields as the constructor leaves them. *)
Definition handlers_created : Handlers := MkHandlers [] EventHandlers.create.

(** [on(event, handler)]: connection changes have a set of their own. *)
Definition on (event : string) (handler : EventHandlers.EventHandler) (r : Handlers)
    : Handlers :=
  if bool_decide (event = EventHandlers.sdk_event CONNECTION_CHANGED)
  then MkHandlers (EventHandlers.set_add handler (connectionChangeHandlers r))
                  (eventHandlers r)
  else MkHandlers (connectionChangeHandlers r)
                  (EventHandlers.on event handler (eventHandlers r)).

(** [off(event, handler?)] *)
Definition off (event : string) (handler : option EventHandlers.EventHandler)
    (r : Handlers) : Handlers :=
  if bool_decide (event = EventHandlers.sdk_event CONNECTION_CHANGED)
  then
    match handler with
    | Some h =>
        MkHandlers (EventHandlers.set_delete h (connectionChangeHandlers r))
                   (eventHandlers r)
    | None => MkHandlers [] (eventHandlers r)
    end
  else MkHandlers (connectionChangeHandlers r)
                  (EventHandlers.off event handler (eventHandlers r)).

(** The two dispatch loops that end [emitConnectionChange]: the dedicated
    handlers, then the handlers of the table. *)
Definition announce (b : EventHandlers.Behaviour)
    (status : ConnectionManager.ConnectionStatus) (r : Handlers)
    : list EventHandlers.Effect :=
  flat_map (EventHandlers.call_handler b "Error in connection change handler:"
              (connection_state status))
           (connectionChangeHandlers r)
  ++ EventHandlers.dispatch b (EventHandlers.sdk_event CONNECTION_CHANGED)
       (connection_state status) (eventHandlers r).

(** *** connect *)

(** [getXState()] as [fetchInitialStates()] calls it, with the connectivity
    check of the call spelled out: connected, the request goes out; not
    connected, the call throws, which the [catch] of the caller swallows. *)
Definition try_get_state (d : Domain) : Prog unit :=
  AskConnected (fun c => if c then FetchAll [d] (Return tt) else Return tt).

Definition fetchInitialStates_checked : Prog unit :=
  prog_bind (try_get_state Devices) (fun _ =>
  prog_bind (try_get_state NoiseCancellation) (fun _ =>
  prog_bind (try_get_state AccentConversion) (fun _ =>
  try_get_state InCall))).

(** [await this.subscribe(topics)], with the connectivity check of the call
    spelled out. *)
Definition subscribe_checked (topics : list string) : Prog unit :=
  AskConnected
    (fun c =>
       if c then await_subscribe topics
       else Raise (KrispSDKError CONNECTION_REFUSED "Not connected to server")).

(** The facade's [connect()], from the point where
    [await this.connectionManager.connect()] has settled with [o]. *)
Definition connect (opts : KrispSDKOptions) (o : Outcome JsError unit) : Prog unit :=
  match o with
  | Throw e => Raise e
  | Ok _ =>
      prog_bind fetchInitialStates_checked (fun _ =>
      if auto_subscribe_enabled opts
      then subscribe_checked (auto_topics opts)
      else Return tt)
  end.

End Sdk.

(** * Vocabulary of the statements

    Shapes, invariants and sample values the statements below speak
    about. *)

Module CacheSpec.
Import Js StateManager.

(** The shapes of the three kinds of snapshot. *)
Definition device_snapshot (i0 t0 i1 t1 : JsValue) : JsValue :=
  JObj [("0", JObj [("physicalDeviceInfo", i0); ("updatedAt", t0)]);
        ("1", JObj [("physicalDeviceInfo", i1); ("updatedAt", t1)])].

Definition toggle_snapshot (e0 : bool) (t0 : JsValue) (e1 : bool) (t1 : JsValue) : JsValue :=
  JObj [("0", JObj [("enabled", JBool e0); ("updatedAt", t0)]);
        ("1", JObj [("enabled", JBool e1); ("updatedAt", t1)])].

Definition in_call_snapshot (c : bool) (t : JsValue) : JsValue :=
  JObj [("inCall", JBool c); ("updatedAt", t)].

(** The values the normalizers return. *)
Inductive Snapshot : Domain -> JsValue -> Prop :=
  | SnapDevices i0 t0 i1 t1 :
      or_else i0 JNull = i0 -> or_else i1 JNull = i1 ->
      Snapshot Devices (device_snapshot i0 t0 i1 t1)
  | SnapNc e0 t0 e1 t1 : Snapshot NoiseCancellation (toggle_snapshot e0 t0 e1 t1)
  | SnapAc e0 t0 e1 t1 : Snapshot AccentConversion (toggle_snapshot e0 t0 e1 t1)
  | SnapInCall c t : Snapshot InCall (in_call_snapshot c t).

(** Every [updatedAt] of the snapshot is truthy, as it is whenever
    [Date.now()] does not read 0. *)
Definition stamped (d : Domain) (snap : JsValue) : bool :=
  match d with
  | InCall => truthy (opt_prop snap "updatedAt")
  | _ =>
      truthy (opt_prop (opt_prop snap "0") "updatedAt")
      && truthy (opt_prop (opt_prop snap "1") "updatedAt")
  end.

(** [n] further calls of [Date.now()]. *)
Definition advance (n : nat) (s : State) : State :=
  MkState (deviceState s) (ncState s) (acState s) (inCallState s)
          (clock s) (n + ticks s).

(** The message of the first validation guard. *)
Definition not_object_message (d : Domain) : string :=
  match d with
  | Devices => "Invalid device state: must be an object"
  | NoiseCancellation => "Invalid NC state: must be an object"
  | AccentConversion => "Invalid AC state: must be an object"
  | InCall => "Invalid in-call state: must be an object"
  end.

(** [Date.now()] never reads 0. *)
Definition never_zero (s : State) : Prop := forall m, clock s m <> 0.

(** The cache with [v] as the snapshot of domain [d]. *)
Definition set_cached (d : Domain) (v : JsValue) (s : State) : State :=
  match d with
  | Devices => set_deviceState v s
  | NoiseCancellation => set_ncState v s
  | AccentConversion => set_acState v s
  | InCall => set_inCallState v s
  end.

(** The cache holds nothing but snapshots. *)
Definition well_cached (s : State) : Prop :=
  forall d v, cached d s = Some v -> Snapshot d v.

(** [v[k1][k2]] *)
Definition field2 (v : JsValue) (k1 k2 : string) : Exc JsValue :=
  match prop v k1 with
  | Ok e => prop e k2
  | Throw err => Throw err
  end.

(** The fields of a snapshot or payload other than [updatedAt]. *)
Definition value_fields (d : Domain) (v : JsValue) : list (Exc JsValue) :=
  match d with
  | Devices => [field2 v "0" "physicalDeviceInfo"; field2 v "1" "physicalDeviceInfo"]
  | NoiseCancellation | AccentConversion => [field2 v "0" "enabled"; field2 v "1" "enabled"]
  | InCall => [prop v "inCall"]
  end.

(** A clock that advances by one millisecond per reading. *)
Definition example_clock (n : nat) : Z := 1700000000000 + Z.of_nat n.

Definition example_microphone : JsValue :=
  JObj [("id", JStr "mic-1"); ("name", JStr "Built-in Microphone")].

(** A device payload without timestamps, and with no speaker. *)
Definition example_device_payload : JsValue :=
  JObj [("0", JObj [("physicalDeviceInfo", example_microphone)]);
        ("1", JObj [("physicalDeviceInfo", JNull)])].

End CacheSpec.

Module SupervisorSpec.
Import Js ConnectionManager.

(** Every configured port fails. *)
Definition all_ports_fail (net : Z -> Transport) : Prop :=
  forall p, In p DEFAULT_PORTS -> net p <> Connects.

(** The error [connectToPort] rejects with when the transport fails. *)
Definition port_error (opts : ConnectionOptions) (t : Transport) : JsError :=
  match t with
  | ConnectError m => connect_error m
  | IoThrows m => PlainError m
  | _ => KrispSDKError CONNECTION_TIMEOUT
           ("Connection timeout after " +:+ number_to_string (timeout_of opts) +:+ "ms")
  end.

(** The failure of a pass over all ports: the error captured at the last
    port if it is one of the SDK's, "not reachable" otherwise. *)
Definition aggregate_failure (opts : ConnectionOptions) (net : Z -> Transport) : JsError :=
  let e := port_error opts (net 50192) in
  if is_sdk_error e then e else not_reachable.

(** The configured limit, if any, has been reached by the attempt counter. *)
Definition limit_reached (opts : ConnectionOptions) (s : State) : bool :=
  match maxReconnectAttempts opts with
  | Some maxAttempts => reconnectAttempts s >=? maxAttempts
  | None => false
  end.

(** The status reported when the limit stops the scheduler. *)
Definition max_attempts_status (opts : ConnectionOptions) : ConnectionStatus :=
  failure_status
    (CONNECTION_REFUSED, max_attempts_message (default 0 (maxReconnectAttempts opts))).

(** The fields a failed attempt at port [p] leaves behind. *)
Definition failed_port (p : Z) (t : Transport) (s : State) : State :=
  MkCM None (Some p) (isConnecting s) (reconnectAttempts s) (reconnectTimer s)
       (currentReconnectDelay s)
       (match t with IoThrows _ => connectionTimeoutTimer s | _ => None end).

(** The listeners on a socket the supervisor has just connected: all its
    own. *)
Definition own_listeners : list (string * Handler) :=
  [("connect", Own); ("connect_error", Own); ("disconnect", Own)]
  ++ map (fun e => (e, Own)) message_events.

(** What the supervisor may do to the socket it holds: keep it, possibly
    marking it disconnected or registering its message handlers again, let
    go of it, or put one it has just connected in its place. *)
Definition socket_kept_or_new (s s' : State) : Prop :=
  socket s' = None
  \/ (exists p, socket s' = Some (MkSocket p true own_listeners))
  \/ (exists sock, socket s = Some sock
        /\ (socket s' = Some sock
            \/ socket s' = Some (MkSocket (sock_port sock) false (sock_listeners sock))
            \/ socket s' = Some (MkSocket (sock_port sock) true
                                   (sock_listeners sock
                                    ++ map (fun e => (e, Own)) message_events)))).

(** The state after a pass in which every port failed. *)
Definition after_ports (net : Z -> Transport) (s : State) : State :=
  failed_port 50192 (net 50192)
    (failed_port 50191 (net 50191) (failed_port 50190 (net 50190) s)).

(** The state [scheduleReconnect] leaves when it arms the timer. *)
Definition armed (s : State) : State :=
  MkCM (socket s) (currentPort s) (isConnecting s) (reconnectAttempts s + 1)
       (Some (currentReconnectDelay s))
       (math_min (currentReconnectDelay s * RECONNECT_BACKOFF_MULTIPLIER)%float
                 MAX_RECONNECT_DELAY)
       (connectionTimeoutTimer s).

(** The status a pass reports when it starts. *)
Definition connecting_status : ConnectionStatus := MkStatus false true None None.

(** The state in which a pass over the ports ends when all of them failed. *)
Definition exhausted (net : Z -> Transport) (s : State) : State :=
  set_isConnecting false (after_ports net (set_isConnecting true s)).

(** No service listens on any port. *)
Definition refusing (p : Z) : Transport := ConnectError "websocket error".

(** The delay the scheduler keeps for the attempt after next. *)
Definition next_delay (d : float) : float :=
  math_min (d * RECONNECT_BACKOFF_MULTIPLIER)%float MAX_RECONNECT_DELAY.

(** The [n]-th delay computed by the code, as a binary64 number. *)
Definition backoff (n : nat) : float := Nat.iter n next_delay DEFAULT_RECONNECT_DELAY.

(** The exact value of a finite binary64 number. *)
Definition float_value (f : float) : option Q :=
  match Prim2SF f with
  | S754_zero _ => Some 0%Q
  | S754_finite sgn m e =>
      Some ((if sgn then -1 else 1) * inject_Z (Z.pos m) * Qpower 2 e)%Q
  | _ => None
  end.

(** The delays as the specification words them: 1000 ms first, then the
    previous one multiplied by 1.5 and capped at 30000 ms, over the
    rationals. *)
Fixpoint spec_delay (n : nat) : Q :=
  match n with
  | O => 1000%Q
  | S k => Qmin (spec_delay k * (3 # 2)) 30000%Q
  end.

(** The state after the first failed pass and [n] further failed passes, each
    started by the reconnect timer. *)
Fixpoint after_failed_cycles (opts : ConnectionOptions) (net : Z -> Transport)
    (n : nat) (s : State) : State :=
  match n with
  | O => final (connect opts net s)
  | S k => final (reconnect_timer_fires opts net (after_failed_cycles opts net k s))
  end.

(** One of the configured ports accepts the connection. *)
Definition some_port_connects (net : Z -> Transport) : Prop :=
  exists p, In p DEFAULT_PORTS /\ net p = Connects.

(** A transport that accepts at every port. *)
Definition accepting (p : Z) : Transport := Connects.

(** A supervisor with the default options, connected at the first port. *)
Definition first_connection : State :=
  final (connect (MkOptions None None None) accepting initial).

(** The same after its socket reported that the transport closed. *)
Definition connection_lost : State :=
  final (socket_disconnected (MkOptions None None None) "transport close" first_connection).

(** The same after that socket connected again by itself. *)
Definition socket_came_back : State := final (socket_reconnected connection_lost).

End SupervisorSpec.

Module ProcessingSpec.
Import Js StateManager Sdk.

(** The cache after a run of server messages, each handed to [onMessage]. *)
Definition after_messages (s : State) (msgs : list (ServerEvent * JsValue)) : State :=
  foldl (fun s' m => final (onMessage (fst m) (snd m) s')) s msgs.

(** The [TypeError] of a property read. *)
Definition is_type_error (e : JsError) : Prop :=
  exists base property, e = TypeError base property.

(** The ERROR event [onMessage] gives the client for a caught exception. *)
Definition processing_error (e : JsError) : Notification :=
  (ERROR, error_data INVALID_MESSAGE ("Failed to process message: " +:+ error_to_string e)).

End ProcessingSpec.

Module RecoverySpec.
Import Js StateManager Sdk.

(** What the facade sees and is asked to do, as far as its two
    reconnection flags go: a status reported by the supervisor, a call of
    [connect()], a call of [disconnect()]. *)
Inductive FlagEvent : Type :=
  | StatusReported (status : ConnectionManager.ConnectionStatus)
  | ConnectCalled
  | DisconnectCalled.

(** What each of them does to the flags. *)
Definition flag_step (f : Flags) (ev : FlagEvent) : Flags :=
  match ev with
  | StatusReported status => fst (emitConnectionChange status f)
  | ConnectCalled => manual_connect_flags f
  | DisconnectCalled => disconnect_flags f
  end.

(** The flags of a new facade after the events. *)
Definition flags_of (evs : list FlagEvent) : Flags :=
  foldl flag_step (MkFlags false false) evs.

(** A status that does not report a connection. *)
Definition reports_loss (ev : FlagEvent) : Prop :=
  exists status, ev = StatusReported status /\ ConnectionManager.connected status = false.

(** The topics the recovery re-subscribes to. *)
Definition recovery_topics (opts : KrispSDKOptions) (subscribed : list string)
    : list string :=
  match subscribed with
  | [] => auto_topics opts
  | _ => subscribed
  end.

(** The settling loop as a function of the environment: its actions, and
    the number of [isConnected()] calls made when it ends. *)
Fixpoint settle_run (env : Env) (polls retries : nat) : list Action * nat :=
  if connectivity env polls then ([Polled true], S polls)
  else match retries with
       | O => ([Polled false], S polls)
       | S r =>
           let '(t, n) := settle_run env (S polls) r in
           (Polled false :: Waited 100 :: t, n)
       end.

(** The actions of the settling loop. *)
Definition is_poll_or_wait (a : Action) : bool :=
  match a with
  | Polled _ | Waited _ => true
  | _ => false
  end.

(** The two lines the recovery may log. *)
Definition resubscribed_message (topics : list string) : string :=
  "Re-subscribed to topics after reconnection: " +:+ join_topics topics.

Definition recovery_failed_message (e : JsError) : string :=
  "Failed to handle reconnection: " +:+ error_to_string e.

(** What follows the four get-state requests. *)
Definition after_fetch (opts : KrispSDKOptions) (subscribed : list string) (env : Env)
    : list Action :=
  if auto_subscribe_enabled opts
  then
    let topics := recovery_topics opts subscribed in
    [Subscribed topics;
     Logged (match subscribe_outcome env topics with
             | Ok _ => resubscribed_message topics
             | Throw e => recovery_failed_message e
             end)]
  else [].

(** The calls of the client among the events: [connect()] and
    [disconnect()]. *)
Definition client_call (ev : FlagEvent) : Prop :=
  ev = ConnectCalled \/ ev = DisconnectCalled.

(** The connection is up at every poll and the server confirms every
    subscription. *)
Definition always_up : Env := MkEnv (fun _ => true) (fun _ => Ok tt).

Definition default_options : KrispSDKOptions :=
  MkSdkOptions (ConnectionManager.MkOptions None None None) None None.

End RecoverySpec.

Module RequestSpec.
Import Js StateManager Sdk.

(** The one-shot listener of the call. *)
Definition our_listener (w : World) : string * ConnectionManager.Handler :=
  (push_name (domain w), ConnectionManager.Client (handler w)).

(** The listener is on the socket the supervisor holds. *)
Definition registered_on_held (w : World) : Prop :=
  exists sock,
    ConnectionManager.socket (cm w) = Some sock
    /\ our_listener w ∈ ConnectionManager.sock_listeners sock.

(** The listener is on some socket, held or let go of. *)
Definition registered (w : World) : Prop :=
  registered_on_held w
  \/ exists sock, sock ∈ dropped w /\ our_listener w ∈ ConnectionManager.sock_listeners sock.

(** The two errors a call rejects with. *)
Definition timeout_error : JsError := KrispSDKError CONNECTION_TIMEOUT "Request timeout".

Definition failed_error (d : Domain) : JsError :=
  KrispSDKError UNKNOWN_ERROR (failed_message d).

(** The three ways a call settles. *)
Definition settlement (d : Domain) (o : Outcome JsError JsValue) : Prop :=
  (exists v, o = Ok v) \/ o = Throw (failed_error d) \/ o = Throw timeout_error.

(** What holds of a call at every moment. *)
Record Inv (d : Domain) (h : nat) (w : World) : Prop := MkInv {
  inv_domain : domain w = d;
  inv_handler : handler w = h;
  inv_pending : promise w = None -> timer w = Some 5000;
  inv_settled : forall o, promise w = Some o ->
                  timer w = None /\ ~ registered_on_held w /\ settlement d o;
  inv_own_event : forall sock name,
                    ConnectionManager.socket (cm w) = Some sock ->
                    (name, ConnectionManager.Client h)
                      ∈ ConnectionManager.sock_listeners sock ->
                    name = push_name d
}.

(** What one step may do to a call: it keeps the invariant, never changes a
    settlement, and leaves the dropped sockets alone. *)
Definition preserved (d : Domain) (h : nat) (w w' : World) : Prop :=
  Inv d h w'
  /\ (forall o, promise w = Some o -> promise w' = Some o)
  /\ dropped w' = dropped w.

(** The listener of the call is a function of its own: no socket has it
    before the call registers it. *)
Definition fresh_handler (h : nat) (cm0 : ConnectionManager.State) : Prop :=
  forall sock name,
    ConnectionManager.socket cm0 = Some sock ->
    (name, ConnectionManager.Client h) ∉ ConnectionManager.sock_listeners sock.

(** The events that cannot make the supervisor let go of its socket. *)
Definition keeps_socket (ev : Event) : bool :=
  match ev with
  | Supervisor (SocketDisconnected _) => true
  | Supervisor SocketReconnected => true
  | Supervisor _ => false
  | _ => true
  end.

(** A supervisor with the default options, connected at the first port,
    and a devices call on it. *)
Definition example_options : ConnectionManager.ConnectionOptions :=
  ConnectionManager.MkOptions None None None.

Definition example_cm : ConnectionManager.State :=
  final (ConnectionManager.connect example_options
           (fun _ => ConnectionManager.Connects) ConnectionManager.initial).

Definition example_call : World :=
  getState example_options Devices 1 (initial CacheSpec.example_clock) example_cm.

(** A device payload with two empty channel entries. *)
Definition bare_payload : JsValue := JObj [("0", JObj []); ("1", JObj [])].

End RequestSpec.

Module HandlerSpec.
Import Js StateManager EventHandlers.

(** A call of [on] or [off]. *)
Inductive TableOp : Type :=
  | OpOn (event : string) (handler : EventHandler)
  | OpOff (event : string) (handler : option EventHandler).

(** The calls as the state manager runs them. *)
Definition apply_op (t : Table) (op : TableOp) : Table :=
  match op with
  | OpOn event handler => on event handler t
  | OpOff event handler => off event handler t
  end.

(** What one call means for the pair of an event and a handler. *)
Definition registers (event : string) (handler : EventHandler) (before : bool)
    (op : TableOp) : bool :=
  match op with
  | OpOn e h => if bool_decide (e = event /\ h = handler) then true else before
  | OpOff e (Some h) => if bool_decide (e = event /\ h = handler) then false else before
  | OpOff e None => if bool_decide (e = event) then false else before
  end.

(** The handler is registered for the event after the calls: the last call
    that concerns the pair is an [on]. *)
Definition registered (ops : list TableOp) (event : string) (handler : EventHandler)
    : bool :=
  foldl (registers event handler) false ops.

(** The handlers a dispatch calls, in order. *)
Definition called (effects : list Effect) : list EventHandler :=
  flat_map (fun x => match x with Called h _ => [h] | ConsoleError _ _ => [] end) effects.

(** The calls as the facade runs them. *)
Definition apply_facade_op (r : Sdk.Handlers) (op : TableOp) : Sdk.Handlers :=
  match op with
  | OpOn event handler => Sdk.on event handler r
  | OpOff event handler => Sdk.off event handler r
  end.

(** The event of a call. *)
Definition op_event (op : TableOp) : string :=
  match op with
  | OpOn event _ => event
  | OpOff event _ => event
  end.

(** The calls that reach the table of the facade: all but those for
    connection changes. *)
Definition for_table (op : TableOp) : bool :=
  bool_decide (op_event op <> sdk_event CONNECTION_CHANGED).

(** A handler that throws a [TypeError] on every call. *)
Definition always_throws : Behaviour := fun _ data => Some (TypeError data "x").

(** What holds of the set kept for [event] after the calls [ops]. *)
Definition tracks (ops : list TableOp) (event : string) (handlers : list EventHandler)
    : Prop :=
  NoDup handlers /\ forall h, h ∈ handlers <-> registered ops event h = true.

End HandlerSpec.

Module PortsSpec.
Import Js ConnectionManager SupervisorSpec.

(** The state a pass ends in when it connects at port [p]: the new socket
    with the supervisor's listeners, the counters reset, and the reconnect
    timer as it was. *)
Definition connected_at (p : Z) (reconnect : option float) : State :=
  MkCM (Some (MkSocket p true own_listeners)) (Some p) false 0 reconnect
       DEFAULT_RECONNECT_DELAY None.

(** The status a pass reports when it connects at port [p]. *)
Definition connected_status (p : Z) : ConnectionStatus := MkStatus true false (Some p) None.

(** The ports split at the first one that connects. *)
Definition first_connects (net : Z -> Transport) (before : list Z) (p : Z) (after : list Z)
    : Prop :=
  DEFAULT_PORTS = before ++ p :: after
  /\ Forall (fun q => net q <> Connects) before
  /\ net p = Connects.

(** The supervisor after a run of calls. *)
Definition after_calls (opts : ConnectionOptions) (calls : list Sdk.SupervisorCall)
    (s : State) : State :=
  foldl (fun s' c => final (Sdk.supervise opts c s')) s calls.

(** What holds of the supervisor between any two calls. *)
Record Settled (opts : ConnectionOptions) (s : State) : Prop := MkSettled {
  settled_connecting : isConnecting s = false;
  settled_timeout : connectionTimeoutTimer s = None;
  settled_attempts : 0 <= reconnectAttempts s;
  settled_limit : forall m, maxReconnectAttempts opts = Some m ->
                    reconnectAttempts s <= Z.max m 0;
  settled_delay : exists n, currentReconnectDelay s = backoff n;
  settled_timer : auto_reconnect_enabled opts = false -> reconnectTimer s = None;
  settled_pending : forall d, reconnectTimer s = Some d -> exists n, d = backoff n;
  settled_port : forall sock, socket s = Some sock ->
                   currentPort s = Some (sock_port sock)
                   /\ In (sock_port sock) DEFAULT_PORTS
}.

(** The events of the socket held, as opposed to calls of the client and
    timers. *)
Definition socket_event (c : Sdk.SupervisorCall) : bool :=
  match c with
  | Sdk.SocketDisconnected _ | Sdk.SocketReconnected => true
  | _ => false
  end.

(** A later [connect] event of the socket held. *)
Definition is_reconnection (c : Sdk.SupervisorCall) : bool :=
  match c with
  | Sdk.SocketReconnected => true
  | _ => false
  end.

(** How often the socket came back by itself. *)
Definition reconnections (calls : list Sdk.SupervisorCall) : nat :=
  length (filter (fun c => is_reconnection c = true) calls).

(** How many of the listeners are the supervisor's own for a server
    message. *)
Definition own_listeners_for (e : StateManager.ServerEvent)
    (listeners : list (string * Handler)) : nat :=
  length (filter (fun l => l = (Sdk.event_name e, Own)) listeners).

(** The substring relation behind [String.prototype.includes]. *)
Definition substring (needle hay : string) : Prop :=
  exists before after, hay = before +:+ needle +:+ after.

(** What can still reach a supervisor after [disconnect()], short of a new
    [connect()]: the callback of a reconnect timer, the disconnect event
    that the socket it has just closed raises, and [disconnect()] again. *)
Definition follows_disconnect (c : Sdk.SupervisorCall) : bool :=
  match c with
  | Sdk.ReconnectTimer _ | Sdk.CallDisconnect => true
  | Sdk.SocketDisconnected reason => bool_decide (reason = "io client disconnect")
  | _ => false
  end.

(** The statuses the supervisor reports over a run of calls. *)
Fixpoint statuses_of (opts : ConnectionOptions) (calls : list Sdk.SupervisorCall)
    (s : State) : list ConnectionStatus :=
  match calls with
  | [] => []
  | c :: rest =>
      trace (Sdk.supervise opts c s)
      ++ statuses_of opts rest (final (Sdk.supervise opts c s))
  end.

(** A transport that accepts at the second port only. *)
Definition second_port_only (p : Z) : Transport :=
  if p =? 50191 then Connects else ConnectError "websocket error".

End PortsSpec.

Module MessagesSpec.
Import Js StateManager Sdk CacheSpec.

(** The property the comparison of a domain reads first on the payload. *)
Definition first_read (d : Domain) : string :=
  match d with
  | InCall => "inCall"
  | _ => "0"
  end.

(** An NC snapshot with both channels off. *)
Definition example_toggles : JsValue :=
  toggle_snapshot false (JNum 1700000000000) false (JNum 1700000000000).

End MessagesSpec.

Module FacadeSpec.
Import Js StateManager Sdk.

(** A request of the facade is answered by its acknowledgement or by the
    expiry of its timer, in any order and any number of times. *)
Inductive RequestEvent : Type :=
  | AckArrives (response : JsValue)
  | TimerExpires.

(** The callbacks of a ping; a timer that was cleared does not fire. *)
Definition ping_step (p : Ping) (ev : RequestEvent) : Ping :=
  match ev with
  | AckArrives response => ping_on_ack response p
  | TimerExpires =>
      match ping_timer p with
      | Some _ => ping_on_timeout p
      | None => p
      end
  end.

(** How the first event settles a ping. *)
Definition ping_outcome (ev : RequestEvent) : Outcome JsError unit :=
  match ev with
  | AckArrives response =>
      if truthy (opt_prop response "success") then Ok tt
      else Throw (KrispSDKError UNKNOWN_ERROR "Ping failed")
  | TimerExpires => Throw (KrispSDKError CONNECTION_TIMEOUT "Ping timeout")
  end.

(** A subscribe or unsubscribe call that the server acknowledges. *)
Inductive TopicCall : Type :=
  | SubscribeCall (topics : list string) (response : JsValue)
  | UnsubscribeCall (topics : list string) (response : JsValue)
  | DisconnectCall.

(** The subscription set after the call and its acknowledgement; a callback
    that throws leaves the set as it was, and [disconnect()] clears it. *)
Definition after_call (subscribed : list string) (c : TopicCall) : list string :=
  match c with
  | SubscribeCall topics response =>
      match sub_on_ack response (subscribe true topics subscribed) with
      | Some s => subscribedTopics s
      | None => subscribed
      end
  | UnsubscribeCall topics response =>
      subscribedTopics (unsub_on_ack response (unsubscribe true topics subscribed))
  | DisconnectCall => []
  end.

(** The topics of the subscribe calls. *)
Definition asked_for (calls : list TopicCall) : list string :=
  flat_map (fun c => match c with SubscribeCall topics _ => topics | _ => [] end) calls.

(** An environment in which [isConnected()] always answers [c]. *)
Definition steady (c : bool) (outcome : list string -> Outcome JsError unit) : Env :=
  MkEnv (fun _ => c) outcome.




End FacadeSpec.

(** * Facts *)

(** ** The state cache: change suppression *)

Module StateCacheFacts.
Import Js StateManager CacheSpec.

Lemma stamped_devices (i0 t0 i1 t1 : JsValue) :
  stamped Devices (device_snapshot i0 t0 i1 t1) = truthy t0 && truthy t1.
Proof. reflexivity. Qed.

Lemma stamped_toggle (d : Domain) (e0 e1 : bool) (t0 t1 : JsValue) :
  d <> InCall ->
  stamped d (toggle_snapshot e0 t0 e1 t1) = truthy t0 && truthy t1.
Proof. destruct d; intros H; try reflexivity. destruct H; reflexivity. Qed.

Lemma stamped_in_call (c : bool) (t : JsValue) :
  stamped InCall (in_call_snapshot c t) = truthy t.
Proof. reflexivity. Qed.

Lemma advance_0 (s : State) : advance 0 s = s.
Proof. destruct s; reflexivity. Qed.

Lemma advance_advance (n m : nat) (s : State) :
  advance n (advance m s) = advance (n + m) s.
Proof. unfold advance; cbn. f_equal. lia. Qed.

Lemma cached_advance (d : Domain) (n : nat) (s : State) :
  cached d (advance n s) = cached d s.
Proof. destruct d; reflexivity. Qed.

(** Unfolds the monad and the state manager's methods, and nothing of the
    JavaScript fragment. *)
Ltac run :=
  cbv beta iota zeta delta
    [update handleMessage pushEvent updateDeviceState updateNcState updateAcState
     updateInCallState changed_or_first validateAndNormalize hasStateChanged
     validateAndNormalizeDeviceState validateAndNormalizeNcState
     validateAndNormalizeAcState validateAndNormalizeInCallState
     hasDeviceStateChanged hasNcStateChanged hasAcStateChanged
     hasInCallStateChanged enabled_differs
     emitInternal mbind eff_bind bind mret eff_ret ret lift throw
     modify get_state notify result final trace app] in *.

Lemma or_now_run (v : JsValue) (s : State) :
  exists t n, or_now v s = MkRun (Ok t) (advance n s) []
    /\ (truthy v = true -> t = v)
    /\ (truthy t = true \/ clock s (ticks s) = 0).
Proof.
  unfold or_now. destruct (truthy v) eqn:E.
  - exists v, 0%nat. rewrite advance_0. auto.
  - exists (JNum (clock s (ticks s))), 1%nat. split; [reflexivity|].
    split; [discriminate|]. cbn. destruct (Z.eqb_spec (clock s (ticks s)) 0); auto.
Qed.

Lemma or_else_idem (v : JsValue) : or_else (or_else v JNull) JNull = or_else v JNull.
Proof. unfold or_else. destruct (truthy v) eqn:E; [rewrite E|]; reflexivity. Qed.

Lemma object_guard (p : JsValue) :
  negb (truthy p) || negb (is_object_type p) = negb (is_object p).
Proof. unfold is_object. destruct (truthy p), (is_object_type p); reflexivity. Qed.

Lemma prop_object (v : JsValue) (k : string) :
  is_object v = true -> exists x, prop v k = Ok x.
Proof. destruct v; cbn; try discriminate; eauto. Qed.

Lemma toggle_entry_run (p : JsValue) (k : string) (s : State) :
  is_object p = true ->
  exists e t n,
    toggle_entry p k s
    = MkRun (Ok (JObj [("enabled", JBool e); ("updatedAt", t)])) (advance n s) []
    /\ (truthy t = true \/ clock s (ticks s) = 0).
Proof.
  intros Hp. destruct (prop_object p k Hp) as [x Hx].
  destruct (or_now_run (opt_prop x "updatedAt") s) as (t & n & Ht & _ & Hs).
  exists (truthy (opt_prop x "enabled")), t, n. split; [|exact Hs].
  unfold toggle_entry. run. rewrite Hx. cbn. rewrite Ht. reflexivity.
Qed.

Lemma device_entry_run (p : JsValue) (k : string) (s : State) :
  exists r n,
    device_entry p k s = MkRun r (advance n s) []
    /\ forall v, r = Ok v ->
         exists i t, v = JObj [("physicalDeviceInfo", i); ("updatedAt", t)]
           /\ or_else i JNull = i
           /\ (truthy t = true \/ clock s (ticks s) = 0).
Proof.
  unfold device_entry. run. destruct (prop p k) as [e|err] eqn:Hp.
  2:{ exists (Throw err), 0%nat. rewrite advance_0. split; [reflexivity|discriminate]. }
  destruct (prop e "physicalDeviceInfo") as [i|err] eqn:Hi.
  2:{ exists (Throw err), 0%nat. rewrite advance_0. split; [reflexivity|discriminate]. }
  destruct (prop e "updatedAt") as [u|err] eqn:Hu.
  2:{ exists (Throw err), 0%nat. rewrite advance_0. split; [reflexivity|discriminate]. }
  destruct (or_now_run u s) as (t & n & Ht & _ & Hs).
  exists (Ok (JObj [("physicalDeviceInfo", or_else i JNull); ("updatedAt", t)])), n.
  rewrite Ht. split; [reflexivity|].
  intros v [= <-]. exists (or_else i JNull), t. split; [reflexivity|].
  split; [apply or_else_idem|exact Hs].
Qed.

Lemma normalize_not_object (d : Domain) (p : JsValue) (s : State) :
  is_object p = false ->
  validateAndNormalize d p s = MkRun (Throw (PlainError (not_object_message d))) s [].
Proof.
  intros Hp. destruct d; run; rewrite object_guard, Hp; reflexivity.
Qed.

Lemma never_zero_advance (n : nat) (s : State) : never_zero s -> never_zero (advance n s).
Proof. intros H m. apply H. Qed.

Lemma normalize_run (d : Domain) (p : JsValue) (s : State) :
  exists r n,
    validateAndNormalize d p s = MkRun r (advance n s) []
    /\ forall snap, r = Ok snap ->
         Snapshot d snap /\ is_object p = true
         /\ (never_zero s -> stamped d snap = true).
Proof.
  destruct (is_object p) eqn:Hp.
  2:{ exists (Throw (PlainError (not_object_message d))), 0%nat.
      rewrite advance_0, normalize_not_object by exact Hp. split; [reflexivity|discriminate]. }
  destruct d.
  - (* devices *)
    run. rewrite object_guard, Hp. cbv beta iota delta [negb].
    destruct (prop_object p "0" Hp) as [s0 H0]. rewrite H0.
    destruct (prop_object p "1" Hp) as [s1 H1]. rewrite H1.
    destruct (is_object_type s0); cbv beta iota delta [negb].
    2:{ eexists _, 0%nat. rewrite advance_0. split; [reflexivity|discriminate]. }
    destruct (is_object_type s1); cbv beta iota delta [negb].
    2:{ eexists _, 0%nat. rewrite advance_0. split; [reflexivity|discriminate]. }
    destruct (device_entry_run p "0" s) as (r0 & n0 & E0 & S0). rewrite E0.
    destruct r0 as [e0|err].
    2:{ eexists _, n0. split; [reflexivity|discriminate]. }
    destruct (device_entry_run p "1" (advance n0 s)) as (r1 & n1 & E1 & S1). rewrite E1.
    destruct r1 as [e1|err].
    2:{ eexists _, (n1 + n0)%nat. rewrite advance_advance. split; [reflexivity|discriminate]. }
    eexists _, (n1 + n0)%nat. rewrite advance_advance. split; [reflexivity|].
    intros snap [= <-].
    destruct (S0 e0 eq_refl) as (i0 & t0 & -> & Hi0 & Ht0).
    destruct (S1 e1 eq_refl) as (i1 & t1 & -> & Hi1 & Ht1).
    split; [apply (SnapDevices i0 t0 i1 t1 Hi0 Hi1)|]. split; [reflexivity|].
    intros Hz. destruct Ht0 as [Ht0|Ht0]; [|destruct (Hz _ Ht0)].
    destruct Ht1 as [Ht1|Ht1]; [|destruct (never_zero_advance n0 s Hz _ Ht1)].
    change (stamped Devices (device_snapshot i0 t0 i1 t1) = true).
    rewrite stamped_devices, Ht0, Ht1. reflexivity.
  - (* noise cancellation *)
    run. rewrite object_guard, Hp. cbv beta iota delta [negb].
    destruct (toggle_entry_run p "0" s Hp) as (e0 & t0 & n0 & E0 & Ht0). rewrite E0.
    destruct (toggle_entry_run p "1" (advance n0 s) Hp) as (e1 & t1 & n1 & E1 & Ht1).
    rewrite E1. eexists _, (n1 + n0)%nat. rewrite advance_advance. split; [reflexivity|].
    intros snap [= <-]. split; [apply SnapNc|]. split; [reflexivity|].
    intros Hz. destruct Ht0 as [Ht0|Ht0]; [|destruct (Hz _ Ht0)].
    destruct Ht1 as [Ht1|Ht1]; [|destruct (never_zero_advance n0 s Hz _ Ht1)].
    match goal with |- stamped ?d _ = _ =>
      change (stamped d (toggle_snapshot e0 t0 e1 t1) = true) end.
    rewrite stamped_toggle, Ht0, Ht1 by discriminate. reflexivity.
  - (* accent conversion *)
    run. rewrite object_guard, Hp. cbv beta iota delta [negb].
    destruct (toggle_entry_run p "0" s Hp) as (e0 & t0 & n0 & E0 & Ht0). rewrite E0.
    destruct (toggle_entry_run p "1" (advance n0 s) Hp) as (e1 & t1 & n1 & E1 & Ht1).
    rewrite E1. eexists _, (n1 + n0)%nat. rewrite advance_advance. split; [reflexivity|].
    intros snap [= <-]. split; [apply SnapAc|]. split; [reflexivity|].
    intros Hz. destruct Ht0 as [Ht0|Ht0]; [|destruct (Hz _ Ht0)].
    destruct Ht1 as [Ht1|Ht1]; [|destruct (never_zero_advance n0 s Hz _ Ht1)].
    match goal with |- stamped ?d _ = _ =>
      change (stamped d (toggle_snapshot e0 t0 e1 t1) = true) end.
    rewrite stamped_toggle, Ht0, Ht1 by discriminate. reflexivity.
  - (* in-call *)
    run. rewrite object_guard, Hp. cbv beta iota delta [negb].
    destruct (prop_object p "inCall" Hp) as [c Hc]. rewrite Hc.
    destruct (prop_object p "updatedAt" Hp) as [u Hu]. rewrite Hu.
    destruct (or_now_run u s) as (t & n & Ht & _ & Hs). rewrite Ht.
    eexists _, n. split; [reflexivity|].
    intros snap [= <-]. split; [apply SnapInCall|]. split; [reflexivity|].
    intros Hz. destruct Hs as [Hs|Hs]; [|destruct (Hz _ Hs)]. exact Hs.
Qed.

(** The comparisons read their two arguments and nothing else. *)
Lemma compare_run (d : Domain) (o q : JsValue) (s : State) :
  exists r, hasStateChanged d o q s = MkRun r s [].
Proof.
  destruct d; run;
    repeat (match goal with
            | |- context [match prop ?a ?k with _ => _ end] => destruct (prop a k)
            | |- context [if ?b then _ else _] => destruct b
            end; cbv beta iota);
    eexists; reflexivity.
Qed.

Lemma cached_set_cached (d : Domain) (v : JsValue) (s : State) :
  cached d (set_cached d v s) = Some v.
Proof. destruct d; reflexivity. Qed.

Lemma clock_set_cached (d : Domain) (v : JsValue) (s : State) :
  clock (set_cached d v s) = clock s.
Proof. destruct d; reflexivity. Qed.

(** [updateXState] in one equation: compare (unless nothing is cached),
    normalize, store, and notify if the comparison said so. *)
Lemma update_run (d : Domain) (q : JsValue) (s : State) (c : Outcome JsError bool)
    (v : Outcome JsError JsValue) (s' : State) :
  changed_or_first (cached d s) (hasStateChanged d) q s = MkRun c s [] ->
  validateAndNormalize d q s = MkRun v s' [] ->
  update d q s =
    match c, v with
    | Throw e, _ => MkRun (Throw e) s []
    | Ok _, Throw e => MkRun (Throw e) s' []
    | Ok b, Ok n =>
        MkRun (Ok tt) (set_cached d n s') (if b then [(changeEvent d, n)] else [])
    end.
Proof.
  intros Hc Hv. destruct d; run; cbv beta iota delta [cached] in Hc;
    rewrite Hc; destruct c as [b|e]; try reflexivity;
    rewrite Hv; destruct v as [n|e]; try reflexivity;
    destruct b; reflexivity.
Qed.

Lemma first_run (d : Domain) (q : JsValue) (s : State) :
  cached d s = None ->
  changed_or_first (cached d s) (hasStateChanged d) q s = MkRun (Ok true) s [].
Proof. intros ->. reflexivity. Qed.

Lemma next_run (d : Domain) (o q : JsValue) (s : State) :
  cached d s = Some o ->
  changed_or_first (cached d s) (hasStateChanged d) q s = hasStateChanged d o q s.
Proof. intros ->. reflexivity. Qed.

Lemma changed_or_first_run (d : Domain) (q : JsValue) (s : State) :
  exists c, changed_or_first (cached d s) (hasStateChanged d) q s = MkRun c s [].
Proof.
  destruct (cached d s) as [o|] eqn:E.
  - apply (compare_run d o q s).
  - exists (Ok true). reflexivity.
Qed.

Lemma prop_here (k : string) (v : JsValue) (rest : list (string * JsValue)) :
  prop (JObj ((k, v) :: rest)) k = Ok v.
Proof. cbn. rewrite bool_decide_eq_true_2 by reflexivity. reflexivity. Qed.

Lemma prop_next (k k' : string) (v : JsValue) (rest : list (string * JsValue)) :
  k <> k' -> prop (JObj ((k', v) :: rest)) k = prop (JObj rest) k.
Proof. intros H. cbn. rewrite bool_decide_eq_false_2 by exact H. reflexivity. Qed.

(** Reads the properties of the literal objects in the goal. *)
Ltac props :=
  unfold device_snapshot, toggle_snapshot, in_call_snapshot, opt_prop;
  repeat (progress (repeat (rewrite prop_here || rewrite prop_next by discriminate);
                    cbn [negb orb truthy is_object_type typeof];
                    cbv beta iota)).

(** A snapshot compared with itself is unchanged. *)
Lemma snapshot_same (d : Domain) (snap : JsValue) (s : State) :
  Snapshot d snap -> hasStateChanged d snap snap s = MkRun (Ok false) s [].
Proof.
  destruct 1; run; props.
  - unfold stringify_neq. rewrite !bool_decide_eq_true_2 by reflexivity. reflexivity.
  - destruct e0, e1; reflexivity.
  - destruct e0, e1; reflexivity.
  - destruct c; reflexivity.
Qed.

(** Normalizing a snapshot succeeds, and gives it back when its timestamps
    are truthy. *)
Lemma renormalize (d : Domain) (snap : JsValue) (s : State) :
  Snapshot d snap ->
  exists snap2 n,
    validateAndNormalize d snap s = MkRun (Ok snap2) (advance n s) []
    /\ (stamped d snap = true -> snap2 = snap).
Proof.
  destruct 1.
  - (* devices *)
    rewrite stamped_devices.
    destruct (or_now_run t0 s) as (u0 & n0 & R0 & K0 & _).
    destruct (or_now_run t1 (advance n0 s)) as (u1 & n1 & R1 & K1 & _).
    exists (device_snapshot i0 u0 i1 u1), (n1 + n0)%nat. split.
    + run. unfold device_entry. run. props.
      rewrite R0. cbv beta iota. props. rewrite R1. cbv beta iota.
      rewrite H, H0, advance_advance. reflexivity.
    + intros [E0 E1]%andb_true_iff. rewrite (K0 E0), (K1 E1). reflexivity.
  - (* noise cancellation *)
    rewrite stamped_toggle by discriminate.
    destruct (or_now_run t0 s) as (u0 & n0 & R0 & K0 & _).
    destruct (or_now_run t1 (advance n0 s)) as (u1 & n1 & R1 & K1 & _).
    exists (toggle_snapshot e0 u0 e1 u1), (n1 + n0)%nat. split.
    + run. unfold toggle_entry. run. props.
      rewrite R0. cbv beta iota. props. rewrite R1. cbv beta iota.
      rewrite advance_advance. destruct e0, e1; reflexivity.
    + intros [E0 E1]%andb_true_iff. rewrite (K0 E0), (K1 E1). reflexivity.
  - (* accent conversion *)
    rewrite stamped_toggle by discriminate.
    destruct (or_now_run t0 s) as (u0 & n0 & R0 & K0 & _).
    destruct (or_now_run t1 (advance n0 s)) as (u1 & n1 & R1 & K1 & _).
    exists (toggle_snapshot e0 u0 e1 u1), (n1 + n0)%nat. split.
    + run. unfold toggle_entry. run. props.
      rewrite R0. cbv beta iota. props. rewrite R1. cbv beta iota.
      rewrite advance_advance. destruct e0, e1; reflexivity.
    + intros [E0 E1]%andb_true_iff. rewrite (K0 E0), (K1 E1). reflexivity.
  - (* in-call *)
    rewrite stamped_in_call.
    destruct (or_now_run t s) as (u & n & R & K & _).
    exists (in_call_snapshot c u), n. split.
    + run. props. rewrite R. cbv beta iota. destruct c; reflexivity.
    + intros E. rewrite (K E). reflexivity.
Qed.

Lemma update_first (d : Domain) (p snap : JsValue) (s : State) :
  cached d s = None ->
  result (validateAndNormalize d p s) = Ok snap ->
  exists n,
    update d p s
    = MkRun (Ok tt) (set_cached d snap (advance n s)) [(changeEvent d, snap)]
    /\ Snapshot d snap /\ (never_zero s -> stamped d snap = true).
Proof.
  intros Hc Hv. destruct (normalize_run d p s) as (r & n & Hr & Hok).
  rewrite Hr in Hv. cbn in Hv. subst r.
  destruct (Hok snap eq_refl) as (Hs & _ & Hz).
  exists n. split; [|split; assumption].
  rewrite (update_run d p s (Ok true) (Ok snap) (advance n s)); [reflexivity| |exact Hr].
  rewrite Hc. reflexivity.
Qed.

Lemma update_same (d : Domain) (snap : JsValue) (s : State) :
  cached d s = Some snap ->
  Snapshot d snap ->
  exists snap2 n,
    update d snap s = MkRun (Ok tt) (set_cached d snap2 (advance n s)) []
    /\ result (validateAndNormalize d snap s) = Ok snap2
    /\ (stamped d snap = true -> snap2 = snap).
Proof.
  intros Hc Hs. destruct (renormalize d snap s Hs) as (snap2 & n & Hr & Hst).
  exists snap2, n. split; [|split; [rewrite Hr; reflexivity|exact Hst]].
  rewrite (update_run d snap s (Ok false) (Ok snap2) (advance n s)); [reflexivity| |exact Hr].
  rewrite Hc. apply (snapshot_same d snap s Hs).
Qed.

Lemma update_ok (d : Domain) (q : JsValue) (s : State) :
  result (update d q s) = Ok tt ->
  exists n,
    result (validateAndNormalize d q s) = Ok n
    /\ cached d (final (update d q s)) = Some n
    /\ (trace (update d q s) = [] \/ trace (update d q s) = [(changeEvent d, n)]).
Proof.
  destruct (changed_or_first_run d q s) as [c Hc].
  destruct (normalize_run d q s) as (v & k & Hv & _).
  rewrite (update_run d q s c v (advance k s) Hc Hv), Hv.
  destruct c as [b|e]; [|discriminate].
  destruct v as [n|e]; [|discriminate].
  intros _. exists n. cbn. rewrite cached_set_cached.
  split; [reflexivity|]. split; [reflexivity|]. destruct b; auto.
Qed.

Lemma cached_set_other (d d' : Domain) (v : JsValue) (s : State) :
  d <> d' -> cached d' (set_cached d v s) = cached d' s.
Proof. destruct d, d'; intros H; try reflexivity; destruct H; reflexivity. Qed.

Lemma update_well_cached (d : Domain) (q : JsValue) (s : State) :
  well_cached s -> well_cached (final (update d q s)).
Proof.
  intros Hs. destruct (changed_or_first_run d q s) as [c Hc].
  destruct (normalize_run d q s) as (v & k & Hv & Hok).
  rewrite (update_run d q s c v (advance k s) Hc Hv).
  destruct c as [b|e]; [destruct v as [n|e]|]; cbn [final].
  - intros d' v' H. destruct (Hok n eq_refl) as (Hn & _).
    destruct (decide (d = d')) as [<-|Hne].
    + rewrite cached_set_cached in H. injection H as <-. exact Hn.
    + rewrite (cached_set_other d d' n _ Hne), cached_advance in H. apply Hs, H.
  - intros d' v' H. rewrite cached_advance in H. apply Hs, H.
  - exact Hs.
Qed.

Lemma handleMessage_well_cached (e : ServerEvent) (data : JsValue) (s : State) :
  well_cached s -> well_cached (final (handleMessage e data s)).
Proof.
  intros Hs. destruct e.
  - apply (update_well_cached Devices data s Hs).
  - apply (update_well_cached NoiseCancellation data s Hs).
  - apply (update_well_cached AccentConversion data s Hs).
  - apply (update_well_cached InCall data s Hs).
  - exact Hs.
  - exact Hs.
Qed.

Lemma initial_well_cached (clk : nat -> Z) : well_cached (initial clk).
Proof. intros d v H. destruct d; discriminate H. Qed.

(** C1.  In each of the four domains, a payload that normalizes to [snap]
    and arrives while nothing is cached is stored as [snap] and raises exactly
    one change notification, carrying [snap]; processing [snap] itself next
    succeeds, raises no notification and stores the normalization of [snap]
    again, which is [snap] whenever [Date.now()] never reads 0; and every
    update that succeeds leaves the normalization of its payload in the
    cache, whether it notified or not. *)
Theorem first_receipt_notifies_once_and_replay_is_silent
    (d : Domain) (p snap : JsValue) (s : State) :
  cached d s = None ->
  result (validateAndNormalize d p s) = Ok snap ->
  let r1 := update d p s in
  let r2 := update d snap (final r1) in
  (result r1 = Ok tt /\ cached d (final r1) = Some snap
   /\ trace r1 = [(changeEvent d, snap)])
  /\ (result r2 = Ok tt /\ trace r2 = []
      /\ (exists snap2,
            result (validateAndNormalize d snap (final r1)) = Ok snap2
            /\ cached d (final r2) = Some snap2)
      /\ (never_zero s -> cached d (final r2) = Some snap))
  /\ (forall q s0,
        result (update d q s0) = Ok tt ->
        exists n,
          result (validateAndNormalize d q s0) = Ok n
          /\ cached d (final (update d q s0)) = Some n
          /\ (trace (update d q s0) = []
              \/ trace (update d q s0) = [(changeEvent d, n)])).
Proof.
  intros Hc Hv r1 r2.
  destruct (update_first d p snap s Hc Hv) as (n & H1 & Hs & Hz).
  assert (Hc1 : cached d (final r1) = Some snap).
  { unfold r1. rewrite H1. cbn. apply cached_set_cached. }
  destruct (update_same d snap (final r1) Hc1 Hs) as (snap2 & n2 & H2 & Hv2 & Hst).
  split; [|split].
  - unfold r1. rewrite H1. cbn. rewrite cached_set_cached. auto.
  - unfold r2. rewrite H2. cbn. rewrite cached_set_cached.
    split; [reflexivity|]. split; [reflexivity|]. split.
    + exists snap2. split; [exact Hv2|reflexivity].
    + intros Hnz. rewrite (Hst (Hz Hnz)). reflexivity.
  - intros q s0. apply update_ok.
Qed.

(** *** Value fields and timestamps *)

Lemma prop_bool_object (q : JsValue) (k : string) (b : bool) :
  prop q k = Ok (JBool b) -> is_object q = true.
Proof.
  destruct q; cbn; try discriminate; try reflexivity.
  destruct (array_index k); [destruct (String.get n s)|]; discriminate.
Qed.

Lemma field2_bool_object (q : JsValue) (k1 k2 : string) (b : bool) :
  field2 q k1 k2 = Ok (JBool b) -> is_object q = true.
Proof.
  unfold field2. destruct (prop q k1) as [e|] eqn:E; [|discriminate]. intros H.
  destruct q; try reflexivity; cbn in E; try discriminate;
    injection E as <-; try discriminate.
  repeat case_match; cbn in H; try discriminate; repeat case_match; discriminate.
Qed.

Lemma field2_inv (q : JsValue) (k1 k2 : string) (x : JsValue) :
  field2 q k1 k2 = Ok x -> exists e, prop q k1 = Ok e /\ prop e k2 = Ok x.
Proof. unfold field2. destruct (prop q k1) as [e|]; [eauto|discriminate]. Qed.

(** Outside the device domain every object normalizes. *)
Lemma normalize_object (d : Domain) (q : JsValue) (s : State) :
  d <> Devices -> is_object q = true ->
  exists n k, validateAndNormalize d q s = MkRun (Ok n) (advance k s) [].
Proof.
  intros Hd Hq. destruct (normalize_run d q s) as (r & k & Hr & _).
  destruct r as [n|e]; [eauto|]. exfalso. revert Hr.
  destruct d; [destruct Hd; reflexivity| | |]; run; rewrite object_guard, Hq;
    cbv beta iota delta [negb].
  - destruct (toggle_entry_run q "0" s Hq) as (e0 & t0 & n0 & -> & _).
    destruct (toggle_entry_run q "1" (advance n0 s) Hq) as (e1 & t1 & n1 & -> & _).
    discriminate.
  - destruct (toggle_entry_run q "0" s Hq) as (e0 & t0 & n0 & -> & _).
    destruct (toggle_entry_run q "1" (advance n0 s) Hq) as (e1 & t1 & n1 & -> & _).
    discriminate.
  - destruct (prop_object q "inCall" Hq) as [c ->].
    destruct (prop_object q "updatedAt" Hq) as [u ->].
    destruct (or_now_run u s) as (t & n & -> & _). discriminate.
Qed.

(** With equal value fields the NC, AC and in-call comparisons say
    "unchanged". *)
Lemma compare_value_fields (d : Domain) (old q : JsValue) (s : State) :
  d <> Devices -> Snapshot d old ->
  value_fields d q = value_fields d old ->
  hasStateChanged d old q s = MkRun (Ok false) s [] /\ is_object q = true.
Proof.
  intros Hd Hs. destruct Hs; [destruct Hd; reflexivity| | |]; cbn [value_fields].
  - change (field2 (toggle_snapshot e0 t0 e1 t1) "0" "enabled") with (Ok (E:=JsError) (JBool e0)).
    change (field2 (toggle_snapshot e0 t0 e1 t1) "1" "enabled") with (Ok (E:=JsError) (JBool e1)).
    intros [= H0 H1]. split; [|exact (field2_bool_object _ _ _ _ H0)].
    apply field2_inv in H0 as (x0 & P0 & Q0). apply field2_inv in H1 as (x1 & P1 & Q1).
    run. props. rewrite P0. cbv beta iota. rewrite Q0. cbv beta iota.
    replace (strict_neq (JBool e0) (JBool e0)) with false by (destruct e0; reflexivity).
    cbv beta iota. props. rewrite P1. cbv beta iota. rewrite Q1. cbv beta iota.
    destruct e1; reflexivity.
  - change (field2 (toggle_snapshot e0 t0 e1 t1) "0" "enabled") with (Ok (E:=JsError) (JBool e0)).
    change (field2 (toggle_snapshot e0 t0 e1 t1) "1" "enabled") with (Ok (E:=JsError) (JBool e1)).
    intros [= H0 H1]. split; [|exact (field2_bool_object _ _ _ _ H0)].
    apply field2_inv in H0 as (x0 & P0 & Q0). apply field2_inv in H1 as (x1 & P1 & Q1).
    run. props. rewrite P0. cbv beta iota. rewrite Q0. cbv beta iota.
    replace (strict_neq (JBool e0) (JBool e0)) with false by (destruct e0; reflexivity).
    cbv beta iota. props. rewrite P1. cbv beta iota. rewrite Q1. cbv beta iota.
    destruct e1; reflexivity.
  - change (prop (in_call_snapshot c t) "inCall") with (Ok (E:=JsError) (JBool c)).
    intros [= H0]. split; [|exact (prop_bool_object _ _ _ H0)].
    run. props. rewrite H0. cbv beta iota. destruct c; reflexivity.
Qed.

(** *** The device comparison covers the timestamps *)

Lemma string_app_length (x y : string) :
  String.length (x +:+ y) = (String.length x + String.length y)%nat.
Proof. induction x as [|c x IH]; [reflexivity|]. simpl. f_equal. exact IH. Qed.

Lemma string_app_inv_tail (x y z : string) : x +:+ z = y +:+ z -> x = y.
Proof.
  revert y. induction x as [|c x IH]; intros [|c' y] H; simpl in H.
  - reflexivity.
  - apply (f_equal String.length) in H. simpl in H.
    rewrite !string_app_length in H. simpl in H. lia.
  - apply (f_equal String.length) in H. simpl in H.
    rewrite !string_app_length in H. simpl in H. lia.
  - injection H as -> H. f_equal. apply IH, H.
Qed.

Lemma snapshot_info_prints (i : JsValue) :
  or_else i JNull = i -> exists si, stringify i = Some si.
Proof.
  unfold or_else. destruct i; cbn; try discriminate; eauto.
Qed.

(** The serialized form of one device entry with a numeric timestamp. *)
Lemma stringify_device_entry (i : JsValue) (si : string) (a : Z) :
  stringify i = Some si ->
  stringify (JObj [("physicalDeviceInfo", i); ("updatedAt", JNum a)])
  = Some ("{" +:+ join_comma [quote "physicalDeviceInfo" +:+ ":" +:+ si;
                               quote "updatedAt" +:+ ":" +:+ pretty a] +:+ "}").
Proof.
  intros Hi. cbn [stringify]. rewrite Hi. reflexivity.
Qed.

Lemma device_entry_differs (i : JsValue) (a b : Z) :
  or_else i JNull = i ->
  stringify_neq (JObj [("physicalDeviceInfo", i); ("updatedAt", JNum a)])
                (JObj [("physicalDeviceInfo", i); ("updatedAt", JNum b)])
  = negb (a =? b).
Proof.
  intros Hi. destruct (snapshot_info_prints i Hi) as [si Hsi].
  unfold stringify_neq. rewrite !(stringify_device_entry i si) by exact Hsi.
  destruct (Z.eqb_spec a b) as [->|Hab].
  - rewrite bool_decide_eq_true_2 by reflexivity. reflexivity.
  - rewrite bool_decide_eq_false_2; [reflexivity|].
    intros [= H]. apply Hab.
    apply string_app_inv_tail in H. cbn [join_comma] in H.
    do 4 apply String.app_inj in H.
    apply (inj pretty), H.
Qed.

Lemma update_devices_timestamps (i0 i1 : JsValue) (a0 a1 b0 b1 : Z) (s : State) :
  or_else i0 JNull = i0 -> or_else i1 JNull = i1 ->
  cached Devices s = Some (device_snapshot i0 (JNum a0) i1 (JNum a1)) ->
  let r := update Devices (device_snapshot i0 (JNum b0) i1 (JNum b1)) s in
  exists n,
    result r = Ok tt
    /\ result (validateAndNormalize Devices (device_snapshot i0 (JNum b0) i1 (JNum b1)) s)
       = Ok n
    /\ cached Devices (final r) = Some n
    /\ trace r = if (a0 =? b0) && (a1 =? b1) then [] else [(DEVICES_CHANGED, n)].
Proof.
  intros H0 H1 Hc r.
  destruct (renormalize Devices (device_snapshot i0 (JNum b0) i1 (JNum b1)) s
              (SnapDevices _ _ _ _ H0 H1)) as (n & k & Hv & _).
  assert (Hcmp : changed_or_first (cached Devices s) (hasStateChanged Devices)
                   (device_snapshot i0 (JNum b0) i1 (JNum b1)) s
                 = MkRun (Ok (negb ((a0 =? b0) && (a1 =? b1)))) s []).
  { rewrite Hc. run. props. rewrite !device_entry_differs by assumption.
    destruct (a0 =? b0); cbv beta iota; [|reflexivity].
    props. destruct (a1 =? b1); reflexivity. }
  exists n. unfold r. rewrite (update_run _ _ _ _ _ _ Hcmp Hv), Hv. cbn.
  split; [reflexivity|]. split; [reflexivity|]. split; [reflexivity|].
  destruct ((a0 =? b0) && (a1 =? b1)); reflexivity.
Qed.

Lemma update_value_fields (d : Domain) (old q : JsValue) (s : State) :
  d <> Devices ->
  cached d s = Some old -> Snapshot d old ->
  value_fields d q = value_fields d old ->
  let r := update d q s in
  exists n,
    result r = Ok tt
    /\ result (validateAndNormalize d q s) = Ok n
    /\ cached d (final r) = Some n
    /\ trace r = [].
Proof.
  intros Hd Hc Hs Hf r.
  destruct (compare_value_fields d old q s Hd Hs Hf) as [Hcmp Hq].
  destruct (normalize_object d q s Hd Hq) as (n & k & Hv).
  exists n. unfold r.
  rewrite (update_run d q s (Ok false) (Ok n) (advance k s)), Hv;
    [|rewrite Hc; exact Hcmp|exact Hv].
  cbn. rewrite cached_set_cached. auto.
Qed.

(** C2, as amended.  For noise cancellation, accent conversion and in-call,
    a payload whose value fields equal those of the cached snapshot is stored
    (normalized) without any notification, whatever its timestamps.  For
    devices the comparison serializes each whole channel entry, [updatedAt]
    included: a payload that differs from the cached snapshot in nothing but
    its numeric timestamps is stored and does raise the change notification,
    unless both timestamps are the same as well. *)
Theorem timestamps_alone_notify_for_devices_only :
  (forall (d : Domain) (old q : JsValue) (s : State),
      d <> Devices ->
      cached d s = Some old -> Snapshot d old ->
      value_fields d q = value_fields d old ->
      exists n,
        result (update d q s) = Ok tt
        /\ result (validateAndNormalize d q s) = Ok n
        /\ cached d (final (update d q s)) = Some n
        /\ trace (update d q s) = [])
  /\ (forall (i0 i1 : JsValue) (a0 a1 b0 b1 : Z) (s : State),
        Snapshot Devices (device_snapshot i0 (JNum a0) i1 (JNum a1)) ->
        cached Devices s = Some (device_snapshot i0 (JNum a0) i1 (JNum a1)) ->
        let q := device_snapshot i0 (JNum b0) i1 (JNum b1) in
        value_fields Devices q
        = value_fields Devices (device_snapshot i0 (JNum a0) i1 (JNum a1))
        /\ exists n,
            result (update Devices q s) = Ok tt
            /\ result (validateAndNormalize Devices q s) = Ok n
            /\ cached Devices (final (update Devices q s)) = Some n
            /\ trace (update Devices q s)
               = if (a0 =? b0) && (a1 =? b1) then [] else [(DEVICES_CHANGED, n)]).
Proof.
  split.
  - intros d old q s Hd Hc Hs Hf. exact (update_value_fields d old q s Hd Hc Hs Hf).
  - intros i0 i1 a0 a1 b0 b1 s Hs Hc q. split; [reflexivity|].
    inversion Hs as [j0 u0 j1 u1 H0 H1| | |]; subst.
    exact (update_devices_timestamps i0 i1 a0 a1 b0 b1 s H0 H1 Hc).
Qed.

(** *** Concrete runs *)

Lemma first_receipt_witness :
  let s := initial example_clock in
  let snap :=
    device_snapshot example_microphone (JNum 1700000000000) JNull (JNum 1700000000001) in
  cached Devices s = None
  /\ result (validateAndNormalize Devices example_device_payload s) = Ok snap
  /\ trace (update Devices example_device_payload s) = [(DEVICES_CHANGED, snap)]
  /\ trace (update Devices snap (final (update Devices example_device_payload s))) = []
  /\ cached Devices
       (final (update Devices snap (final (update Devices example_device_payload s))))
     = Some snap.
Proof.
  intros s snap.
  assert (Hc : cached Devices s = None) by reflexivity.
  assert (Hv : result (validateAndNormalize Devices example_device_payload s) = Ok snap)
    by (vm_compute; reflexivity).
  destruct (first_receipt_notifies_once_and_replay_is_silent
              Devices example_device_payload snap s Hc Hv)
    as ((_ & _ & H1) & (_ & H2 & _ & H3) & _).
  split; [exact Hc|]. split; [exact Hv|]. split; [exact H1|]. split; [exact H2|].
  apply H3. intros m. unfold s, initial, clock, example_clock. lia.
Defined.

(** C2 as stated fails for devices: the cached snapshot and the payload
    agree on both [physicalDeviceInfo] fields and differ in [updatedAt] only,
    and the update raises the change notification. *)
Lemma devices_timestamp_change_notifies :
  let old := device_snapshot example_microphone (JNum 1700000000000) JNull (JNum 1700000000000) in
  let q := device_snapshot example_microphone (JNum 1700000005000) JNull (JNum 1700000005000) in
  let s := set_cached Devices old (initial example_clock) in
  cached Devices s = Some old
  /\ Snapshot Devices old
  /\ value_fields Devices q = value_fields Devices old
  /\ result (update Devices q s) = Ok tt
  /\ trace (update Devices q s) = [(DEVICES_CHANGED, q)]
  /\ trace (update Devices q s) <> [].
Proof.
  intros old q s.
  split; [reflexivity|]. split; [apply SnapDevices; reflexivity|].
  split; [reflexivity|].
  assert (Ht : trace (update Devices q s) = [(DEVICES_CHANGED, q)])
    by (vm_compute; reflexivity).
  split; [vm_compute; reflexivity|]. split; [exact Ht|]. rewrite Ht. discriminate.
Qed.

Lemma timestamps_alone_witness :
  let old := toggle_snapshot true (JNum 1700000000000) false (JNum 1700000000000) in
  let q := JObj [("0", JObj [("enabled", JBool true); ("updatedAt", JNum 1700000005000)]);
                 ("1", JObj [("enabled", JBool false)])] in
  let s := set_cached NoiseCancellation old (initial example_clock) in
  let dold := device_snapshot example_microphone (JNum 1700000000000) JNull (JNum 1700000000000) in
  let ds := set_cached Devices dold (initial example_clock) in
  (NoiseCancellation <> Devices
   /\ cached NoiseCancellation s = Some old
   /\ Snapshot NoiseCancellation old
   /\ value_fields NoiseCancellation q = value_fields NoiseCancellation old
   /\ trace (update NoiseCancellation q s) = [])
  /\ (Snapshot Devices dold
      /\ cached Devices ds = Some dold
      /\ exists n,
          trace (update Devices
                   (device_snapshot example_microphone (JNum 1700000005000)
                                    JNull (JNum 1700000000000)) ds)
          = [(DEVICES_CHANGED, n)]).
Proof.
  intros old q s dold ds. split.
  - assert (Hd : NoiseCancellation <> Devices) by discriminate.
    assert (Hc : cached NoiseCancellation s = Some old) by reflexivity.
    assert (Hs : Snapshot NoiseCancellation old) by apply SnapNc.
    assert (Hf : value_fields NoiseCancellation q = value_fields NoiseCancellation old)
      by reflexivity.
    destruct (proj1 timestamps_alone_notify_for_devices_only
                NoiseCancellation old q s Hd Hc Hs Hf) as (n & _ & _ & _ & Ht).
    repeat (split; [assumption|]). exact Ht.
  - assert (Hs : Snapshot Devices dold) by (apply SnapDevices; reflexivity).
    assert (Hc : cached Devices ds = Some dold) by reflexivity.
    destruct (proj2 timestamps_alone_notify_for_devices_only
                example_microphone JNull 1700000000000 1700000000000
                1700000005000 1700000000000 ds Hs Hc) as (_ & n & _ & _ & _ & Ht).
    split; [exact Hs|]. split; [exact Hc|]. exists n. exact Ht.
Defined.

End StateCacheFacts.

(** ** The connection supervisor: failure, backoff and the attempt limit *)

Module SupervisorFacts.
Import Js ConnectionManager SupervisorSpec.

Ltac crun :=
  cbv beta iota zeta delta
    [connect reconnect_timer_fires try_ports connectToPort scheduleReconnect
     arm_reconnect disconnect clearReconnectTimer clearConnectionTimeout
     setupMessageHandlers onConnectionChange try_catch
     mbind eff_bind bind mret eff_ret ret lift throw modify get_state notify
     result final trace app] in *.

Lemma failed_attempt (opts : ConnectionOptions) (net : Z -> Transport) (p : Z) (s : State) :
  net p <> Connects ->
  attempt_port opts net p s
  = MkRun (Ok (Some (port_error opts (net p)))) (failed_port p (net p) s) [].
Proof.
  intros H. unfold attempt_port. crun.
  destruct (net p); [destruct H; reflexivity| | |]; reflexivity.
Qed.

Lemma connected_attempt (opts : ConnectionOptions) (net : Z -> Transport) (p : Z) (s : State) :
  net p = Connects ->
  exists s',
    attempt_port opts net p s
    = MkRun (Ok None) s' [MkStatus true false (Some p) None]
    /\ isConnected s' = true /\ isConnecting s' = false
    /\ reconnectAttempts s' = 0
    /\ currentReconnectDelay s' = DEFAULT_RECONNECT_DELAY
    /\ reconnectTimer s' = reconnectTimer s.
Proof.
  intros H. unfold attempt_port. crun. rewrite H. cbv beta iota.
  eexists. split; [reflexivity|]. repeat split.
Qed.

Lemma all_ports_failed (opts : ConnectionOptions) (net : Z -> Transport) (s : State) :
  all_ports_fail net ->
  try_ports opts net DEFAULT_PORTS None s
  = MkRun (Ok (Some (Some (port_error opts (net 50192))))) (after_ports net s) [].
Proof.
  intros H. unfold DEFAULT_PORTS. cbn [try_ports].
  cbv beta iota delta [mbind eff_bind bind].
  rewrite (failed_attempt opts net 50190) by (apply H; cbn; auto).
  cbv beta iota.
  rewrite (failed_attempt opts net 50191) by (apply H; cbn; auto).
  cbv beta iota.
  rewrite (failed_attempt opts net 50192) by (apply H; cbn; auto).
  reflexivity.
Qed.

Lemma scheduleReconnect_run (opts : ConnectionOptions) (s : State) :
  scheduleReconnect opts s
  = if limit_reached opts s
    then MkRun (Ok tt) (set_reconnectTimer None s) [max_attempts_status opts]
    else MkRun (Ok tt) (armed s) [].
Proof.
  unfold limit_reached, max_attempts_status. crun.
  destruct (maxReconnectAttempts opts) as [m|]; [|reflexivity].
  cbn [reconnectAttempts set_reconnectTimer].
  destruct (reconnectAttempts s >=? m); reflexivity.
Qed.

Lemma aggregate_failure_sdk (opts : ConnectionOptions) (net : Z -> Transport) :
  is_sdk_error (aggregate_failure opts net) = true.
Proof.
  unfold aggregate_failure.
  destruct (is_sdk_error (port_error opts (net 50192))) eqn:E; [exact E|reflexivity].
Qed.

Lemma connect_all_fail (opts : ConnectionOptions) (net : Z -> Transport) (s : State) :
  isConnected s = false -> isConnecting s = false -> all_ports_fail net ->
  connect opts net s
  = let failure := aggregate_failure opts net in
    if auto_reconnect_enabled opts
    then
      if limit_reached opts s
      then MkRun (Ok tt) (set_reconnectTimer None (exhausted net s))
             [connecting_status; status_of_error failure; max_attempts_status opts]
      else MkRun (Ok tt) (armed (exhausted net s))
             [connecting_status; status_of_error failure]
    else MkRun (Throw failure) (exhausted net s)
           [connecting_status; status_of_error failure; status_of_error failure].
Proof.
  intros Hc Hi Hall.
  pose proof (all_ports_failed opts net (set_isConnecting true s) Hall) as Hp.
  pose proof (scheduleReconnect_run opts (exhausted net s)) as Hs.
  pose proof (aggregate_failure_sdk opts net) as Hsdk.
  unfold connect.
  cbv beta iota zeta delta
    [try_catch mbind eff_bind bind mret eff_ret ret lift throw modify get_state notify
     onConnectionChange].
  rewrite Hc, Hi. cbv beta iota. rewrite Hp. cbv beta iota.
  fold (aggregate_failure opts net). fold (exhausted net s).
  change (match port_error opts (net 50192) with
          | KrispSDKError _ _ => _ | _ => _ end) with (aggregate_failure opts net).
  destruct (auto_reconnect_enabled opts); cbv beta iota.
  - rewrite Hs. change (limit_reached opts (exhausted net s)) with (limit_reached opts s).
    destruct (limit_reached opts s); reflexivity.
  - rewrite Hsdk. reflexivity.
Qed.

Lemma exhausted_fields (net : Z -> Transport) (s : State) :
  isConnected (exhausted net s) = false
  /\ isConnecting (exhausted net s) = false
  /\ reconnectAttempts (exhausted net s) = reconnectAttempts s
  /\ reconnectTimer (exhausted net s) = reconnectTimer s
  /\ currentReconnectDelay (exhausted net s) = currentReconnectDelay s.
Proof. repeat split. Qed.

(** C3, as amended.  When a pass of [connect()] finds every port failing,
    the failure is the SDK error captured at the last port, or
    KRISP_NOT_REACHABLE when that error is not one of the SDK's; it is
    reported as a status.  With auto-reconnect disabled [connect()] rejects
    with that failure and touches neither the reconnect timer nor the
    counters.  With auto-reconnect enabled [connect()] does not reject and
    hands over to the scheduler, which arms the timer with the current delay
    and counts the attempt, unless the configured limit has been reached:
    then it reports the max-attempts status and arms nothing.  A rejection
    never comes with a timer armed by the same pass. *)
Theorem exhausted_ports_reject_or_schedule
    (opts : ConnectionOptions) (net : Z -> Transport) (s : State) :
  isConnected s = false -> isConnecting s = false -> all_ports_fail net ->
  let r := connect opts net s in
  let failure := aggregate_failure opts net in
  (match net 50192 with
   | IoThrows _ => failure = not_reachable
   | t => failure = port_error opts t
   end)
  /\ (exists rest, trace r = connecting_status :: status_of_error failure :: rest)
  /\ (auto_reconnect_enabled opts = false ->
        result r = Throw failure
        /\ reconnectTimer (final r) = reconnectTimer s
        /\ reconnectAttempts (final r) = reconnectAttempts s
        /\ currentReconnectDelay (final r) = currentReconnectDelay s)
  /\ (auto_reconnect_enabled opts = true ->
        result r = Ok tt
        /\ (limit_reached opts s = false ->
              reconnectTimer (final r) = Some (currentReconnectDelay s)
              /\ reconnectAttempts (final r) = reconnectAttempts s + 1)
        /\ (limit_reached opts s = true ->
              reconnectTimer (final r) = None
              /\ reconnectAttempts (final r) = reconnectAttempts s
              /\ last (trace r) = Some (max_attempts_status opts)))
  /\ ((exists e, result r = Throw e) ->
        reconnectTimer (final r) = reconnectTimer s
        /\ reconnectAttempts (final r) = reconnectAttempts s).
Proof.
  intros Hc Hi Hall r failure. unfold r.
  rewrite (connect_all_fail opts net s Hc Hi Hall). cbv zeta. fold failure.
  split.
  { unfold failure, aggregate_failure.
    destruct (net 50192) as [|m| |m]; try reflexivity.
    unfold port_error, connect_error.
    destruct (includes _ m || includes _ m); reflexivity. }
  destruct (auto_reconnect_enabled opts); [destruct (limit_reached opts s)|];
    cbn [result final trace].
  all: split; [eexists; reflexivity|].
  all: repeat (first [ intros [e [=]] | intros [=] | split | reflexivity ]).
Qed.

Lemma refusing_fails : all_ports_fail refusing.
Proof. intros p _. discriminate. Qed.

Lemma exhausted_ports_witness :
  let opts := MkOptions None (Some false) None in
  isConnected initial = false /\ isConnecting initial = false /\ all_ports_fail refusing
  /\ result (connect opts refusing initial)
     = Throw (KrispSDKError CONNECTION_REFUSED "Connection refused: websocket error")
  /\ reconnectTimer (final (connect opts refusing initial)) = None.
Proof.
  intros opts.
  destruct (exhausted_ports_reject_or_schedule opts refusing initial
              eq_refl eq_refl refusing_fails) as (_ & _ & H & _).
  destruct (H eq_refl) as (Hr & Ht & _).
  split; [reflexivity|]. split; [reflexivity|]. split; [exact refusing_fails|].
  split; [exact Hr|exact Ht].
Defined.

(** C3 as stated fails when the attempt limit is already reached: with
    auto-reconnect enabled and a limit of 0, the pass does not reject, and no
    reconnection attempt is scheduled either. *)
Lemma enabled_but_nothing_scheduled :
  let opts := MkOptions None (Some true) (Some 0) in
  let r := connect opts refusing initial in
  auto_reconnect_enabled opts = true
  /\ all_ports_fail refusing
  /\ result r = Ok tt
  /\ reconnectTimer (final r) = None
  /\ reconnectAttempts (final r) = 0.
Proof.
  intros opts r. split; [reflexivity|]. split; [exact refusing_fails|].
  unfold r. rewrite (connect_all_fail opts refusing initial eq_refl eq_refl refusing_fails).
  repeat split.
Qed.

(** *** Backoff *)

Lemma timer_fires_all_fail (opts : ConnectionOptions) (net : Z -> Transport) (s : State)
    (d : float) :
  reconnectTimer s = Some d ->
  isConnected s = false -> isConnecting s = false -> all_ports_fail net ->
  auto_reconnect_enabled opts = true ->
  reconnect_timer_fires opts net s
  = if limit_reached opts s
    then MkRun (Ok tt) (set_reconnectTimer None (exhausted net s))
           [connecting_status; status_of_error (aggregate_failure opts net);
            max_attempts_status opts]
    else MkRun (Ok tt) (armed (exhausted net s))
           [connecting_status; status_of_error (aggregate_failure opts net)].
Proof.
  intros Ht Hc Hi Hall Ha.
  pose proof (connect_all_fail opts net (set_reconnectTimer None s) Hc Hi Hall) as H.
  rewrite Ha in H. cbv zeta in H.
  change (limit_reached opts (set_reconnectTimer None s)) with (limit_reached opts s) in H.
  unfold reconnect_timer_fires.
  cbv beta iota zeta delta
    [try_catch mbind eff_bind bind mret eff_ret ret modify get_state].
  rewrite Ht. cbv beta iota. rewrite H.
  destruct (limit_reached opts s); reflexivity.
Qed.

Lemma backoff_S (n : nat) : backoff (S n) = next_delay (backoff n).
Proof. reflexivity. Qed.

(** While the limit allows, the state after [n] further failed passes has
    the [n]-th delay on the timer and the next one in store. *)
Lemma failed_cycles_state (opts : ConnectionOptions) (net : Z -> Transport) (s : State)
    (n : nat) :
  isConnected s = false -> isConnecting s = false ->
  reconnectAttempts s = 0 -> currentReconnectDelay s = DEFAULT_RECONNECT_DELAY ->
  all_ports_fail net -> auto_reconnect_enabled opts = true ->
  (forall m, maxReconnectAttempts opts = Some m -> Z.of_nat n < m) ->
  let s' := after_failed_cycles opts net n s in
  isConnected s' = false /\ isConnecting s' = false
  /\ reconnectAttempts s' = Z.of_nat n + 1
  /\ reconnectTimer s' = Some (backoff n)
  /\ currentReconnectDelay s' = backoff (S n).
Proof.
  intros Hc Hi Hn Hd Hall Ha. induction n as [|n IH]; intros Hm s'.
  - unfold s'. cbn [after_failed_cycles].
    rewrite (connect_all_fail opts net s Hc Hi Hall), Ha. cbv zeta.
    assert (Hl : limit_reached opts s = false).
    { unfold limit_reached. destruct (maxReconnectAttempts opts) as [m|] eqn:E; [|reflexivity].
      specialize (Hm m eq_refl). rewrite Hn. lia. }
    rewrite Hl. cbn [final]. unfold armed. cbn.
    rewrite Hn, Hd. repeat split.
  - assert (Hm' : forall m, maxReconnectAttempts opts = Some m -> Z.of_nat n < m).
    { intros m E. specialize (Hm m E). lia. }
    destruct (IH Hm') as (Hc' & Hi' & Hn' & Ht' & Hd').
    unfold s'. cbn [after_failed_cycles].
    set (t := after_failed_cycles opts net n s) in *.
    rewrite (timer_fires_all_fail opts net t (backoff n) Ht' Hc' Hi' Hall Ha).
    assert (Hl : limit_reached opts t = false).
    { unfold limit_reached. destruct (maxReconnectAttempts opts) as [m|] eqn:E; [|reflexivity].
      specialize (Hm m eq_refl). rewrite Hn'. lia. }
    rewrite Hl. cbn [final]. unfold armed. cbn.
    rewrite Hn', Hd'. repeat split. lia.
Qed.

Lemma backoff_first_values :
  map backoff (seq 0 11)
  = [1000; 1500; 2250; 3375; 5062.5; 7593.75; 11390.625; 17085.9375;
     25628.90625; 30000; 30000]%float.
Proof. vm_compute. reflexivity. Qed.

Lemma backoff_capped (n : nat) : (9 <= n)%nat -> backoff n = MAX_RECONNECT_DELAY.
Proof.
  induction 1 as [|n _ IH].
  - vm_compute. reflexivity.
  - rewrite backoff_S, IH. vm_compute. reflexivity.
Qed.

Lemma spec_delay_capped (n : nat) : (9 <= n)%nat -> (spec_delay n == 30000)%Q.
Proof.
  induction 1 as [|n _ IH].
  - vm_compute. reflexivity.
  - cbn [spec_delay]. rewrite IH. vm_compute. reflexivity.
Qed.

(** The binary64 computation is exact: the code's delays are the
    specification's. *)
Lemma backoff_exact (n : nat) :
  exists q, float_value (backoff n) = Some q /\ (q == spec_delay n)%Q.
Proof.
  destruct (le_lt_dec 9 n) as [H|H].
  - rewrite (backoff_capped n H). eexists. split; [vm_compute; reflexivity|].
    rewrite (spec_delay_capped n H). vm_compute. reflexivity.
  - do 9 (destruct n as [|n];
          [eexists; split; [vm_compute; reflexivity|vm_compute; reflexivity]|]).
    lia.
Qed.

(** *** Success resets the counters *)

Lemma try_ports_connects (opts : ConnectionOptions) (net : Z -> Transport)
    (ports : list Z) (lastError : option JsError) (s : State) :
  (exists p, In p ports /\ net p = Connects) ->
  exists s' p,
    try_ports opts net ports lastError s
    = MkRun (Ok None) s' [MkStatus true false (Some p) None]
    /\ In p ports /\ net p = Connects
    /\ isConnected s' = true /\ isConnecting s' = false
    /\ reconnectAttempts s' = 0
    /\ currentReconnectDelay s' = DEFAULT_RECONNECT_DELAY
    /\ reconnectTimer s' = reconnectTimer s.
Proof.
  revert lastError s. induction ports as [|p rest IH]; intros lastError s [q [Hin Hq]].
  - destruct Hin.
  - cbn [try_ports]. cbv beta iota delta [mbind eff_bind bind].
    destruct (net p) eqn:E.
    + destruct (connected_attempt opts net p s E) as (s' & H & F).
      rewrite H. exists s', p. split; [reflexivity|]. split; [left; reflexivity|].
      split; [exact E|exact F].
    + rewrite (failed_attempt opts net p s) by (rewrite E; discriminate).
      cbv beta iota. destruct Hin as [->|Hin]; [rewrite E in Hq; discriminate|].
      destruct (IH (Some (port_error opts (net p))) (failed_port p (net p) s))
        as (s' & p' & H & Hin' & Hp' & F); [exists q; auto|].
      rewrite H. exists s', p'. split; [reflexivity|]. split; [right; exact Hin'|].
      split; [exact Hp'|exact F].
    + rewrite (failed_attempt opts net p s) by (rewrite E; discriminate).
      cbv beta iota. destruct Hin as [->|Hin]; [rewrite E in Hq; discriminate|].
      destruct (IH (Some (port_error opts (net p))) (failed_port p (net p) s))
        as (s' & p' & H & Hin' & Hp' & F); [exists q; auto|].
      rewrite H. exists s', p'. split; [reflexivity|]. split; [right; exact Hin'|].
      split; [exact Hp'|exact F].
    + rewrite (failed_attempt opts net p s) by (rewrite E; discriminate).
      cbv beta iota. destruct Hin as [->|Hin]; [rewrite E in Hq; discriminate|].
      destruct (IH (Some (port_error opts (net p))) (failed_port p (net p) s))
        as (s' & p' & H & Hin' & Hp' & F); [exists q; auto|].
      rewrite H. exists s', p'. split; [reflexivity|]. split; [right; exact Hin'|].
      split; [exact Hp'|exact F].
Qed.

Lemma connect_succeeds (opts : ConnectionOptions) (net : Z -> Transport) (s : State) :
  isConnected s = false -> isConnecting s = false -> some_port_connects net ->
  let r := connect opts net s in
  result r = Ok tt
  /\ isConnected (final r) = true
  /\ isConnecting (final r) = false
  /\ reconnectAttempts (final r) = 0
  /\ currentReconnectDelay (final r) = DEFAULT_RECONNECT_DELAY
  /\ (exists p, In p DEFAULT_PORTS /\ net p = Connects
        /\ trace r = [connecting_status; MkStatus true false (Some p) None]).
Proof.
  intros Hc Hi Hs r.
  destruct (try_ports_connects opts net DEFAULT_PORTS None (set_isConnecting true s) Hs)
    as (s' & p & H & Hin & Hp & F1 & F2 & F3 & F4 & _).
  unfold r, connect.
  cbv beta iota zeta delta
    [try_catch mbind eff_bind bind mret eff_ret ret lift throw modify get_state notify
     onConnectionChange].
  rewrite Hc, Hi. cbv beta iota. rewrite H. cbn [result final trace].
  repeat (split; [assumption || reflexivity|]).
  exists p. repeat split; assumption.
Qed.

(** *** The socket across the supervisor's operations *)

Lemma attempt_port_socket (opts : ConnectionOptions) (net : Z -> Transport) (p : Z)
    (s : State) :
  let s' := final (attempt_port opts net p s) in
  socket s' = None \/ socket s' = Some (MkSocket p true own_listeners).
Proof.
  unfold attempt_port. crun. destruct (net p); cbn; auto.
Qed.

Lemma try_ports_socket (opts : ConnectionOptions) (net : Z -> Transport)
    (ports : list Z) (lastError : option JsError) (s : State) :
  let s' := final (try_ports opts net ports lastError s) in
  (ports = [] /\ s' = s)
  \/ socket s' = None
  \/ exists p, socket s' = Some (MkSocket p true own_listeners).
Proof.
  revert lastError s. induction ports as [|p rest IH]; intros lastError s; [left; auto|].
  right. cbn [try_ports]. cbv beta iota zeta delta [mbind eff_bind bind].
  pose proof (attempt_port_socket opts net p s) as H.
  destruct (attempt_port opts net p s) as [[[err|]|e] s1 t1]; cbn [final] in H.
  - specialize (IH (Some err) s1).
    destruct (try_ports opts net rest (Some err) s1) as [r s2 t2]. cbn [final] in *.
    destruct IH as [[-> ->]|[IH|IH]]; [|auto|auto].
    destruct H as [H|H]; [auto|right; eauto].
  - cbn. destruct H as [H|H]; [auto|right; eauto].
  - cbn. destruct H as [H|H]; [auto|right; eauto].
Qed.

Lemma scheduleReconnect_socket (opts : ConnectionOptions) (s : State) :
  socket (final (scheduleReconnect opts s)) = socket s.
Proof.
  rewrite scheduleReconnect_run. destruct (limit_reached opts s); reflexivity.
Qed.

Lemma connect_socket (opts : ConnectionOptions) (net : Z -> Transport) (s : State) :
  let s' := final (connect opts net s) in
  socket s' = socket s
  \/ socket s' = None
  \/ exists p, socket s' = Some (MkSocket p true own_listeners).
Proof.
  unfold connect.
  cbv beta iota zeta delta
    [try_catch mbind eff_bind bind mret eff_ret ret lift throw modify get_state notify
     onConnectionChange].
  destruct (isConnected s); [left; reflexivity|].
  destruct (isConnecting s); [left; reflexivity|].
  right.
  pose proof (try_ports_socket opts net DEFAULT_PORTS None (set_isConnecting true s)) as H.
  destruct (try_ports opts net DEFAULT_PORTS None (set_isConnecting true s))
    as [[[lastError|]|e] s1 t1]; cbn [final] in H;
    destruct H as [[[=] _]|H].
  - destruct (auto_reconnect_enabled opts) eqn:Ea; [|rewrite ?Ea; exact H].
    rewrite scheduleReconnect_run.
    destruct (limit_reached opts (set_isConnecting false s1)); exact H.
  - exact H.
  - destruct (auto_reconnect_enabled opts); [|exact H].
    rewrite scheduleReconnect_run.
    destruct (limit_reached opts (set_isConnecting false s1)); exact H.
Qed.

Lemma connect_kept_or_new (opts : ConnectionOptions) (net : Z -> Transport) (s : State) :
  socket_kept_or_new s (final (connect opts net s)).
Proof.
  destruct (connect_socket opts net s) as [H|[H|H]].
  - destruct (socket s) as [sock|] eqn:E; [|left; exact H].
    right. right. exists sock. auto.
  - left. exact H.
  - right. left. exact H.
Qed.

Lemma timer_kept_or_new (opts : ConnectionOptions) (net : Z -> Transport) (s : State) :
  socket_kept_or_new s (final (reconnect_timer_fires opts net s)).
Proof.
  unfold reconnect_timer_fires.
  cbv beta iota zeta delta
    [try_catch mbind eff_bind bind mret eff_ret ret lift throw modify get_state].
  destruct (reconnectTimer s).
  - pose proof (connect_kept_or_new opts net (set_reconnectTimer None s)) as H.
    destruct (connect opts net (set_reconnectTimer None s)) as [[[]|e] s1 t1]; exact H.
  - destruct (socket s) as [sock|] eqn:E; [|left; exact E].
    right. right. exists sock. auto.
Qed.

Lemma socket_disconnected_kept (opts : ConnectionOptions) (reason : string) (s : State) :
  socket_kept_or_new s (final (socket_disconnected opts reason s)).
Proof.
  unfold socket_disconnected.
  cbv beta iota zeta delta
    [mbind eff_bind bind mret eff_ret ret lift modify get_state notify
     onConnectionChange clearConnectionTimeout].
  destruct (socket s) as [sock|] eqn:E; [|left; exact E].
  right. right. exists sock. split; [exact E|]. right. left.
  destruct (bool_decide (reason = "io server disconnect")); [reflexivity|].
  destruct (bool_decide (reason = "io client disconnect")); [reflexivity|].
  destruct (auto_reconnect_enabled opts); [|reflexivity].
  rewrite scheduleReconnect_run.
  match goal with |- context [limit_reached opts ?s0] =>
    destruct (limit_reached opts s0) end; reflexivity.
Qed.

Lemma socket_reconnected_kept (s : State) :
  socket_kept_or_new s (final (socket_reconnected s)).
Proof.
  unfold socket_reconnected.
  cbv beta iota zeta delta
    [mbind eff_bind bind mret eff_ret ret lift modify get_state
     clearConnectionTimeout setupMessageHandlers].
  destruct (socket s) as [sock|] eqn:E; [|left; exact E].
  right. right. exists sock. split; [exact E|]. right. right. reflexivity.
Qed.

Lemma disconnect_run (s : State) :
  disconnect s
  = MkRun (Ok tt) (MkCM None None false 0 None DEFAULT_RECONNECT_DELAY None)
      [MkStatus false false None None].
Proof. reflexivity. Qed.

(** With auto-reconnect on and the limit, if any, not in the way, the timer
    armed after the first failed pass and [n] further failed passes holds
    the [n]-th delay of the sequence 1000, then the previous delay times 1.5
    capped at 30000 (1000, 1500, 2250, 3375, 5062.5, ...); the binary64
    arithmetic of the code is exact on it.  A pass of [connect()] in which a
    port connects resets the attempt counter to 0 and the delay to 1000. *)
Theorem reconnect_delays_back_off_and_reset
    (opts : ConnectionOptions) (net : Z -> Transport) (s : State) :
  isConnected s = false -> isConnecting s = false ->
  (all_ports_fail net ->
   auto_reconnect_enabled opts = true ->
   reconnectAttempts s = 0 -> currentReconnectDelay s = DEFAULT_RECONNECT_DELAY ->
   forall n : nat,
     (forall m, maxReconnectAttempts opts = Some m -> Z.of_nat n < m) ->
     exists (d : float) (q : Q),
       reconnectTimer (after_failed_cycles opts net n s) = Some d
       /\ d = backoff n /\ backoff (S n) = next_delay (backoff n)
       /\ float_value d = Some q /\ (q == spec_delay n)%Q)
  /\ (some_port_connects net ->
      result (connect opts net s) = Ok tt
      /\ reconnectAttempts (final (connect opts net s)) = 0
      /\ currentReconnectDelay (final (connect opts net s)) = 1000%float).
Proof.
  intros Hc Hi. split.
  - intros Hall Ha Hn Hd n Hm.
    destruct (failed_cycles_state opts net s n Hc Hi Hn Hd Hall Ha Hm)
      as (_ & _ & _ & Ht & _).
    destruct (backoff_exact n) as (q & Hq & Hs).
    exists (backoff n), q. repeat split; assumption.
  - intros Hs.
    destruct (connect_succeeds opts net s Hc Hi Hs) as (Hr & _ & _ & Hn & Hd & _).
    repeat split; assumption.
Qed.

Lemma reconnect_delays_witness :
  let opts := MkOptions None None None in
  (isConnected initial = false /\ isConnecting initial = false
   /\ all_ports_fail refusing /\ auto_reconnect_enabled opts = true
   /\ reconnectTimer (after_failed_cycles opts refusing 3 initial) = Some 3375%float)
  /\ (some_port_connects (fun p => if p =? 50191 then Connects else TimesOut)
      /\ reconnectAttempts
           (final (connect opts (fun p => if p =? 50191 then Connects else TimesOut)
                     (after_failed_cycles opts refusing 3 initial))) = 0).
Proof.
  intros opts. split.
  - destruct (proj1 (reconnect_delays_back_off_and_reset opts refusing initial
                       eq_refl eq_refl)
                refusing_fails eq_refl eq_refl eq_refl 3%nat)
      as (d & q & Ht & Hd & _); [intros m [=]|].
    do 2 (split; [reflexivity|]). split; [exact refusing_fails|].
    split; [reflexivity|]. rewrite Ht, Hd. vm_compute. reflexivity.
  - assert (Hs : some_port_connects (fun p => if p =? 50191 then Connects else TimesOut)).
    { exists 50191. split; [cbn; auto|reflexivity]. }
    split; [exact Hs|].
    apply (proj2 (reconnect_delays_back_off_and_reset opts
                    (fun p => if p =? 50191 then Connects else TimesOut)
                    (after_failed_cycles opts refusing 3 initial) eq_refl eq_refl) Hs).
Defined.

(** C4.  The attempt counter and the delay are reset in the success branch
    of [connect()] and in [disconnect()], nowhere else, so a connection that
    is made without a pass of [connect()] resets nothing.  The supervisor
    connects; the socket reports that its transport closed, which schedules
    attempt 1 with the delay 1000 and raises the delay to 1500; the socket,
    whose own reconnection is not switched off, connects again.  The
    supervisor is connected, and yet the counter is 1 and the delay 1500,
    with the timer still armed; when the timer fires, [connect()] returns at
    once and leaves both as they are, so the next loss starts at 1500. *)
Theorem own_reconnection_keeps_the_counters :
  (isConnected first_connection = true
   /\ reconnectAttempts first_connection = 0
   /\ currentReconnectDelay first_connection = 1000%float)
  /\ (isConnected connection_lost = false
      /\ reconnectAttempts connection_lost = 1
      /\ reconnectTimer connection_lost = Some 1000%float
      /\ currentReconnectDelay connection_lost = 1500%float)
  /\ (isConnected socket_came_back = true
      /\ trace (socket_reconnected connection_lost) = []
      /\ reconnectAttempts socket_came_back = 1
      /\ reconnectTimer socket_came_back = Some 1000%float
      /\ currentReconnectDelay socket_came_back = 1500%float)
  /\ (let r := reconnect_timer_fires (MkOptions None None None) accepting socket_came_back in
      result r = Ok tt /\ trace r = []
      /\ isConnected (final r) = true
      /\ reconnectAttempts (final r) = 1
      /\ currentReconnectDelay (final r) = 1500%float).
Proof.
  assert (H1 : first_connection
               = MkCM (Some (MkSocket 50190 true own_listeners)) (Some 50190) false 0 None
                   1000%float None) by (vm_compute; reflexivity).
  assert (H2 : connection_lost
               = MkCM (Some (MkSocket 50190 false own_listeners)) (Some 50190) false 1
                   (Some 1000%float) 1500%float None).
  { unfold connection_lost. rewrite H1. vm_compute. reflexivity. }
  assert (H3 : socket_reconnected connection_lost
               = MkRun (Ok tt)
                   (MkCM (Some (MkSocket 50190 true
                                  (own_listeners ++ map (fun e => (e, Own)) message_events)))
                      (Some 50190) false 1 (Some 1000%float) 1500%float None) []).
  { rewrite H2. vm_compute. reflexivity. }
  split; [rewrite H1; repeat split|]. split; [rewrite H2; repeat split|].
  unfold socket_came_back. rewrite H3. cbn [final trace]. split; [repeat split|].
  cbv zeta. unfold reconnect_timer_fires, connect.
  cbv beta iota zeta delta
    [try_catch mbind eff_bind bind mret eff_ret ret modify get_state].
  cbn. repeat split.
Qed.

(** *** The attempt limit *)

Lemma no_timer_nothing_fires (opts : ConnectionOptions) (net : Z -> Transport) (s : State) :
  reconnectTimer s = None -> reconnect_timer_fires opts net s = MkRun (Ok tt) s [].
Proof.
  intros H. unfold reconnect_timer_fires.
  cbv beta iota delta [mbind eff_bind bind get_state]. rewrite H. reflexivity.
Qed.

Lemma limit_is_terminal (opts : ConnectionOptions) (net : Z -> Transport) (s : State) (m : Z) :
  maxReconnectAttempts opts = Some m -> auto_reconnect_enabled opts = true ->
  isConnected s = false -> isConnecting s = false ->
  all_ports_fail net -> m <= reconnectAttempts s ->
  let r := connect opts net s in
  result r = Ok tt
  /\ last (trace r) = Some (failure_status (CONNECTION_REFUSED, max_attempts_message m))
  /\ reconnectTimer (final r) = None
  /\ reconnectAttempts (final r) = reconnectAttempts s
  /\ currentReconnectDelay (final r) = currentReconnectDelay s
  /\ isConnected (final r) = false /\ isConnecting (final r) = false.
Proof.
  intros Hm Ha Hc Hi Hall Hle r. unfold r.
  rewrite (connect_all_fail opts net s Hc Hi Hall), Ha. cbv zeta.
  assert (Hl : limit_reached opts s = true).
  { unfold limit_reached. rewrite Hm. lia. }
  rewrite Hl. unfold max_attempts_status. rewrite Hm. repeat split.
Qed.

Lemma limit_counted (opts : ConnectionOptions) (net : Z -> Transport) (s : State) (m : Z) :
  maxReconnectAttempts opts = Some m -> auto_reconnect_enabled opts = true ->
  isConnected s = false -> isConnecting s = false ->
  all_ports_fail net -> 0 <= m ->
  reconnectAttempts s = 0 -> currentReconnectDelay s = DEFAULT_RECONNECT_DELAY ->
  reconnectTimer (after_failed_cycles opts net (Z.to_nat m) s) = None
  /\ reconnectAttempts (after_failed_cycles opts net (Z.to_nat m) s) = m.
Proof.
  intros Hm Ha Hc Hi Hall H0 Hn Hd.
  destruct (Z.to_nat m) as [|k] eqn:E.
  - assert (m = 0) by lia. subst m. cbn [after_failed_cycles].
    destruct (limit_is_terminal opts net s 0 Hm Ha Hc Hi Hall) as (_ & _ & Ht & Hk & _);
      [lia|]. rewrite Ht, Hk, Hn. split; reflexivity.
  - cbn [after_failed_cycles].
    destruct (failed_cycles_state opts net s k Hc Hi Hn Hd Hall Ha)
      as (Hc' & Hi' & Hn' & Ht' & _).
    { intros m' E'. rewrite Hm in E'. injection E' as <-. lia. }
    set (t := after_failed_cycles opts net k s) in *.
    rewrite (timer_fires_all_fail opts net t (backoff k) Ht' Hc' Hi' Hall Ha).
    assert (Hl : limit_reached opts t = true).
    { unfold limit_reached. rewrite Hm, Hn'. lia. }
    rewrite Hl. cbn. split; [reflexivity|]. rewrite Hn'. lia.
Qed.

(** C5, as amended.  With a limit [m] configured and auto-reconnect on, a
    pass that fails on every port while the attempt counter has reached [m]
    ends with the max-attempts status and no reconnect timer, so that no
    further pass starts by itself, and it leaves the counter and the delay as
    they were; counted from fresh counters, this is the failed pass number
    [m + 1], the timer being armed after each earlier one.  The counters go
    back to 0 and 1000 ms when a pass connects, and when [disconnect()] is
    called. *)
Theorem attempt_limit_stops_scheduling
    (opts : ConnectionOptions) (net : Z -> Transport) (s : State) (m : Z) :
  maxReconnectAttempts opts = Some m -> auto_reconnect_enabled opts = true ->
  isConnected s = false -> isConnecting s = false ->
  (all_ports_fail net -> m <= reconnectAttempts s ->
   let r := connect opts net s in
   result r = Ok tt
   /\ last (trace r) = Some (failure_status (CONNECTION_REFUSED, max_attempts_message m))
   /\ reconnectTimer (final r) = None
   /\ (forall net', reconnect_timer_fires opts net' (final r) = MkRun (Ok tt) (final r) [])
   /\ reconnectAttempts (final r) = reconnectAttempts s
   /\ currentReconnectDelay (final r) = currentReconnectDelay s)
  /\ (all_ports_fail net -> 0 <= m ->
      reconnectAttempts s = 0 -> currentReconnectDelay s = DEFAULT_RECONNECT_DELAY ->
      (forall n : nat, Z.of_nat n < m ->
         reconnectTimer (after_failed_cycles opts net n s) = Some (backoff n))
      /\ reconnectTimer (after_failed_cycles opts net (Z.to_nat m) s) = None
      /\ reconnectAttempts (after_failed_cycles opts net (Z.to_nat m) s) = m)
  /\ (some_port_connects net ->
      reconnectAttempts (final (connect opts net s)) = 0
      /\ currentReconnectDelay (final (connect opts net s)) = 1000%float
      /\ (0 < m -> limit_reached opts (final (connect opts net s)) = false))
  /\ (reconnectAttempts (final (disconnect s)) = 0
      /\ currentReconnectDelay (final (disconnect s)) = 1000%float
      /\ reconnectTimer (final (disconnect s)) = None).
Proof.
  intros Hm Ha Hc Hi. split; [|split; [|split]].
  - intros Hall Hle r.
    destruct (limit_is_terminal opts net s m Hm Ha Hc Hi Hall Hle)
      as (Hr & Hl & Ht & Hn & Hd & _).
    repeat (split; [assumption|]). split; [|split; assumption].
    intros net'. apply no_timer_nothing_fires, Ht.
  - intros Hall H0 Hn Hd. split.
    + intros n Hlt.
      destruct (failed_cycles_state opts net s n Hc Hi Hn Hd Hall Ha)
        as (_ & _ & _ & Ht & _); [|exact Ht].
      intros m' E. rewrite Hm in E. injection E as <-. exact Hlt.
    + exact (limit_counted opts net s m Hm Ha Hc Hi Hall H0 Hn Hd).
  - intros Hs.
    destruct (connect_succeeds opts net s Hc Hi Hs) as (_ & _ & _ & Hn & Hd & _).
    split; [exact Hn|]. split; [exact Hd|].
    intros Hpos. unfold limit_reached. rewrite Hm, Hn. lia.
  - rewrite disconnect_run. repeat split.
Qed.

Lemma attempt_limit_witness :
  let opts := MkOptions None None (Some 2) in
  maxReconnectAttempts opts = Some 2 /\ auto_reconnect_enabled opts = true
  /\ isConnected initial = false /\ isConnecting initial = false
  /\ all_ports_fail refusing
  /\ reconnectTimer (after_failed_cycles opts refusing 1 initial) = Some 1500%float
  /\ reconnectTimer (after_failed_cycles opts refusing 2 initial) = None
  /\ reconnectAttempts (after_failed_cycles opts refusing 2 initial) = 2.
Proof.
  intros opts.
  destruct (attempt_limit_stops_scheduling opts refusing initial 2
              eq_refl eq_refl eq_refl eq_refl) as (_ & H & _).
  destruct (H refusing_fails) as (H1 & H2 & H3); [lia|reflexivity|reflexivity|].
  do 4 (split; [reflexivity|]). split; [exact refusing_fails|].
  split; [rewrite (H1 1%nat) by lia; vm_compute; reflexivity|].
  split; [exact H2|exact H3].
Defined.

(** C5 as stated fails on its last part: after the limit (here 1) stopped the
    scheduler, a new [connect()] that fails again does not reset the attempt
    counter, and nothing is scheduled. *)
Lemma manual_connect_does_not_reset :
  let opts := MkOptions None None (Some 1) in
  let stopped := after_failed_cycles opts refusing 1 initial in
  let r := connect opts refusing stopped in
  reconnectTimer stopped = None
  /\ reconnectAttempts stopped = 1
  /\ result r = Ok tt
  /\ reconnectAttempts (final r) = 1
  /\ reconnectTimer (final r) = None
  /\ last (trace r)
     = Some (failure_status (CONNECTION_REFUSED, "Max reconnect attempts (1) reached")).
Proof. vm_compute. repeat split. Qed.

End SupervisorFacts.

(** ** The facade: processing errors *)

Module ProcessingFacts.
Import Js StateManager Sdk CacheSpec ProcessingSpec StateCacheFacts.

Lemma update_not_object (d : Domain) (p : JsValue) (s : State) :
  is_object p = false -> exists e, result (update d p s) = Throw e.
Proof.
  intros Hp. destruct (changed_or_first_run d p s) as [c Hc].
  rewrite (update_run d p s c _ s Hc (normalize_not_object d p s Hp)).
  destruct c as [b|e]; eexists; reflexivity.
Qed.

(** An update that throws stores and notifies nothing. *)
Lemma update_throws (d : Domain) (p : JsValue) (s : State) (e : JsError) :
  result (update d p s) = Throw e ->
  trace (update d p s) = [] /\ forall d', cached d' (final (update d p s)) = cached d' s.
Proof.
  destruct (changed_or_first_run d p s) as [c Hc].
  destruct (normalize_run d p s) as (v & k & Hv & _).
  rewrite (update_run d p s c v (advance k s) Hc Hv).
  destruct c as [b|e0]; [destruct v as [n|e1]|]; cbn; try discriminate; intros _.
  - split; [reflexivity|]. intros d'. apply cached_advance.
  - split; reflexivity.
Qed.

Lemma relay_run {A} (m : SM A) (s : State) :
  relay m s = MkRun (result (m s)) (final (m s)) (flat_map forward (trace (m s))).
Proof. unfold relay. destruct (m s); reflexivity. Qed.

(** [onMessage] when the state manager throws: the exception stops there
    and becomes one INVALID_MESSAGE event. *)
Lemma onMessage_throws (d : Domain) (p : JsValue) (s : State) (e : JsError) :
  result (update d p s) = Throw e ->
  onMessage (pushEvent d) p s
  = MkRun (Ok tt) (final (update d p s)) [processing_error e].
Proof.
  intros H. destruct (update_throws d p s e H) as [Ht _].
  unfold onMessage, try_catch. rewrite relay_run.
  change (handleMessage (pushEvent d) p s) with (update d p s).
  rewrite H, Ht. reflexivity.
Qed.

Lemma event_name_push (d : Domain) : event_name (pushEvent d) = push_name d.
Proof. destruct d; reflexivity. Qed.

(** The supervisor's forwarding listener never settles a pending call. *)
Lemma forwarding_keeps_promise (e : ServerEvent) (data : JsValue) (name : string)
    (w : World) :
  promise (call_listener e data (name, ConnectionManager.Own) w) = promise w
  /\ timer (call_listener e data (name, ConnectionManager.Own) w) = timer w
  /\ cm (call_listener e data (name, ConnectionManager.Own) w) = cm w.
Proof.
  unfold call_listener. cbn [fst snd].
  destruct (bool_decide (name = event_name e)); [|auto].
  destruct (onMessage e data (sm w)); auto.
Qed.

Lemma in_call_object_updates (p : JsValue) (s : State) :
  (forall old, cached InCall s = Some old -> Snapshot InCall old) ->
  is_object p = true -> result (update InCall p s) = Ok tt.
Proof.
  intros Hs Hp.
  destruct (normalize_object InCall p s ltac:(discriminate) Hp) as (n & k & Hv).
  destruct (prop_object p "inCall" Hp) as [x Hx].
  assert (Hc : exists b, changed_or_first (cached InCall s) (hasStateChanged InCall) p s
                         = MkRun (Ok b) s []).
  { destruct (cached InCall s) as [old|] eqn:E; [|exists true; reflexivity].
    pose proof (Hs old eq_refl) as Ho. inversion Ho as [| | |c t]; subst.
    exists (strict_neq (JBool c) x).
    cbn [changed_or_first]. run. props. rewrite Hx. reflexivity. }
  destruct Hc as [b Hc].
  rewrite (update_run InCall p s (Ok b) (Ok n) (advance k s) Hc Hv). reflexivity.
Qed.

Lemma prop_throws (v : JsValue) (k : string) (e : JsError) :
  prop v k = Throw e -> e = TypeError v k.
Proof. destruct v; cbn; congruence. Qed.

(** A comparison that throws throws the [TypeError] of a property read. *)
Lemma compare_throws (d : Domain) (o q : JsValue) (s : State) (e : JsError) :
  result (hasStateChanged d o q s) = Throw e -> is_type_error e.
Proof.
  destruct d; run;
    repeat (match goal with
            | |- context [match prop ?a ?k with _ => _ end] =>
                let E := fresh "E" in
                destruct (prop a k) eqn:E;
                [|apply prop_throws in E; subst; cbn; intros [= <-];
                  eexists; eexists; reflexivity]
            | |- context [if ?b then _ else _] => destruct b
            end; cbv beta iota);
    cbn; discriminate.
Qed.

(** Against a device snapshot every object can be compared. *)
Lemma compare_devices_object (old p : JsValue) (s : State) :
  Snapshot Devices old -> is_object p = true ->
  exists b, hasStateChanged Devices old p s = MkRun (Ok b) s [].
Proof.
  intros Ho Hp. inversion Ho as [i0 t0 i1 t1 _ _| | |]; subst.
  destruct (prop_object p "0" Hp) as [x0 H0]. destruct (prop_object p "1" Hp) as [x1 H1].
  run. props. rewrite H0. cbv beta iota.
  match goal with |- context [if ?b then _ else _] => destruct b end;
    [eexists; reflexivity|].
  props. rewrite H1. eexists. reflexivity.
Qed.

Lemma onMessage_final (e : ServerEvent) (data : JsValue) (s : State) :
  final (onMessage e data s) = final (handleMessage e data s).
Proof.
  unfold onMessage, try_catch. rewrite relay_run.
  destruct (handleMessage e data s) as [[[]|err] s1 t1]; reflexivity.
Qed.

(** From a new state manager on the cache holds nothing but snapshots. *)
Lemma after_messages_well_cached (clk : nat -> Z) (msgs : list (ServerEvent * JsValue)) :
  well_cached (after_messages (initial clk) msgs).
Proof.
  assert (H : forall s, well_cached s -> well_cached (after_messages s msgs)).
  { induction msgs as [|[e data] msgs IH]; intros s Hs; [exact Hs|].
    cbn [after_messages foldl fst snd]. apply IH. rewrite onMessage_final.
    apply handleMessage_well_cached, Hs. }
  apply H, initial_well_cached.
Qed.

(** C9, as amended.  In whatever state the state manager is, a new one
    after any run of server messages: a payload that is not an object makes
    the update of each domain throw, the domain's "must be an object" error
    when nothing is cached for the domain, and otherwise that error or the
    [TypeError] of a property read, for the comparison with the cached
    snapshot reads the payload first.  For in-call an object never throws;
    a device payload that is an object fails validation as well when one of
    its two channel entries is not of object type.  Whenever an update
    throws, no snapshot changes and no change event is raised; [onMessage]
    catches the exception, returns normally and gives the client exactly
    one ERROR event with code INVALID_MESSAGE, and the listener that
    forwards server messages leaves every pending request as it is. *)
Theorem invalid_payload_becomes_processing_error
    (clk : nat -> Z) (msgs : list (ServerEvent * JsValue)) (d : Domain) (p : JsValue) :
  let s := after_messages (initial clk) msgs in
  (is_object p = false ->
   exists e,
     result (update d p s) = Throw e
     /\ (e = PlainError (not_object_message d) \/ is_type_error e)
     /\ (cached d s = None -> e = PlainError (not_object_message d)))
  /\ (is_object p = true -> result (update InCall p s) = Ok tt)
  /\ (is_object p = true ->
      is_object_type (opt_prop p "0") && is_object_type (opt_prop p "1") = false ->
      result (update Devices p s)
      = Throw (PlainError "Invalid device state: missing microphone or speaker state"))
  /\ (forall e, result (update d p s) = Throw e ->
        trace (update d p s) = []
        /\ (forall d', cached d' (final (update d p s)) = cached d' s)
        /\ result (onMessage (pushEvent d) p s) = Ok tt
        /\ trace (onMessage (pushEvent d) p s)
           = [(ERROR, error_data INVALID_MESSAGE
                        ("Failed to process message: " +:+ error_to_string e))]
        /\ (forall d', cached d' (final (onMessage (pushEvent d) p s)) = cached d' s)
        /\ (forall w : World,
              promise (call_listener (pushEvent d) p
                         (push_name d, ConnectionManager.Own) w) = promise w)).
Proof.
  intros s. pose proof (after_messages_well_cached clk msgs) as Hw. fold s in Hw.
  split; [|split; [|split]].
  - intros Hp. destruct (changed_or_first_run d p s) as [c Hc].
    rewrite (update_run d p s c _ s Hc (normalize_not_object d p s Hp)).
    destruct c as [b|e].
    + exists (PlainError (not_object_message d)). split; [reflexivity|]. split; auto.
    + exists e. split; [reflexivity|].
      destruct (cached d s) as [old|] eqn:E; [|discriminate Hc].
      split; [|discriminate]. right.
      apply (compare_throws d old p s). cbn [changed_or_first] in Hc. rewrite Hc.
      reflexivity.
  - apply in_call_object_updates. intros old Ho. exact (Hw InCall old Ho).
  - intros Hp Hbad.
    destruct (prop_object p "0" Hp) as [s0 H0]. destruct (prop_object p "1" Hp) as [s1 H1].
    unfold opt_prop in Hbad. rewrite H0, H1 in Hbad.
    assert (Hv : validateAndNormalize Devices p s
                 = MkRun (Throw (PlainError
                     "Invalid device state: missing microphone or speaker state")) s []).
    { run. rewrite object_guard, Hp. cbv beta iota delta [negb]. rewrite H0.
      cbv beta iota. destruct (is_object_type s0); cbv beta iota.
      - rewrite H1. cbv beta iota. cbn in Hbad. rewrite Hbad. reflexivity.
      - reflexivity. }
    assert (Hc : exists b, changed_or_first (cached Devices s) (hasStateChanged Devices) p s
                           = MkRun (Ok b) s []).
    { destruct (cached Devices s) as [old|] eqn:E; [|exists true; reflexivity].
      cbn [changed_or_first].
      apply compare_devices_object; [exact (Hw Devices old E)|exact Hp]. }
    destruct Hc as [b Hc].
    rewrite (update_run Devices p s (Ok b) _ s Hc Hv). reflexivity.
  - intros e He. destruct (update_throws d p s e He) as [Ht Hcache].
    rewrite (onMessage_throws d p s e He). cbn [result final trace].
    repeat (split; [assumption || reflexivity|]).
    intros w. apply forwarding_keeps_promise.
Qed.

(** C9 as stated fails in its "only if" part: the empty object is an object,
    and the device update rejects it with a validation error. *)
Lemma object_payload_fails_validation :
  is_object (JObj []) = true
  /\ result (update Devices (JObj []) (initial example_clock))
     = Throw (PlainError "Invalid device state: missing microphone or speaker state").
Proof. split; vm_compute; reflexivity. Qed.

Lemma invalid_payload_witness :
  is_object JNull = false
  /\ result (update NoiseCancellation JNull (initial example_clock))
     = Throw (PlainError "Invalid NC state: must be an object")
  /\ trace (onMessage nc_state JNull (initial example_clock))
     = [(ERROR, error_data INVALID_MESSAGE
                  "Failed to process message: Error: Invalid NC state: must be an object")]
  /\ cached NoiseCancellation (final (onMessage nc_state JNull (initial example_clock)))
     = None.
Proof.
  assert (He : result (update NoiseCancellation JNull (initial example_clock))
               = Throw (PlainError "Invalid NC state: must be an object"))
    by (vm_compute; reflexivity).
  destruct (invalid_payload_becomes_processing_error example_clock []
              NoiseCancellation JNull) as (_ & _ & _ & H).
  destruct (H _ He) as (_ & _ & _ & Ht & Hc & _).
  split; [reflexivity|]. split; [exact He|]. split; [exact Ht|]. exact (Hc NoiseCancellation).
Defined.

End ProcessingFacts.

(** ** The facade: subscribe *)

Module SubscribeFacts.
Import Js Sdk.

Lemma elem_of_set_add (t x : string) (l : list string) :
  t ∈ set_add x l <-> t = x \/ t ∈ l.
Proof.
  unfold set_add. destruct (bool_decide_reflect (x ∈ l)) as [H|H].
  - split; [auto|]. intros [->|Ht]; assumption.
  - rewrite elem_of_app, list_elem_of_singleton. tauto.
Qed.

Lemma elem_of_add_confirmed (topics : list string) (items : list JsValue)
    (l : list string) (t : string) :
  t ∈ add_confirmed topics items l <-> t ∈ l \/ (t ∈ topics /\ JStr t ∈ items).
Proof.
  unfold add_confirmed. revert l. induction items as [|x items IH]; intros l; cbn [foldl].
  - split; [auto|]. intros [H|[_ H]]; [exact H|]. inversion H.
  - rewrite IH. rewrite elem_of_cons.
    destruct x as [| | | |u| |]; try (split; [intros [H|[H1 H2]]; auto|
      intros [H|[H1 [H2|H2]]]; auto; discriminate]).
    destruct (bool_decide_reflect (u ∈ topics)) as [Hu|Hu].
    + rewrite elem_of_set_add. split.
      * intros [[->|H]|[H1 H2]]; auto.
      * intros [H|[H1 [[= ->]|H2]]]; auto.
    + split.
      * intros [H|[H1 H2]]; auto.
      * intros [H|[H1 [[= ->]|H2]]]; auto. contradiction.
Qed.




End SubscribeFacts.

(** ** The facade: recovery after a reconnection *)

Module RecoveryFacts.
Import Js StateManager Sdk RecoverySpec.

Lemma settle_run_polls (env : Env) (polls retries : nat) :
  forallb is_poll_or_wait (fst (settle_run env polls retries)) = true.
Proof.
  revert polls. induction retries as [|r IH]; intros polls; cbn [settle_run].
  - destruct (connectivity env polls); reflexivity.
  - destruct (connectivity env polls); [reflexivity|].
    specialize (IH (S polls)). destruct (settle_run env (S polls) r). exact IH.
Qed.

Lemma exec_settle {A} (env : Env) (retries polls : nat) (f : unit -> Prog A)
    (h : JsError -> Prog A) :
  exec env polls (prog_catch (prog_bind (settle retries) f) h)
  = let '(t, n) := settle_run env polls retries in
    let '(r, t') := exec env n (prog_catch (f tt) h) in
    (r, t ++ t').
Proof.
  revert polls. induction retries as [|r IH]; intros polls;
    cbn [settle prog_bind prog_catch exec settle_run].
  - destruct (connectivity env polls); cbn [prog_bind prog_catch];
      destruct (exec env (S polls) (prog_catch (f tt) h)); reflexivity.
  - destruct (connectivity env polls); cbn [prog_bind prog_catch exec].
    + destruct (exec env (S polls) (prog_catch (f tt) h)); reflexivity.
    + rewrite IH. destruct (settle_run env (S polls) r) as [t n].
      destruct (exec env n (prog_catch (f tt) h)); reflexivity.
Qed.

Lemma handleReconnection_run (opts : KrispSDKOptions) (subscribed : list string)
    (env : Env) :
  exec env 0 (handleReconnection opts subscribed)
  = let '(t, n) := settle_run env 0 10 in
    (Ok tt,
     t ++ Polled (connectivity env n)
       :: (if connectivity env n
           then map Requested [Devices; NoiseCancellation; AccentConversion; InCall]
                ++ after_fetch opts subscribed env
           else [Logged "Connection not ready after reconnection"])).
Proof.
  unfold handleReconnection. rewrite exec_settle.
  destruct (settle_run env 0 10) as [t n].
  cbn [prog_catch exec]. destruct (connectivity env n); cbn [negb prog_catch exec];
    [|reflexivity].
  unfold fetchInitialStates, after_fetch. cbn [prog_bind prog_catch exec].
  destruct (auto_subscribe_enabled opts); [|reflexivity].
  replace (if (0 <? length subscribed)%nat then subscribed else auto_topics opts)
    with (recovery_topics opts subscribed) by (destruct subscribed; reflexivity).
  unfold await_subscribe. cbn [prog_bind prog_catch exec].
  destruct (subscribe_outcome env (recovery_topics opts subscribed));
    reflexivity.
Qed.

Lemma flags_of_snoc (evs : list FlagEvent) (ev : FlagEvent) :
  flags_of (evs ++ [ev]) = flag_step (flags_of evs) ev.
Proof. unfold flags_of. apply foldl_snoc. Qed.

Lemma loss_keeps_waiting (f : Flags) (rest : list FlagEvent) :
  f = MkFlags false true -> Forall reports_loss rest ->
  foldl flag_step f rest = MkFlags false true.
Proof.
  intros -> H. induction H as [|ev rest (st & -> & Hst) _ IH]; [reflexivity|].
  cbn [foldl flag_step]. unfold emitConnectionChange. rewrite Hst. cbn. exact IH.
Qed.

Lemma call_ends_waiting (ev : FlagEvent) (rest : list FlagEvent) :
  client_call ev -> Forall reports_loss rest ->
  foldl flag_step (flag_step (MkFlags false true) ev) rest = MkFlags false false.
Proof.
  intros Hev Hrest.
  assert (H : flag_step (MkFlags false true) ev = MkFlags false false)
    by (destruct Hev as [-> | ->]; reflexivity).
  rewrite H. clear H Hev.
  induction Hrest as [|x rest (st & -> & Hst) _ IH]; [reflexivity|].
  cbn [foldl flag_step]. unfold emitConnectionChange. rewrite Hst. cbn. exact IH.
Qed.

(** C8, as amended.  On a facade that has had a connection, when the
    supervisor reports a status without a connection, then any number of
    further such statuses and then one with a connection, and the client
    calls neither [connect()] nor [disconnect()] in between, that last
    status starts [handleReconnection()]; if the client does call one of
    them in between, it does not.  The procedure never rejects, whatever
    the environment does.  If the supervisor reports being connected once
    the settling loop is over, it issues the four get-state requests in the
    order devices, NC, AC, in-call and then, unless auto-subscribe is
    disabled, one subscribe request for the subscription set as it stands,
    or for the configured auto-subscribe topics (all four by default) when
    that set is empty; with auto-subscribe disabled it subscribes to
    nothing. *)
Theorem reconnection_runs_recovery
    (opts : KrispSDKOptions) (subscribed : list string) (env : Env)
    (history between : list FlagEvent)
    (lost up : ConnectionManager.ConnectionStatus) :
  wasConnected (flags_of history) = true ->
  ConnectionManager.connected lost = false -> Forall reports_loss between ->
  ConnectionManager.connected up = true ->
  emitConnectionChange up (flags_of (history ++ StatusReported lost :: between))
  = (MkFlags true false, true)
  /\ (forall before call after,
        Forall reports_loss before -> client_call call -> Forall reports_loss after ->
        snd (emitConnectionChange up
               (flags_of (history ++ StatusReported lost :: before ++ call :: after)))
        = false)
  /\ fst (exec env 0 (handleReconnection opts subscribed)) = Ok tt
  /\ (connectivity env (snd (settle_run env 0 10)) = true ->
      exists polls,
        forallb is_poll_or_wait polls = true
        /\ snd (exec env 0 (handleReconnection opts subscribed))
           = polls
             ++ [Requested Devices; Requested NoiseCancellation;
                 Requested AccentConversion; Requested InCall]
             ++ (if auto_subscribe_enabled opts
                 then [Subscribed (recovery_topics opts subscribed);
                       Logged (match subscribe_outcome env
                                       (recovery_topics opts subscribed) with
                               | Ok _ =>
                                   resubscribed_message (recovery_topics opts subscribed)
                               | Throw e => recovery_failed_message e
                               end)]
                 else [])).
Proof.
  intros Hw Hl Hb Hu.
  assert (Hlost : flags_of (history ++ [StatusReported lost]) = MkFlags false true).
  { rewrite flags_of_snoc. cbn [flag_step]. unfold emitConnectionChange.
    rewrite Hl, Hw. reflexivity. }
  assert (Hsplit : forall rest,
            flags_of (history ++ StatusReported lost :: rest)
            = foldl flag_step (MkFlags false true) rest).
  { intros rest. change (StatusReported lost :: rest) with ([StatusReported lost] ++ rest).
    rewrite app_assoc. unfold flags_of in *. rewrite foldl_app, Hlost. reflexivity. }
  split; [|split].
  - rewrite Hsplit, (loss_keeps_waiting _ between eq_refl Hb).
    unfold emitConnectionChange. rewrite Hu. reflexivity.
  - intros before call after Hbefore Hcall Hafter.
    rewrite Hsplit, foldl_app, (loss_keeps_waiting _ before eq_refl Hbefore).
    cbn [foldl]. rewrite (call_ends_waiting call after Hcall Hafter).
    unfold emitConnectionChange. rewrite Hu. reflexivity.
  - rewrite handleReconnection_run.
    pose proof (settle_run_polls env 0 10) as Hp.
    destruct (settle_run env 0 10) as [t n]. cbn [fst snd] in *.
    split; [reflexivity|]. intros Hc. rewrite Hc.
    exists (t ++ [Polled true]). split.
    + rewrite forallb_app, Hp. reflexivity.
    + rewrite <- app_assoc. reflexivity.
Qed.

Lemma recovery_witness :
  let lost := ConnectionManager.MkStatus false false None
                (Some (CONNECTION_REFUSED, "Disconnected: transport close")) in
  let retrying := ConnectionManager.MkStatus false true None None in
  let up := ConnectionManager.MkStatus true false (Some 50190) None in
  wasConnected (flags_of [StatusReported up]) = true
  /\ ConnectionManager.connected lost = false
  /\ Forall reports_loss [StatusReported retrying]
  /\ ConnectionManager.connected up = true
  /\ connectivity always_up (snd (settle_run always_up 0 10)) = true
  /\ emitConnectionChange up
       (flags_of [StatusReported up; StatusReported lost; StatusReported retrying])
     = (MkFlags true false, true)
  /\ snd (emitConnectionChange up
            (flags_of [StatusReported up; StatusReported lost; ConnectCalled;
                       StatusReported retrying]))
     = false
  /\ exists polls,
       snd (exec always_up 0 (handleReconnection default_options ["devices"; "nc"]))
       = polls
         ++ [Requested Devices; Requested NoiseCancellation;
             Requested AccentConversion; Requested InCall]
         ++ [Subscribed ["devices"; "nc"];
             Logged "Re-subscribed to topics after reconnection: devices, nc"].
Proof.
  intros lost retrying up.
  assert (Hb : Forall reports_loss [StatusReported retrying]).
  { constructor; [|constructor]. exists retrying. split; reflexivity. }
  destruct (reconnection_runs_recovery default_options ["devices"; "nc"] always_up
              [StatusReported up] [StatusReported retrying] lost up
              eq_refl eq_refl Hb eq_refl)
    as (H1 & H2 & _ & H3).
  destruct (H3 eq_refl) as (polls & _ & H4).
  split; [reflexivity|]. split; [reflexivity|]. split; [exact Hb|].
  split; [reflexivity|]. split; [reflexivity|]. split; [exact H1|]. split.
  - exact (H2 [] ConnectCalled [StatusReported retrying] (Forall_nil_2 _)
             (or_introl eq_refl) Hb).
  - exists polls. exact H4.
Defined.

(** C8 as stated fails when auto-subscribe is disabled: the client had
    subscribed to [devices] itself, the connection is back and up, and the
    recovery re-issues the four get-state requests but no subscribe
    request. *)
Lemma no_resubscription_without_auto_subscribe :
  let opts := MkSdkOptions (ConnectionManager.MkOptions None None None) (Some false) None in
  exec always_up 0 (handleReconnection opts ["devices"])
  = (Ok tt,
     [Polled true; Polled true; Requested Devices; Requested NoiseCancellation;
      Requested AccentConversion; Requested InCall])
  /\ ~ In (Subscribed ["devices"])
         (snd (exec always_up 0 (handleReconnection opts ["devices"]))).
Proof.
  split; [reflexivity|]. cbn. intros H.
  repeat (destruct H as [H|H]; [discriminate|]). exact H.
Qed.

End RecoveryFacts.

(** ** The facade: a get-state call from start to settlement *)

Module RequestFacts.
Import Js StateManager Sdk RequestSpec.

Lemma cleanup_fields (w : World) :
  sm (cleanup w) = sm w /\ dropped (cleanup w) = dropped w
  /\ domain (cleanup w) = domain w /\ handler (cleanup w) = handler w
  /\ promise (cleanup w) = promise w /\ timer (cleanup w) = None
  /\ ~ registered_on_held (cleanup w)
  /\ (forall sock l,
        ConnectionManager.socket (cm (cleanup w)) = Some sock ->
        l ∈ ConnectionManager.sock_listeners sock ->
        exists sock0, ConnectionManager.socket (cm w) = Some sock0
                      /\ l ∈ ConnectionManager.sock_listeners sock0).
Proof.
  repeat (split; [reflexivity|]). split; [|
    intros sock l Hs Hin; unfold cleanup in Hs; cbn in Hs;
    unfold ConnectionManager.off in Hs;
    destruct (ConnectionManager.socket (cm w)) as [s0|] eqn:E; cbn in Hs;
      [|rewrite E in Hs; discriminate];
    injection Hs as <-; cbn in Hin; apply list_elem_of_filter in Hin as [_ Hin];
    exists s0; split; [reflexivity|exact Hin]].
  intros (sock & Hs & Hin). unfold cleanup, our_listener in *. cbn in Hs, Hin.
  unfold ConnectionManager.off in Hs.
  destruct (ConnectionManager.socket (cm w)) as [s0|] eqn:E; cbn in Hs;
    [|rewrite E in Hs; discriminate].
  injection Hs as <-. cbn in Hin. apply list_elem_of_filter in Hin as [Hne _].
  apply Hne. reflexivity.
Qed.

Lemma settle_pending (o : Outcome JsError JsValue) (w : World) :
  promise w = None ->
  settle_promise o w
  = MkWorld (options w) (sm w) (cm w) (dropped w) (domain w) (handler w) (timer w)
            (Some o) (sent w) (events w).
Proof. intros H. unfold settle_promise. rewrite H. reflexivity. Qed.

Lemma settle_settled (o o' : Outcome JsError JsValue) (w : World) :
  promise w = Some o' -> settle_promise o w = w.
Proof. intros H. unfold settle_promise. rewrite H. reflexivity. Qed.

(** Cleaning up and settling: the common tail of the three callbacks. *)
Lemma finish_inv (d : Domain) (h : nat) (o : Outcome JsError JsValue) (w : World) :
  Inv d h w -> settlement d o ->
  Inv d h (settle_promise o (cleanup w))
  /\ (forall o', promise w = Some o' -> promise (settle_promise o (cleanup w)) = Some o')
  /\ (promise w = None -> promise (settle_promise o (cleanup w)) = Some o)
  /\ sm (settle_promise o (cleanup w)) = sm w
  /\ dropped (settle_promise o (cleanup w)) = dropped w.
Proof.
  intros [Hd Hh Hp Hs Hf] Ho.
  destruct (cleanup_fields w) as (F1 & F2 & F3 & F4 & F5 & F6 & F7 & F8).
  assert (Hf' : forall sock name,
             ConnectionManager.socket (cm (cleanup w)) = Some sock ->
             (name, ConnectionManager.Client h) ∈ ConnectionManager.sock_listeners sock ->
             name = push_name d).
  { intros sock name Hsock Hin. destruct (F8 sock _ Hsock Hin) as (sock0 & H0 & Hin0).
    exact (Hf sock0 name H0 Hin0). }
  destruct (promise w) as [o'|] eqn:E.
  - rewrite (settle_settled o o' (cleanup w)) by (rewrite F5; reflexivity).
    destruct (Hs o' eq_refl) as (_ & _ & Hk).
    split; [|split; [|split; [|split]]].
    + split; [congruence|congruence|rewrite F5; discriminate| |exact Hf'].
      intros o'' Ho''. rewrite F5 in Ho''. injection Ho'' as <-. auto.
    + intros o'' [= <-]. exact F5.
    + discriminate.
    + exact F1.
    + exact F2.
  - rewrite (settle_pending o (cleanup w)) by (rewrite F5; reflexivity).
    split; [|split; [|split; [|split]]].
    + split; cbn [domain handler promise timer]; [congruence|congruence|discriminate| |exact Hf'].
      intros o'' [= <-]. split; [exact F6|]. split; [|exact Ho].
      intros (sock & Hsock & Hin). apply F7. exists sock. split; assumption.
    + discriminate.
    + reflexivity.
    + exact F1.
    + exact F2.
Qed.

Lemma settlement_value (d : Domain) (v : JsValue) : settlement d (Ok v).
Proof. left. exists v. reflexivity. Qed.

Lemma settlement_failed (d : Domain) : settlement d (Throw (failed_error d)).
Proof. right. left. reflexivity. Qed.

Lemma settlement_timeout (d : Domain) : settlement d (Throw timeout_error).
Proof. right. right. reflexivity. Qed.

Lemma preserved_refl (d : Domain) (h : nat) (w : World) : Inv d h w -> preserved d h w w.
Proof. intros H. split; [exact H|]. split; [auto|reflexivity]. Qed.

Lemma preserved_trans (d : Domain) (h : nat) (w1 w2 w3 : World) :
  preserved d h w1 w2 -> preserved d h w2 w3 -> preserved d h w1 w3.
Proof.
  intros (I2 & S2 & D2) (I3 & S3 & D3). split; [exact I3|]. split; [|congruence].
  intros o Ho. apply S3, S2, Ho.
Qed.

Lemma finish_preserved (d : Domain) (h : nat) (o : Outcome JsError JsValue) (w : World) :
  Inv d h w -> settlement d o -> preserved d h w (settle_promise o (cleanup w)).
Proof.
  intros Hi Ho. destruct (finish_inv d h o w Hi Ho) as (I & S & _ & _ & D).
  split; [exact I|]. split; [exact S|exact D].
Qed.

Lemma on_ack_preserved (d : Domain) (h : nat) (response : JsValue) (w : World) :
  Inv d h w -> preserved d h w (on_ack response w).
Proof.
  intros Hi. unfold on_ack.
  set (w1 := if negb (truthy (opt_prop response "success"))
             then settle_promise (Throw (KrispSDKError UNKNOWN_ERROR
                                           (failed_message (domain w)))) (cleanup w)
             else w).
  assert (H1 : preserved d h w w1).
  { unfold w1. destruct (negb (truthy (opt_prop response "success")));
      [|apply preserved_refl, Hi].
    rewrite (inv_domain d h w Hi). apply finish_preserved;
      [exact Hi|apply settlement_failed]. }
  destruct (cached (domain w1) (sm w1)) as [cur|]; [|exact H1].
  apply (preserved_trans d h w w1); [exact H1|].
  apply finish_preserved; [apply H1|apply settlement_value].
Qed.

Lemma call_listener_preserved (d : Domain) (h : nat) (e : ServerEvent) (data : JsValue)
    (l : string * ConnectionManager.Handler) (w : World) :
  Inv d h w -> preserved d h w (call_listener e data l w).
Proof.
  intros Hi. unfold call_listener.
  destruct (bool_decide (l.1 = event_name e)); [|apply preserved_refl, Hi].
  destruct (l.2) as [|id].
  - destruct (onMessage e data (sm w)) as [r s' t].
    destruct Hi as [Hd Hh Hp Hs Hf]. split; [|split; [auto|reflexivity]].
    split; assumption.
  - destruct (bool_decide (id = handler w)); [|apply preserved_refl, Hi].
    apply finish_preserved; [exact Hi|apply settlement_value].
Qed.

Lemma listeners_preserved (d : Domain) (h : nat) (e : ServerEvent) (data : JsValue)
    (ls : list (string * ConnectionManager.Handler)) (w : World) :
  Inv d h w ->
  preserved d h w (foldl (fun w' l => call_listener e data l w') w ls).
Proof.
  revert w. induction ls as [|l ls IH]; intros w Hi; cbn [foldl].
  - apply preserved_refl, Hi.
  - pose proof (call_listener_preserved d h e data l w Hi) as H1.
    apply (preserved_trans d h w (call_listener e data l w)); [exact H1|].
    apply IH, H1.
Qed.

Lemma supervise_kept_or_new (opts : ConnectionManager.ConnectionOptions)
    (c : SupervisorCall) (s : ConnectionManager.State) :
  SupervisorSpec.socket_kept_or_new s (final (supervise opts c s)).
Proof.
  destruct c as [net|net|reason| |]; cbn [supervise].
  - apply SupervisorFacts.connect_kept_or_new.
  - apply SupervisorFacts.timer_kept_or_new.
  - apply SupervisorFacts.socket_disconnected_kept.
  - apply SupervisorFacts.socket_reconnected_kept.
  - left. reflexivity.
Qed.

(** The supervisor never adds a listener of a client to the socket it
    holds. *)
Lemma supervise_clients (opts : ConnectionManager.ConnectionOptions)
    (c : SupervisorCall) (s : ConnectionManager.State)
    (sock' : ConnectionManager.Socket) (name : string) (id : nat) :
  ConnectionManager.socket (final (supervise opts c s)) = Some sock' ->
  (name, ConnectionManager.Client id) ∈ ConnectionManager.sock_listeners sock' ->
  exists sock,
    ConnectionManager.socket s = Some sock
    /\ (name, ConnectionManager.Client id) ∈ ConnectionManager.sock_listeners sock.
Proof.
  intros Hs Hin.
  destruct (supervise_kept_or_new opts c s) as [H|[[p H]|(sock & H0 & [H|[H|H]])]];
    rewrite H in Hs; [discriminate| | | |]; injection Hs as <-.
  - exfalso. cbn in Hin.
    repeat (apply elem_of_cons in Hin as [Hin|Hin]; [discriminate|]).
    inversion Hin.
  - exists sock. auto.
  - exists sock. auto.
  - exists sock. split; [exact H0|]. cbn [ConnectionManager.sock_listeners] in Hin.
    apply elem_of_app in Hin as [Hin|Hin]; [exact Hin|]. exfalso. cbn in Hin.
    repeat (apply elem_of_cons in Hin as [Hin|Hin]; [discriminate|]).
    inversion Hin.
Qed.

Lemma step_preserved (d : Domain) (h : nat) (w : World) (ev : Event) :
  Inv d h w ->
  Inv d h (step w ev) /\ (forall o, promise w = Some o -> promise (step w ev) = Some o).
Proof.
  intros Hi. destruct ev as [|e data|response|c]; cbn [step].
  - destruct (timer w) eqn:E.
    + destruct (finish_preserved d h (Throw timeout_error) w Hi (settlement_timeout d))
        as (I & S & _). split; assumption.
    + split; [exact Hi|auto].
  - destruct (ConnectionManager.socket (cm w)) as [sock|]; [|split; [exact Hi|auto]].
    destruct (ConnectionManager.sock_connected sock); [|split; [exact Hi|auto]].
    destruct (listeners_preserved d h e data (ConnectionManager.sock_listeners sock) w Hi)
      as (I & S & _). split; assumption.
  - destruct (on_ack_preserved d h response w Hi) as (I & S & _). split; assumption.
  - destruct Hi as [Hd Hh Hp Hs Hf]. split; [|auto].
    split; cbn [domain handler promise timer cm]; try assumption.
    + intros o Ho. destruct (Hs o Ho) as (Ht & Hr & Hk). split; [exact Ht|].
      split; [|exact Hk]. intros (sock' & Hsock & Hin). apply Hr.
      unfold our_listener in Hin. cbn [domain handler] in Hin.
      destruct (supervise_clients _ _ _ _ _ _ Hsock Hin) as (sock & H0 & Hin0).
      exists sock. split; [exact H0|exact Hin0].
    + intros sock' name Hsock Hin.
      destruct (supervise_clients _ _ _ _ _ _ Hsock Hin) as (sock & H0 & Hin0).
      exact (Hf sock name H0 Hin0).
Qed.

Lemma steps_snoc (w : World) (evs : list Event) (ev : Event) :
  steps w (evs ++ [ev]) = step (steps w evs) ev.
Proof. unfold steps. apply foldl_snoc. Qed.

Lemma steps_app (w : World) (evs more : list Event) :
  steps w (evs ++ more) = steps (steps w evs) more.
Proof. unfold steps. apply foldl_app. Qed.

Lemma steps_preserved (d : Domain) (h : nat) (evs : list Event) (w : World) :
  Inv d h w ->
  Inv d h (steps w evs) /\ (forall o, promise w = Some o -> promise (steps w evs) = Some o).
Proof.
  revert w. induction evs as [|ev evs IH]; intros w Hi.
  - split; [exact Hi|auto].
  - destruct (step_preserved d h w ev Hi) as [I1 S1].
    destruct (IH (step w ev) I1) as [I2 S2]. split; [exact I2|].
    intros o Ho. apply S2, S1, Ho.
Qed.

Lemma getState_inv (opts : ConnectionManager.ConnectionOptions) (d : Domain) (h : nat)
    (sm0 : State) (cm0 : ConnectionManager.State) :
  ConnectionManager.isConnected cm0 = true -> fresh_handler h cm0 ->
  let w := getState opts d h sm0 cm0 in
  Inv d h w /\ promise w = None /\ registered_on_held w /\ dropped w = []
  /\ sent w = [(request_name d, JObj [])] /\ sm w = sm0.
Proof.
  intros Hc Hfresh w. unfold w, getState. rewrite Hc.
  unfold ConnectionManager.isConnected in Hc.
  destruct (ConnectionManager.socket cm0) as [sock|] eqn:E; [|discriminate].
  split.
  { split; cbn; try reflexivity; try discriminate.
    intros sock' name Hs Hin. unfold ConnectionManager.on in Hs. rewrite E in Hs.
    cbn in Hs. injection Hs as <-. cbn in Hin.
    apply elem_of_app in Hin as [Hin|Hin]; [destruct (Hfresh sock name E Hin)|].
    apply list_elem_of_singleton in Hin. injection Hin as ->. reflexivity. }
  split; [reflexivity|]. split; [|repeat split].
  unfold registered_on_held, our_listener. cbn. unfold ConnectionManager.on. rewrite E.
  eexists. split; [reflexivity|]. cbn. apply elem_of_app. right. apply list_elem_of_here.
Qed.

Lemma event_name_push_eq (d : Domain) : event_name (pushEvent d) = push_name d.
Proof. destruct d; reflexivity. Qed.

Lemma event_push_inj (e : ServerEvent) (d : Domain) :
  event_name e = push_name d -> e = pushEvent d.
Proof. destruct e, d; intros H; (reflexivity || discriminate H). Qed.

Lemma call_listener_outcome (d : Domain) (h : nat) (e : ServerEvent) (data : JsValue)
    (l : string * ConnectionManager.Handler) (w : World) (o : Outcome JsError JsValue) :
  Inv d h w ->
  (forall name, l = (name, ConnectionManager.Client h) -> name = push_name d) ->
  promise w = None ->
  promise (call_listener e data l w) = Some o ->
  o = Ok data /\ e = pushEvent d.
Proof.
  intros Hi Hl Hp. unfold call_listener. destruct l as [name [|id]]; cbn [fst snd].
  - destruct (bool_decide (name = event_name e)); [|congruence].
    destruct (onMessage e data (sm w)). cbn. congruence.
  - destruct (bool_decide_reflect (name = event_name e)) as [Hn|]; [|congruence].
    destruct (bool_decide_reflect (id = handler w)) as [Hid|]; [|congruence].
    destruct (finish_inv d h (Ok data) w Hi (settlement_value d data)) as (_ & _ & S & _).
    unfold on_push. rewrite (S Hp). intros [= <-]. split; [reflexivity|].
    apply event_push_inj. rewrite <- Hn. apply Hl.
    rewrite Hid, (inv_handler d h w Hi). reflexivity.
Qed.

Lemma listeners_outcome (d : Domain) (h : nat) (e : ServerEvent) (data : JsValue)
    (ls : list (string * ConnectionManager.Handler)) (w : World)
    (o : Outcome JsError JsValue) :
  Inv d h w ->
  (forall name, (name, ConnectionManager.Client h) ∈ ls -> name = push_name d) ->
  promise w = None ->
  promise (foldl (fun w' l => call_listener e data l w') w ls) = Some o ->
  o = Ok data /\ e = pushEvent d.
Proof.
  revert w. induction ls as [|l ls IH]; intros w Hi Hls Hp; cbn [foldl].
  - congruence.
  - pose proof (call_listener_preserved d h e data l w Hi) as (I1 & _ & _).
    destruct (promise (call_listener e data l w)) as [o1|] eqn:E.
    + destruct (listeners_preserved d h e data ls _ I1) as (_ & S & _).
      rewrite (S o1 E). intros [= <-].
      apply (call_listener_outcome d h e data l w o1 Hi); [|exact Hp|exact E].
      intros name ->. apply Hls. apply list_elem_of_here.
    + apply (IH _ I1); [|exact E].
      intros name Hin. apply Hls. apply list_elem_of_further, Hin.
Qed.

Lemma on_ack_outcome (d : Domain) (h : nat) (response : JsValue) (w : World)
    (o : Outcome JsError JsValue) :
  Inv d h w -> promise w = None ->
  promise (on_ack response w) = Some o ->
  (truthy (opt_prop response "success") = false /\ o = Throw (failed_error d))
  \/ (exists v, truthy (opt_prop response "success") = true
               /\ cached d (sm w) = Some v /\ o = Ok v).
Proof.
  intros Hi Hp. unfold on_ack. rewrite (inv_domain d h w Hi).
  destruct (truthy (opt_prop response "success")); cbn [negb].
  - rewrite (inv_domain d h w Hi).
    destruct (cached d (sm w)) as [cur|]; [|congruence].
    destruct (finish_inv d h (Ok cur) w Hi (settlement_value d cur)) as (_ & _ & S & _).
    rewrite (S Hp). intros [= <-]. right. exists cur. auto.
  - destruct (finish_inv d h (Throw (failed_error d)) w Hi (settlement_failed d))
      as (I1 & _ & S1 & _).
    fold (failed_error d).
    set (w1 := settle_promise (Throw (failed_error d)) (cleanup w)) in *.
    specialize (S1 Hp).
    assert (H : forall o', promise w1 = Some o' ->
                promise (match cached (domain w1) (sm w1) with
                         | Some currentState => settle_promise (Ok currentState) (cleanup w1)
                         | None => w1
                         end) = Some o').
    { intros o' Ho'. destruct (cached (domain w1) (sm w1)) as [cur|]; [|exact Ho'].
      destruct (finish_inv d h (Ok cur) w1 I1 (settlement_value d cur)) as (_ & S & _).
      apply S, Ho'. }
    rewrite (H _ S1). intros [= <-]. left. auto.
Qed.

(** How a pending call becomes settled, step by step. *)
Lemma step_outcome (d : Domain) (h : nat) (w : World) (ev : Event)
    (o : Outcome JsError JsValue) :
  Inv d h w -> promise w = None ->
  promise (step w ev) = Some o ->
  (ev = TimerFires /\ o = Throw timeout_error)
  \/ (exists data, ev = Push (pushEvent d) data /\ o = Ok data)
  \/ (exists response,
        ev = Ack response
        /\ ((truthy (opt_prop response "success") = false /\ o = Throw (failed_error d))
            \/ (exists v, truthy (opt_prop response "success") = true
                         /\ cached d (sm w) = Some v /\ o = Ok v))).
Proof.
  intros Hi Hp. destruct ev as [|e data|response|c]; cbn [step].
  - destruct (timer w); [|congruence].
    destruct (finish_inv d h (Throw timeout_error) w Hi (settlement_timeout d))
      as (_ & _ & S & _).
    unfold on_timeout. fold timeout_error. rewrite (S Hp). intros [= <-]. left. auto.
  - destruct (ConnectionManager.socket (cm w)) as [sock|] eqn:E; [|congruence].
    destruct (ConnectionManager.sock_connected sock); [|congruence].
    intros H. right. left. exists data.
    destruct (listeners_outcome d h e data (ConnectionManager.sock_listeners sock) w o Hi)
      as [-> ->]; auto.
    intros name Hin. exact (inv_own_event d h w Hi sock name E Hin).
  - intros H. right. right. exists response. split; [reflexivity|].
    exact (on_ack_outcome d h response w o Hi Hp H).
  - cbn. congruence.
Qed.

(** The expiry of the timer leaves the call settled. *)
Lemma timer_settles (d : Domain) (h : nat) (w : World) :
  Inv d h w -> exists o, promise (step w TimerFires) = Some o.
Proof.
  intros Hi. cbn [step]. destruct (promise w) as [o|] eqn:E.
  - destruct (inv_settled d h w Hi o E) as (Ht & _). rewrite Ht. eauto.
  - rewrite (inv_pending d h w Hi E).
    destruct (finish_inv d h (Throw timeout_error) w Hi (settlement_timeout d))
      as (_ & _ & S & _).
    unfold on_timeout. fold timeout_error. rewrite (S E). eauto.
Qed.

(** A successful acknowledgement that finds nothing cached changes
    nothing. *)
Lemma ack_without_snapshot (d : Domain) (h : nat) (w : World) (response : JsValue) :
  Inv d h w -> cached d (sm w) = None ->
  truthy (opt_prop response "success") = true ->
  step w (Ack response) = w.
Proof.
  intros Hi Hc Hs. cbn [step]. unfold on_ack. rewrite Hs. cbn [negb].
  rewrite (inv_domain d h w Hi), Hc. reflexivity.
Qed.

Lemma step_dropped (d : Domain) (h : nat) (w : World) (ev : Event) :
  Inv d h w -> keeps_socket ev = true -> dropped (step w ev) = dropped w.
Proof.
  intros Hi Hne. destruct ev as [|e data|response|c]; cbn [step].
  - destruct (timer w); [|reflexivity].
    apply (finish_preserved d h (Throw timeout_error) w Hi (settlement_timeout d)).
  - destruct (ConnectionManager.socket (cm w)) as [sock|]; [|reflexivity].
    destruct (ConnectionManager.sock_connected sock); [|reflexivity].
    apply (listeners_preserved d h e data _ w Hi).
  - apply (on_ack_preserved d h response w Hi).
  - destruct c; (discriminate Hne || reflexivity).
Qed.

Lemma steps_dropped (d : Domain) (h : nat) (evs : list Event) (w : World) :
  Inv d h w -> (forall ev, ev ∈ evs -> keeps_socket ev = true) ->
  dropped (steps w evs) = dropped w.
Proof.
  revert w. induction evs as [|ev evs IH]; intros w Hi Hn; [reflexivity|].
  cbn. change (foldl step (step w ev) evs) with (steps (step w ev) evs).
  rewrite IH.
  - apply (step_dropped d h w ev Hi). apply Hn, list_elem_of_here.
  - apply (step_preserved d h w ev Hi).
  - intros ev' H. apply Hn, list_elem_of_further, H.
Qed.

(** A get-state call issued while connected, with a listener of its own,
    after any sequence of timer expiry, server messages, acknowledgements
    and operations of the supervisor (connection passes, the events of its
    socket, [disconnect()]): while the call is pending its 5000 ms timer is
    pending too, and the expiry of the timer leaves the call settled; once
    settled, it is settled for good, by a value, by the "failed to get
    state" error or by the timeout error; the timer is then cleared and the
    listener is off the socket the supervisor holds, and off every socket
    if the supervisor has not let go of a socket meanwhile.  A pending call
    is resolved with a value only by the push event of its domain, or by an
    acknowledgement that finds a snapshot cached; a successful
    acknowledgement that finds none changes nothing. *)
Theorem get_state_settles_once
    (opts : ConnectionManager.ConnectionOptions)
    (d : Domain) (h : nat) (sm0 : State) (cm0 : ConnectionManager.State)
    (evs : list Event) :
  ConnectionManager.isConnected cm0 = true -> fresh_handler h cm0 ->
  let w0 := getState opts d h sm0 cm0 in
  let w := steps w0 evs in
  (promise w = None -> timer w = Some 5000)
  /\ (exists o, promise (steps w0 (evs ++ [TimerFires])) = Some o)
  /\ (forall o, promise w = Some o ->
        settlement d o /\ timer w = None /\ ~ registered_on_held w
        /\ ((forall ev, ev ∈ evs -> keeps_socket ev = true) -> ~ registered w)
        /\ forall more, promise (steps w0 (evs ++ more)) = Some o)
  /\ (forall ev o, promise w = None -> promise (step w ev) = Some o ->
        (ev = TimerFires /\ o = Throw timeout_error)
        \/ (exists data, ev = Push (pushEvent d) data /\ o = Ok data)
        \/ (exists response,
              ev = Ack response
              /\ ((truthy (opt_prop response "success") = false
                   /\ o = Throw (failed_error d))
                  \/ (exists v, truthy (opt_prop response "success") = true
                               /\ cached d (sm w) = Some v /\ o = Ok v))))
  /\ (forall response,
        promise w = None -> cached d (sm w) = None ->
        truthy (opt_prop response "success") = true ->
        step w (Ack response) = w).
Proof.
  intros Hc Hf w0 w.
  destruct (getState_inv opts d h sm0 cm0 Hc Hf) as (I0 & _ & _ & D0 & _).
  fold w0 in I0, D0.
  destruct (steps_preserved d h evs w0 I0) as [I _]. fold w in I.
  split; [exact (inv_pending d h w I)|]. split.
  { rewrite steps_snoc. apply (timer_settles d h), I. }
  split.
  { intros o Ho. destruct (inv_settled d h w I o Ho) as (Ht & Hr & Hk).
    split; [exact Hk|]. split; [exact Ht|]. split; [exact Hr|]. split.
    - intros Hn [Hreg|(sock & Hin & _)]; [exact (Hr Hreg)|].
      unfold w in Hin. rewrite (steps_dropped d h evs w0 I0 Hn), D0 in Hin.
      inversion Hin.
    - intros more. rewrite steps_app. apply (steps_preserved d h more _ I), Ho. }
  split.
  { intros ev o Hp Ho. exact (step_outcome d h w ev o I Hp Ho). }
  intros response Hp Hcache Hs. exact (ack_without_snapshot d h w response I Hcache Hs).
Qed.

(** *** A connected facade and a call on it *)

Lemma example_fresh : fresh_handler 1 example_cm.
Proof.
  intros sock name [= <-] Hin. cbn in Hin.
  repeat (apply elem_of_cons in Hin as [Hin|Hin]; [discriminate|]).
  inversion Hin.
Qed.

Lemma get_state_witness :
  ConnectionManager.isConnected example_cm = true /\ fresh_handler 1 example_cm
  /\ promise (steps example_call [Ack (JObj [("success", JBool true)])]) = None
  /\ exists o,
       promise (steps example_call [Ack (JObj [("success", JBool true)]); TimerFires])
       = Some o.
Proof.
  destruct (get_state_settles_once example_options Devices 1
              (initial CacheSpec.example_clock)
              example_cm [Ack (JObj [("success", JBool true)])] eq_refl example_fresh)
    as (_ & H & _).
  split; [reflexivity|]. split; [exact example_fresh|]. split; [reflexivity|exact H].
Defined.

(** C6.  Every settlement path calls [cleanup()], which clears the timer
    and asks the supervisor to remove the one-shot listener; the supervisor's
    [off] acts on the socket it holds at that moment.  When the timer
    expires on a call left alone, the listener is removed from every socket.
    When the client disconnects while the call is pending, the timer still
    rejects the call with the timeout error and is cleared, but [off] finds
    no socket, and the listener stays registered on the socket the
    supervisor has let go of: the teardown of the listener is missed. *)
Theorem listener_survives_disconnect :
  (let w := steps example_call [TimerFires] in
   promise w = Some (Throw timeout_error) /\ timer w = None /\ ~ registered w)
  /\ (let w := steps example_call [Supervisor CallDisconnect; TimerFires] in
      promise w = Some (Throw timeout_error)
      /\ timer w = None
      /\ ~ registered_on_held w
      /\ registered w).
Proof.
  split.
  - intros w.
    assert (Hd : dropped w = []) by (vm_compute; reflexivity).
    assert (Hl : our_listener w = ("device_state", ConnectionManager.Client 1))
      by (vm_compute; reflexivity).
    assert (Hs : ConnectionManager.socket (cm w)
                 = Some (ConnectionManager.MkSocket 50190 true
                           SupervisorSpec.own_listeners)) by (vm_compute; reflexivity).
    split; [vm_compute; reflexivity|]. split; [vm_compute; reflexivity|].
    intros [(sock & H & Hin)|(sock & Hin & _)].
    + rewrite Hs in H. injection H as <-. rewrite Hl in Hin. cbn in Hin.
      repeat (apply elem_of_cons in Hin as [Hin|Hin]; [discriminate|]).
      inversion Hin.
    + rewrite Hd in Hin. inversion Hin.
  - intros w.
    assert (Hd : dropped w
                 = [ConnectionManager.MkSocket 50190 false
                      (SupervisorSpec.own_listeners
                       ++ [("device_state", ConnectionManager.Client 1)])])
      by (vm_compute; reflexivity).
    assert (Hl : our_listener w = ("device_state", ConnectionManager.Client 1))
      by (vm_compute; reflexivity).
    assert (Hs : ConnectionManager.socket (cm w) = None) by (vm_compute; reflexivity).
    split; [vm_compute; reflexivity|]. split; [vm_compute; reflexivity|]. split.
    + intros (sock & H & _). rewrite Hs in H. discriminate.
    + right. eexists. rewrite Hd, Hl. split; [apply list_elem_of_here|].
      cbn [ConnectionManager.sock_listeners]. apply elem_of_app. right.
      apply list_elem_of_here.
Qed.

(** *** The push path *)

Lemma listeners_hit (d : Domain) (h : nat) (data : JsValue)
    (ls : list (string * ConnectionManager.Handler)) (w : World) :
  Inv d h w ->
  (forall name, (name, ConnectionManager.Client h) ∈ ls -> name = push_name d) ->
  (push_name d, ConnectionManager.Client h) ∈ ls ->
  promise w = None \/ promise w = Some (Ok data) ->
  promise (foldl (fun w' l => call_listener (pushEvent d) data l w') w ls)
  = Some (Ok data).
Proof.
  revert w. induction ls as [|l ls IH]; intros w Hi Hls Hin Hp; [inversion Hin|].
  cbn [foldl].
  pose proof (call_listener_preserved d h (pushEvent d) data l w Hi) as (I1 & S1 & _).
  assert (Hp1 : promise (call_listener (pushEvent d) data l w) = None
                \/ promise (call_listener (pushEvent d) data l w) = Some (Ok data)).
  { destruct Hp as [Hp|Hp]; [|right; apply S1, Hp].
    destruct (promise (call_listener (pushEvent d) data l w)) as [o|] eqn:E; [|auto].
    right. f_equal.
    apply (call_listener_outcome d h (pushEvent d) data l w o Hi); [|exact Hp|exact E].
    intros name ->. apply Hls, list_elem_of_here. }
  apply elem_of_cons in Hin as [<-|Hin].
  - destruct (listeners_preserved d h (pushEvent d) data ls _ I1) as (_ & S & _).
    apply S. unfold call_listener. cbn [fst snd].
    rewrite event_name_push_eq, bool_decide_eq_true_2 by reflexivity.
    rewrite bool_decide_eq_true_2 by (symmetry; apply (inv_handler d h w Hi)).
    destruct (finish_inv d h (Ok data) w Hi (settlement_value d data)) as (_ & S2 & S3 & _).
    unfold on_push. destruct Hp as [Hp|Hp]; [apply S3, Hp|apply S2, Hp].
  - apply (IH _ I1); [|exact Hin|exact Hp1].
    intros name Hn. apply Hls, list_elem_of_further, Hn.
Qed.

Lemma push_resolves (d : Domain) (h : nat) (w : World) (data : JsValue)
    (sock : ConnectionManager.Socket) :
  Inv d h w -> promise w = None ->
  ConnectionManager.socket (cm w) = Some sock ->
  ConnectionManager.sock_connected sock = true ->
  (push_name d, ConnectionManager.Client h) ∈ ConnectionManager.sock_listeners sock ->
  promise (step w (Push (pushEvent d) data)) = Some (Ok data).
Proof.
  intros Hi Hp Hs Hc Hin. cbn [step]. rewrite Hs, Hc.
  apply (listeners_hit d h data _ w Hi); [|exact Hin|left; exact Hp].
  intros name Hn. exact (inv_own_event d h w Hi sock name Hs Hn).
Qed.

(** C10.  A pending get-state call that a server message settles is
    settled by the push event of its domain and with the payload exactly as
    the socket delivered it; the domain's push does settle a call whose
    listener is on the connected socket the supervisor holds, in particular a
    call just issued.  The value is not the snapshot the state manager stores
    for the same message: for a device payload with two empty entries the
    cache gets [physicalDeviceInfo: null] and the clock's timestamps, the
    caller gets the empty entries. *)
Theorem push_resolves_with_raw_payload
    (opts : ConnectionManager.ConnectionOptions)
    (d : Domain) (h : nat) (sm0 : State) (cm0 : ConnectionManager.State)
    (evs : list Event) (data : JsValue) :
  ConnectionManager.isConnected cm0 = true -> fresh_handler h cm0 ->
  let w0 := getState opts d h sm0 cm0 in
  let w := steps w0 evs in
  promise w = None ->
  (forall e o, promise (step w (Push e data)) = Some o -> e = pushEvent d /\ o = Ok data)
  /\ (forall sock,
        ConnectionManager.socket (cm w) = Some sock ->
        ConnectionManager.sock_connected sock = true ->
        our_listener w ∈ ConnectionManager.sock_listeners sock ->
        promise (step w (Push (pushEvent d) data)) = Some (Ok data))
  /\ promise (step w0 (Push (pushEvent d) data)) = Some (Ok data)
  /\ (let w' := step example_call (Push device_state bare_payload) in
      promise w' = Some (Ok bare_payload)
      /\ cached Devices (sm w')
         = Some (CacheSpec.device_snapshot JNull (JNum 1700000000000)
                   JNull (JNum 1700000000001))
      /\ CacheSpec.field2 bare_payload "0" "updatedAt" = Ok JUndefined
      /\ CacheSpec.field2 bare_payload "0" "physicalDeviceInfo" = Ok JUndefined).
Proof.
  intros Hc Hf w0 w Hp.
  destruct (getState_inv opts d h sm0 cm0 Hc Hf) as (I0 & P0 & R0 & _).
  fold w0 in I0, P0, R0.
  destruct (steps_preserved d h evs w0 I0) as [I _]. fold w in I.
  split; [|split; [|split]].
  - intros e o Ho. destruct (step_outcome d h w (Push e data) o I Hp Ho)
      as [[[=] _]|[(data' & [= -> <-] & ->)|(response & [=] & _)]].
    split; reflexivity.
  - intros sock Hs Hcon Hin. unfold our_listener in Hin.
    rewrite (inv_domain d h w I), (inv_handler d h w I) in Hin.
    exact (push_resolves d h w data sock I Hp Hs Hcon Hin).
  - destruct R0 as (sock & Hs & Hin). unfold our_listener in Hin.
    rewrite (inv_domain d h w0 I0), (inv_handler d h w0 I0) in Hin.
    apply (push_resolves d h w0 data sock I0 P0 Hs); [|exact Hin].
    unfold w0, getState in Hs. rewrite Hc in Hs. cbn in Hs.
    unfold ConnectionManager.isConnected in Hc. unfold ConnectionManager.on in Hs.
    destruct (ConnectionManager.socket cm0) as [s0|]; [|discriminate].
    cbn in Hs. injection Hs as <-. exact Hc.
  - vm_compute. repeat split.
Qed.

Lemma push_resolves_witness :
  ConnectionManager.isConnected example_cm = true /\ fresh_handler 1 example_cm
  /\ promise (steps example_call []) = None
  /\ promise (step example_call (Push device_state bare_payload)) = Some (Ok bare_payload).
Proof.
  destruct (push_resolves_with_raw_payload example_options Devices 1
              (initial CacheSpec.example_clock) example_cm [] bare_payload
              eq_refl example_fresh eq_refl) as (_ & _ & H & _).
  split; [reflexivity|]. split; [exact example_fresh|]. split; [reflexivity|exact H].
Defined.

End RequestFacts.

(** ** The handler tables: registration and dispatch *)

Module HandlerFacts.
Import Js StateManager EventHandlers HandlerSpec.

Lemma called_calls (b : Behaviour) (text : string) (data : JsValue)
    (handlers : list EventHandler) :
  called (flat_map (call_handler b text data) handlers) = handlers.
Proof.
  induction handlers as [|h hs IH]; [reflexivity|].
  cbn [flat_map]. unfold called in *. rewrite flat_map_app, IH.
  unfold call_handler. destruct (b h data); reflexivity.
Qed.

Lemma calls_data (b : Behaviour) (text : string) (data : JsValue)
    (handlers : list EventHandler) (h : EventHandler) (d : JsValue) :
  Called h d ∈ flat_map (call_handler b text data) handlers -> d = data.
Proof.
  induction handlers as [|h0 hs IH]; cbn [flat_map]; [inversion 1|].
  intros H. apply elem_of_app in H as [H|H]; [|exact (IH H)].
  unfold call_handler in H. apply elem_of_cons in H as [H|H]; [congruence|].
  destruct (b h0 data); [apply list_elem_of_singleton in H; discriminate|inversion H].
Qed.

Lemma handler_add_NoDup (h : EventHandler) (hs : list EventHandler) :
  NoDup hs -> NoDup (set_add h hs).
Proof.
  intros H. unfold set_add. destruct (bool_decide_reflect (h ∈ hs)) as [|Hn]; [exact H|].
  apply NoDup_app. split; [exact H|]. split; [|apply NoDup_singleton].
  intros x Hx Hx'. apply list_elem_of_singleton in Hx'. subst. exact (Hn Hx).
Qed.

Lemma elem_of_handler_add (h x : EventHandler) (hs : list EventHandler) :
  x ∈ set_add h hs <-> x = h \/ x ∈ hs.
Proof.
  unfold set_add. destruct (bool_decide_reflect (h ∈ hs)) as [Hin|Hn].
  - split; [auto|]. intros [->|H]; assumption.
  - rewrite elem_of_app, list_elem_of_singleton. tauto.
Qed.

Lemma handler_delete_NoDup (h : EventHandler) (hs : list EventHandler) :
  NoDup hs -> NoDup (set_delete h hs).
Proof. intros H. unfold set_delete. apply NoDup_filter, H. Qed.

Lemma elem_of_handler_delete (h x : EventHandler) (hs : list EventHandler) :
  x ∈ set_delete h hs <-> x <> h /\ x ∈ hs.
Proof. unfold set_delete. rewrite list_elem_of_filter. tauto. Qed.

Lemma registered_snoc (ops : list TableOp) (op : TableOp) (event : string)
    (h : EventHandler) :
  registered (ops ++ [op]) event h = registers event h (registered ops event h) op.
Proof. unfold registered. apply foldl_snoc. Qed.

Lemma tracks_nil (event : string) : tracks [] event [].
Proof.
  split; [apply NoDup_nil_2|]. intros h. split; [inversion 1|discriminate].
Qed.

Lemma tracks_other (ops : list TableOp) (op : TableOp) (event : string)
    (handlers : list EventHandler) :
  (forall h, registers event h (registered ops event h) op = registered ops event h) ->
  tracks ops event handlers -> tracks (ops ++ [op]) event handlers.
Proof.
  intros Hsame [Hd Hm]. split; [exact Hd|].
  intros h. rewrite registered_snoc, Hsame. apply Hm.
Qed.

Lemma tracks_on (ops : list TableOp) (event : string) (handler : EventHandler)
    (handlers : list EventHandler) :
  tracks ops event handlers ->
  tracks (ops ++ [OpOn event handler]) event (set_add handler handlers).
Proof.
  intros [Hd Hm]. split; [apply handler_add_NoDup, Hd|].
  intros h. rewrite registered_snoc, elem_of_handler_add. cbn [registers].
  destruct (bool_decide_reflect (event = event /\ handler = h)) as [[_ ->]|Hn].
  - split; auto.
  - rewrite <- Hm. split; [intros [->|H]; [destruct Hn; auto|exact H]|auto].
Qed.

Lemma tracks_off (ops : list TableOp) (event : string) (handler : EventHandler)
    (handlers : list EventHandler) :
  tracks ops event handlers ->
  tracks (ops ++ [OpOff event (Some handler)]) event (set_delete handler handlers).
Proof.
  intros [Hd Hm]. split; [apply handler_delete_NoDup, Hd|].
  intros h. rewrite registered_snoc, elem_of_handler_delete. cbn [registers].
  destruct (bool_decide_reflect (event = event /\ handler = h)) as [[_ ->]|Hn].
  - split; [intros [H _]; destruct H; reflexivity|discriminate].
  - rewrite <- Hm. split; [tauto|]. intros H. split; [|exact H].
    intros ->. apply Hn. auto.
Qed.

Lemma tracks_clear (ops : list TableOp) (event : string) (handlers : list EventHandler) :
  tracks (ops ++ [OpOff event None]) event [].
Proof.
  split; [apply NoDup_nil_2|].
  intros h. rewrite registered_snoc. cbn [registers].
  rewrite bool_decide_eq_true_2 by reflexivity. split; [inversion 1|discriminate].
Qed.

Lemma create_lookup (event : string) :
  create !! event
  = if bool_decide (event ∈ map sdk_event SDK_EVENTS) then Some [] else None.
Proof.
  destruct (bool_decide_reflect (event ∈ map sdk_event SDK_EVENTS)) as [Hin|Hn].
  - cbn in Hin.
    repeat (apply elem_of_cons in Hin as [->|Hin]; [vm_compute; reflexivity|]).
    inversion Hin.
  - unfold create, SDK_EVENTS. cbn [foldl sdk_event].
    repeat (etransitivity;
            [apply lookup_insert_ne; intros <-; apply Hn; cbn;
             repeat first [apply list_elem_of_here | apply list_elem_of_further]|]).
    apply lookup_empty.
Qed.

Lemma known_event (e : SDKEvent) : sdk_event e ∈ map sdk_event SDK_EVENTS.
Proof.
  destruct e; cbn;
    repeat first [apply list_elem_of_here | apply list_elem_of_further].
Qed.

(** The table after any calls: the events of the enum, and only they, have
    a set, and the set holds what is registered. *)
Lemma table_tracks (ops : list TableOp) (event : string) :
  let t := foldl apply_op create ops in
  if bool_decide (event ∈ map sdk_event SDK_EVENTS)
  then exists handlers, t !! event = Some handlers /\ tracks ops event handlers
  else t !! event = None.
Proof.
  induction ops as [|op ops IH] using rev_ind; cbn zeta.
  - cbn [foldl]. rewrite create_lookup.
    destruct (bool_decide (event ∈ map sdk_event SDK_EVENTS)); [|reflexivity].
    exists []. split; [reflexivity|apply tracks_nil].
  - rewrite foldl_snoc. cbn zeta in IH. set (t := foldl apply_op create ops) in *.
    assert (Hother : forall e h, e <> event ->
              forall x, registers event x (registered ops event x) (OpOn e h)
                        = registered ops event x).
    { intros e h Hne x. cbn [registers]. rewrite bool_decide_eq_false_2; [reflexivity|].
      intros [? _]. contradiction. }
    assert (Hother' : forall e h, e <> event ->
              forall x, registers event x (registered ops event x) (OpOff e h)
                        = registered ops event x).
    { intros e h Hne x. destruct h as [h|]; cbn [registers];
        (rewrite bool_decide_eq_false_2; [reflexivity|]); [intros [? _]|intros ?];
        contradiction. }
    destruct op as [e h|e h]; cbn [apply_op]; unfold on, off, Table in *.
    + destruct (decide (e = event)) as [->|Hne].
      * destruct (bool_decide (event ∈ map sdk_event SDK_EVENTS)).
        -- destruct IH as (hs & Ht & Htr). rewrite Ht, lookup_insert_eq.
           eexists. split; [reflexivity|apply tracks_on, Htr].
        -- rewrite IH. exact IH.
      * assert (Hl : match t !! e with
                     | Some handlers => <[e:=set_add h handlers]> t
                     | None => t
                     end !! event = t !! event).
        { destruct (t !! e); [apply lookup_insert_ne, Hne|reflexivity]. }
        rewrite Hl. destruct (bool_decide (event ∈ map sdk_event SDK_EVENTS)).
        -- destruct IH as (hs & Ht & Htr). exists hs. split; [exact Ht|].
           apply tracks_other; [apply Hother, Hne|exact Htr].
        -- exact IH.
    + destruct (decide (e = event)) as [->|Hne].
      * destruct (bool_decide (event ∈ map sdk_event SDK_EVENTS)).
        -- destruct IH as (hs & Ht & Htr). rewrite Ht.
           destruct h as [h|]; rewrite lookup_insert_eq; eexists;
             (split; [reflexivity|]); [apply tracks_off, Htr|apply (tracks_clear ops event hs)].
        -- rewrite IH. exact IH.
      * assert (Hl : match t !! e with
                     | Some handlers =>
                         match h with
                         | Some h0 => <[e:=set_delete h0 handlers]> t
                         | None => <[e:=[]]> t
                         end
                     | None => t
                     end !! event = t !! event).
        { destruct (t !! e); [|reflexivity].
          destruct h; apply lookup_insert_ne, Hne. }
        rewrite Hl. destruct (bool_decide (event ∈ map sdk_event SDK_EVENTS)).
        -- destruct IH as (hs & Ht & Htr). exists hs. split; [exact Ht|].
           apply tracks_other; [apply Hother', Hne|exact Htr].
        -- exact IH.
Qed.

Lemma dispatch_calls_registered_handlers_table
    (b : Behaviour) (ops : list TableOp) (e : SDKEvent) (data : JsValue) :
  let effects := dispatch b (sdk_event e) data (foldl apply_op create ops) in
  NoDup (called effects)
  /\ (forall h, h ∈ called effects <-> registered ops (sdk_event e) h = true).
Proof.
  cbn zeta. pose proof (table_tracks ops (sdk_event e)) as H. cbn zeta in H.
  rewrite bool_decide_eq_true_2 in H by apply known_event.
  destruct H as (hs & Ht & Hd & Hm). unfold dispatch. rewrite Ht.
  rewrite !called_calls. split; [exact Hd|exact Hm].
Qed.

(** After any calls of [on] and [off] on the table the constructor made, a
    dispatch for an event of the enum calls every handler registered for it
    exactly once, each with the data of the dispatch, and calls no other;
    whether handlers throw makes no difference to who is called. *)
Theorem dispatch_calls_registered_handlers_once
    (b : Behaviour) (ops : list TableOp) (e : SDKEvent) (data : JsValue) :
  let effects := dispatch b (sdk_event e) data (foldl apply_op create ops) in
  NoDup (called effects)
  /\ (forall h, h ∈ called effects <-> registered ops (sdk_event e) h = true)
  /\ (forall h d, Called h d ∈ effects -> d = data)
  /\ called effects
     = called (dispatch always_throws (sdk_event e) data (foldl apply_op create ops)).
Proof.
  cbn zeta. pose proof (table_tracks ops (sdk_event e)) as H. cbn zeta in H.
  rewrite bool_decide_eq_true_2 in H by apply known_event.
  destruct H as (hs & Ht & Hd & Hm). unfold dispatch. rewrite Ht.
  rewrite !called_calls. split; [exact Hd|]. split; [exact Hm|]. split; [|reflexivity].
  intros h d. apply calls_data.
Qed.

(** For a name that is not an event of the enum, [on] and [off] change
    nothing and a dispatch calls nobody. *)
Theorem unknown_event_is_ignored
    (b : Behaviour) (ops : list TableOp) (event : string) (handler : EventHandler)
    (data : JsValue) :
  event ∉ map sdk_event SDK_EVENTS ->
  let t := foldl apply_op create ops in
  on event handler t = t
  /\ off event (Some handler) t = t
  /\ off event None t = t
  /\ dispatch b event data t = [].
Proof.
  intros Hn. cbn zeta. pose proof (table_tracks ops event) as H. cbn zeta in H.
  rewrite bool_decide_eq_false_2 in H by exact Hn.
  unfold on, off, dispatch. rewrite H. repeat split.
Qed.

Lemma unknown_event_witness :
  ("deviceChanged" ∉ map sdk_event SDK_EVENTS)
  /\ dispatch always_throws "deviceChanged" JNull
       (foldl apply_op create [OpOn "deviceChanged" 1%nat]) = [].
Proof.
  assert (H : "deviceChanged" ∉ map sdk_event SDK_EVENTS).
  { intros H. cbn in H. repeat (apply elem_of_cons in H as [H|H]; [discriminate|]).
    inversion H. }
  split; [exact H|].
  apply (unknown_event_is_ignored always_throws [OpOn "deviceChanged" 1%nat]
           "deviceChanged" 1%nat JNull H).
Defined.

(** *** The handlers of the facade *)

Lemma facade_table (ops : list TableOp) :
  Sdk.eventHandlers (foldl apply_facade_op Sdk.handlers_created ops)
  = foldl apply_op create (filter for_table ops).
Proof.
  induction ops as [|op ops IH] using rev_ind; [reflexivity|].
  rewrite foldl_snoc, filter_app. cbn [filter list_filter].
  unfold for_table at 2.
  destruct op as [e h|e h]; cbn [apply_facade_op op_event]; unfold Sdk.on, Sdk.off;
    destruct (bool_decide_reflect (e = sdk_event CONNECTION_CHANGED)) as [He|He].
  - rewrite decide_False by (intros Hb; apply bool_decide_unpack in Hb; exact (Hb He)).
    rewrite app_nil_r. destruct h; exact IH.
  - rewrite decide_True by (apply bool_decide_pack; exact He).
    rewrite foldl_snoc. cbn [Sdk.eventHandlers apply_op]. rewrite IH. reflexivity.
  - rewrite decide_False by (intros Hb; apply bool_decide_unpack in Hb; exact (Hb He)).
    rewrite app_nil_r. destruct h; exact IH.
  - rewrite decide_True by (apply bool_decide_pack; exact He).
    rewrite foldl_snoc. cbn [Sdk.eventHandlers apply_op]. rewrite IH. reflexivity.
Qed.

Lemma registered_for_table (ops : list TableOp) (event : string) (h : EventHandler) :
  event <> sdk_event CONNECTION_CHANGED ->
  registered (filter for_table ops) event h = registered ops event h.
Proof.
  intros Hne. induction ops as [|op ops IH] using rev_ind; [reflexivity|].
  rewrite filter_app, registered_snoc. cbn [filter list_filter].
  destruct (decide (for_table op)) as [Hk|Hk].
  - rewrite registered_snoc, IH. reflexivity.
  - rewrite app_nil_r, IH. unfold for_table in Hk.
    assert (He : op_event op = sdk_event CONNECTION_CHANGED).
    { destruct (decide (op_event op = sdk_event CONNECTION_CHANGED)) as [E|E]; [exact E|].
      destruct Hk. apply bool_decide_pack. exact E. }
    destruct op as [e x|e [x|]]; cbn [op_event] in He; cbn [registers];
      (rewrite bool_decide_eq_false_2; [reflexivity|]);
      first [intros [E _]|intros E]; apply Hne; congruence.
Qed.

Lemma not_registered_for_table (ops : list TableOp) (h : EventHandler) :
  registered (filter for_table ops) (sdk_event CONNECTION_CHANGED) h = false.
Proof.
  induction ops as [|op ops IH] using rev_ind; [reflexivity|].
  rewrite filter_app. cbn [filter list_filter].
  destruct (decide (for_table op)) as [Hk|Hk]; [|rewrite app_nil_r; exact IH].
  rewrite registered_snoc, IH. apply bool_decide_unpack in Hk.
  destruct op as [e x|e [x|]]; cbn [op_event] in Hk; cbn [registers].
  - rewrite bool_decide_eq_false_2; [reflexivity|]. intros [E _]. exact (Hk E).
  - destruct (bool_decide _); reflexivity.
  - destruct (bool_decide _); reflexivity.
Qed.

Lemma connection_handlers_track (ops : list TableOp) :
  tracks ops (sdk_event CONNECTION_CHANGED)
    (Sdk.connectionChangeHandlers (foldl apply_facade_op Sdk.handlers_created ops)).
Proof.
  induction ops as [|op ops IH] using rev_ind; [apply tracks_nil|].
  rewrite foldl_snoc.
  destruct op as [e h|e h]; cbn [apply_facade_op]; unfold Sdk.on, Sdk.off;
    destruct (bool_decide_reflect (e = sdk_event CONNECTION_CHANGED)) as [->|He];
    cbn [Sdk.connectionChangeHandlers].
  - apply tracks_on, IH.
  - apply tracks_other; [|exact IH]. intros x. cbn [registers].
    rewrite bool_decide_eq_false_2; [reflexivity|]. intros [E _]. exact (He E).
  - destruct h as [h|]; cbn [Sdk.connectionChangeHandlers];
      [apply tracks_off, IH|apply (tracks_clear ops _ [])].
  - apply tracks_other; [|exact IH]. intros x.
    destruct h as [h|]; cbn [registers];
      (rewrite bool_decide_eq_false_2; [reflexivity|]);
      first [intros [E _]|intros E]; exact (He E).
Qed.

(** After any calls of the facade's [on] and [off], a connection change is
    announced to every handler registered for [connectionChanged] exactly
    once, with the status without its port, although two loops run: the
    table's own set for that event stays empty.  A dispatch for any other
    event calls every handler registered for it exactly once. *)
Theorem connection_change_reaches_each_handler_once
    (b : Behaviour) (ops : list TableOp) (status : ConnectionManager.ConnectionStatus) :
  let r := foldl apply_facade_op Sdk.handlers_created ops in
  let effects := Sdk.announce b status r in
  NoDup (called effects)
  /\ (forall h, h ∈ called effects
                <-> registered ops (sdk_event CONNECTION_CHANGED) h = true)
  /\ (forall h d, Called h d ∈ effects -> d = Sdk.connection_state status)
  /\ opt_prop (Sdk.connection_state status) "port" = JUndefined
  /\ Sdk.eventHandlers r !! sdk_event CONNECTION_CHANGED = Some []
  /\ (forall (e : SDKEvent) (data : JsValue),
        e <> CONNECTION_CHANGED ->
        let others := dispatch b (sdk_event e) data (Sdk.eventHandlers r) in
        NoDup (called others)
        /\ forall h, h ∈ called others <-> registered ops (sdk_event e) h = true).
Proof.
  cbn zeta.
  assert (Hcc : Sdk.eventHandlers (foldl apply_facade_op Sdk.handlers_created ops)
                !! sdk_event CONNECTION_CHANGED = Some []).
  { rewrite facade_table.
    pose proof (table_tracks (filter for_table ops) (sdk_event CONNECTION_CHANGED)) as H.
    cbn zeta in H. rewrite bool_decide_eq_true_2 in H by apply known_event.
    destruct H as (hs & Ht & _ & Hm). rewrite Ht. f_equal.
    destruct hs as [|h hs]; [reflexivity|].
    pose proof (proj1 (Hm h) (list_elem_of_here _ _)) as Hr.
    rewrite not_registered_for_table in Hr. discriminate. }
  destruct (connection_handlers_track ops) as [Hd Hm].
  unfold Sdk.announce, dispatch. rewrite Hcc. cbn [flat_map]. rewrite app_nil_r.
  rewrite called_calls.
  split; [exact Hd|]. split; [exact Hm|]. split; [intros h d; apply calls_data|].
  split; [reflexivity|]. split; [reflexivity|].
  intros e data He.
  assert (Hne : sdk_event e <> sdk_event CONNECTION_CHANGED)
    by (destruct e; try discriminate; destruct He; reflexivity).
  rewrite facade_table.
  destruct (dispatch_calls_registered_handlers_table b (filter for_table ops) e data)
    as (H1 & H2).
  split; [exact H1|]. intros h. rewrite H2. rewrite registered_for_table by exact Hne.
  reflexivity.
Qed.

End HandlerFacts.

(** ** The connection supervisor: ports, statuses and invariants *)

Module SupervisorInvariants.
Import Js ConnectionManager SupervisorSpec SupervisorFacts PortsSpec.

Lemma connected_attempt_state (opts : ConnectionOptions) (net : Z -> Transport) (p : Z)
    (s : State) :
  net p = Connects ->
  attempt_port opts net p s
  = MkRun (Ok None) (connected_at p (reconnectTimer s)) [connected_status p].
Proof.
  intros H. unfold attempt_port. crun. rewrite H. reflexivity.
Qed.

Lemma failed_port_timer (p : Z) (t : Transport) (s : State) :
  reconnectTimer (failed_port p t s) = reconnectTimer s.
Proof. reflexivity. Qed.

Lemma try_ports_first (opts : ConnectionOptions) (net : Z -> Transport)
    (before : list Z) (p : Z) (after : list Z) (lastError : option JsError) (s : State) :
  Forall (fun q => net q <> Connects) before -> net p = Connects ->
  try_ports opts net (before ++ p :: after) lastError s
  = MkRun (Ok None) (connected_at p (reconnectTimer s)) [connected_status p].
Proof.
  intros Hb Hp. revert lastError s.
  induction Hb as [|q before Hq _ IH]; intros lastError s; cbn [app try_ports];
    cbv beta iota delta [mbind eff_bind bind].
  - rewrite (connected_attempt_state opts net p s Hp). reflexivity.
  - rewrite (failed_attempt opts net q s Hq). cbv beta iota.
    rewrite IH. reflexivity.
Qed.

Lemma connect_first (opts : ConnectionOptions) (net : Z -> Transport)
    (before : list Z) (p : Z) (after : list Z) (s : State) :
  first_connects net before p after ->
  isConnected s = false -> isConnecting s = false ->
  connect opts net s
  = MkRun (Ok tt) (connected_at p (reconnectTimer s))
      [connecting_status; connected_status p].
Proof.
  intros (Hports & Hb & Hp) Hc Hi. unfold connect.
  cbv beta iota zeta delta
    [try_catch mbind eff_bind bind mret eff_ret ret lift throw modify get_state notify
     onConnectionChange].
  rewrite Hc, Hi. cbv beta iota. rewrite Hports.
  rewrite (try_ports_first opts net before p after None _ Hb Hp). reflexivity.
Qed.

Lemma ports_fail_or_connect (net : Z -> Transport) :
  all_ports_fail net \/ exists before p after, first_connects net before p after.
Proof.
  assert (D : forall q, {net q = Connects} + {net q <> Connects})
    by (intros q; destruct (net q); (left; reflexivity) || (right; discriminate)).
  destruct (D 50190) as [H0|H0].
  { right. exists [], 50190, [50191; 50192]. repeat split; [constructor|exact H0]. }
  destruct (D 50191) as [H1|H1].
  { right. exists [50190], 50191, [50192]. repeat split; [|exact H1].
    constructor; [exact H0|constructor]. }
  destruct (D 50192) as [H2|H2].
  { right. exists [50190; 50191], 50192, []. repeat split; [|exact H2].
    constructor; [exact H0|]. constructor; [exact H1|constructor]. }
  left. intros p [<-|[<-|[<-|[]]]]; assumption.
Qed.

(** With the ports before [p] failing and [p] accepting, a pass of
    [connect()] resolves, reports the connecting status and then the
    connected status with port [p], holds a connected socket on port [p]
    with the supervisor's listeners only, and [getStatus()] answers with
    port [p]; what the transport would do at the later ports makes no
    difference, they are not tried. *)
Theorem first_reachable_port_wins
    (opts : ConnectionOptions) (net : Z -> Transport)
    (before : list Z) (p : Z) (after : list Z) (s : State) :
  first_connects net before p after ->
  isConnected s = false -> isConnecting s = false ->
  let r := connect opts net s in
  result r = Ok tt
  /\ trace r = [connecting_status; connected_status p]
  /\ socket (final r) = Some (MkSocket p true own_listeners)
  /\ getStatus (final r) = connected_status p
  /\ reconnectAttempts (final r) = 0
  /\ (forall net' : Z -> Transport,
        (forall q, In q (before ++ [p]) -> net' q = net q) ->
        connect opts net' s = r).
Proof.
  intros Hf Hc Hi r. unfold r. rewrite (connect_first opts net before p after s Hf Hc Hi).
  repeat (split; [reflexivity|]).
  intros net' Hagree. apply (connect_first opts net' before p after s); [|exact Hc|exact Hi].
  destruct Hf as (Hports & Hb & Hp). split; [exact Hports|]. split.
  - apply Forall_forall. intros q Hq.
    rewrite Hagree by (apply in_or_app; left; apply list_elem_of_In, Hq).
    rewrite Forall_forall in Hb. apply Hb, Hq.
  - rewrite Hagree by (apply in_or_app; right; left; reflexivity). exact Hp.
Qed.

Lemma first_reachable_port_witness :
  first_connects second_port_only [50190] 50191 [50192]
  /\ getStatus (final (connect (MkOptions None None None) second_port_only initial))
     = connected_status 50191.
Proof.
  assert (H : first_connects second_port_only [50190] 50191 [50192]).
  { repeat split. constructor; [discriminate|constructor]. }
  split; [exact H|].
  apply (first_reachable_port_wins (MkOptions None None None) second_port_only
           [50190] 50191 [50192] initial H eq_refl eq_refl).
Defined.

(** [connect()] on a supervisor that is connected, or in the middle of a
    pass, resolves at once: no status is reported and nothing changes.  In
    particular a second [connect()] after one that connected does nothing,
    whatever the transport would do. *)
Theorem connect_when_connected_does_nothing
    (opts : ConnectionOptions) (net net' : Z -> Transport) (s : State) :
  (isConnected s = true \/ isConnecting s = true ->
   connect opts net s = MkRun (Ok tt) s [])
  /\ (isConnected s = false -> isConnecting s = false ->
      (exists before p after, first_connects net before p after) ->
      connect opts net' (final (connect opts net s))
      = MkRun (Ok tt) (final (connect opts net s)) []).
Proof.
  assert (H : forall n s0, isConnected s0 = true \/ isConnecting s0 = true ->
                connect opts n s0 = MkRun (Ok tt) s0 []).
  { intros n s0 H0. unfold connect.
    cbv beta iota zeta delta [mbind eff_bind bind mret eff_ret ret get_state].
    destruct (isConnected s0); [reflexivity|].
    destruct H0 as [H0|H0]; [discriminate|]. rewrite H0. reflexivity. }
  split; [apply H|].
  intros Hc Hi (before & p & after & Hf). apply H. left.
  rewrite (connect_first opts net before p after s Hf Hc Hi). reflexivity.
Qed.

Lemma connect_when_connected_witness :
  let s := final (connect (MkOptions None None None) second_port_only initial) in
  isConnected s = true
  /\ connect (MkOptions None None None) refusing s = MkRun (Ok tt) s [].
Proof.
  intros s. split; [reflexivity|].
  apply (proj1 (connect_when_connected_does_nothing (MkOptions None None None)
                  refusing refusing s)).
  left. reflexivity.
Defined.

(** When every port fails, the failure status is reported once with
    auto-reconnect enabled and twice with auto-reconnect disabled: the
    [throw] in the [try] block is caught by the [catch] of the same
    function, which reports the status again before it throws again. *)
Theorem failure_status_is_reported_twice_without_auto_reconnect
    (opts : ConnectionOptions) (net : Z -> Transport) (s : State) :
  isConnected s = false -> isConnecting s = false -> all_ports_fail net ->
  let failure := status_of_error (aggregate_failure opts net) in
  (auto_reconnect_enabled opts = false ->
   trace (connect opts net s) = [connecting_status; failure; failure])
  /\ (auto_reconnect_enabled opts = true ->
      trace (connect opts net s)
      = [connecting_status; failure]
        ++ (if limit_reached opts s then [max_attempts_status opts] else [])).
Proof.
  intros Hc Hi Hall failure. rewrite (connect_all_fail opts net s Hc Hi Hall). cbv zeta.
  split; intros ->; [reflexivity|]. destruct (limit_reached opts s); reflexivity.
Qed.

Lemma failure_status_witness :
  trace (connect (MkOptions None (Some false) None) refusing initial)
  = [connecting_status;
     failure_status (CONNECTION_REFUSED, "Connection refused: websocket error");
     failure_status (CONNECTION_REFUSED, "Connection refused: websocket error")].
Proof.
  exact (proj1 (failure_status_is_reported_twice_without_auto_reconnect
                  (MkOptions None (Some false) None) refusing initial eq_refl eq_refl
                  refusing_fails) eq_refl).
Defined.

(** *** What one call keeps *)

Lemma settled_initial (opts : ConnectionOptions) : Settled opts initial.
Proof.
  split; cbn.
  - reflexivity.
  - reflexivity.
  - lia.
  - intros m _. lia.
  - exists 0%nat. reflexivity.
  - reflexivity.
  - discriminate.
  - discriminate.
Qed.

Lemma settled_connected (opts : ConnectionOptions) (s : State) (p : Z) :
  Settled opts s -> In p DEFAULT_PORTS ->
  Settled opts (connected_at p (reconnectTimer s)).
Proof.
  intros [H1 H2 H3 H4 H5 H6 H7 H8] Hp. split; cbn.
  - reflexivity.
  - reflexivity.
  - lia.
  - intros m _. lia.
  - exists 0%nat. reflexivity.
  - exact H6.
  - exact H7.
  - intros sock [= <-]. cbn. split; [reflexivity|exact Hp].
Qed.

Lemma settled_exhausted (opts : ConnectionOptions) (net : Z -> Transport) (s : State) :
  Settled opts s -> Settled opts (exhausted net s).
Proof.
  intros [H1 H2 H3 H4 H5 H6 H7 H8]. split; cbn.
  - reflexivity.
  - destruct (net 50192); try reflexivity.
    destruct (net 50191); try reflexivity.
    destruct (net 50190); try reflexivity. exact H2.
  - exact H3.
  - exact H4.
  - exact H5.
  - exact H6.
  - exact H7.
  - discriminate.
Qed.

Lemma settled_scheduled (opts : ConnectionOptions) (s : State) :
  auto_reconnect_enabled opts = true ->
  Settled opts s -> Settled opts (final (scheduleReconnect opts s)).
Proof.
  intros Ha [H1 H2 H3 H4 H5 H6 H7 H8]. rewrite scheduleReconnect_run.
  destruct (limit_reached opts s) eqn:El; cbn [final].
  - split; cbn; try assumption; [intros _; reflexivity|discriminate].
  - split; cbn; try assumption.
    + lia.
    + intros m Hm. unfold limit_reached in El. rewrite Hm in El.
      rewrite Z.geb_leb in El. apply Z.leb_gt in El. lia.
    + destruct H5 as [n Hn]. exists (S n). rewrite Hn. reflexivity.
    + rewrite Ha. discriminate.
    + intros d [= <-]. exact H5.
Qed.

Lemma settled_connect (opts : ConnectionOptions) (net : Z -> Transport) (s : State) :
  Settled opts s -> Settled opts (final (connect opts net s)).
Proof.
  intros Hs. destruct (isConnected s) eqn:Hc.
  { rewrite (proj1 (connect_when_connected_does_nothing opts net net s)) by auto.
    exact Hs. }
  pose proof (settled_connecting opts s Hs) as Hi.
  destruct (ports_fail_or_connect net) as [Hall|(before & p & after & Hf)].
  - rewrite (connect_all_fail opts net s Hc Hi Hall). cbv zeta.
    pose proof (settled_exhausted opts net s Hs) as He.
    destruct (auto_reconnect_enabled opts) eqn:Ha; cbn [final]; [|exact He].
    pose proof (settled_scheduled opts (exhausted net s) Ha He) as Hsch.
    rewrite scheduleReconnect_run in Hsch.
    change (limit_reached opts (exhausted net s)) with (limit_reached opts s) in Hsch.
    destruct (limit_reached opts s); exact Hsch.
  - rewrite (connect_first opts net before p after s Hf Hc Hi). cbn [final].
    apply settled_connected; [exact Hs|].
    destruct Hf as (Hports & _). rewrite Hports. apply in_or_app. right. left. reflexivity.
Qed.

Lemma timer_fires_final (opts : ConnectionOptions) (net : Z -> Transport) (s : State) :
  final (reconnect_timer_fires opts net s)
  = match reconnectTimer s with
    | Some _ => final (connect opts net (set_reconnectTimer None s))
    | None => s
    end.
Proof.
  unfold reconnect_timer_fires.
  cbv beta iota zeta delta
    [try_catch mbind eff_bind bind mret eff_ret ret modify get_state].
  destruct (reconnectTimer s); [|reflexivity].
  destruct (connect opts net (set_reconnectTimer None s)) as [[[]|e] s1 t1]; reflexivity.
Qed.

Lemma settled_supervise (opts : ConnectionOptions) (c : Sdk.SupervisorCall) (s : State) :
  Settled opts s -> Settled opts (final (Sdk.supervise opts c s)).
Proof.
  intros Hs. destruct c as [net|net|reason| |]; cbn [Sdk.supervise].
  - apply settled_connect, Hs.
  - rewrite timer_fires_final. destruct (reconnectTimer s); [|exact Hs].
    apply settled_connect. destruct Hs as [H1 H2 H3 H4 H5 H6 H7 H8].
    split; cbn; try assumption; [intros _; reflexivity|discriminate].
  - unfold socket_disconnected.
    cbv beta iota zeta delta
      [mbind eff_bind bind mret eff_ret ret lift modify get_state notify
       onConnectionChange clearConnectionTimeout].
    destruct (socket s) as [sock|] eqn:E; [|exact Hs].
    assert (Hs' : Settled opts
                    (set_connectionTimeoutTimer None
                       (set_socket (Some (MkSocket (sock_port sock) false
                                            (sock_listeners sock))) s))).
    { destruct Hs as [H1 H2 H3 H4 H5 H6 H7 H8].
      split; cbn; try assumption; try reflexivity.
      intros sock' [= <-]. cbn. exact (H8 sock E). }
    destruct (bool_decide (reason = "io server disconnect")); [exact Hs'|].
    destruct (bool_decide (reason = "io client disconnect")); [exact Hs'|].
    destruct (auto_reconnect_enabled opts) eqn:Ha; [|exact Hs'].
    match goal with |- context [scheduleReconnect opts ?s0] =>
      pose proof (settled_scheduled opts s0 Ha Hs') as Hsch;
      destruct (scheduleReconnect opts s0) as [[[]|e] s2 t2] end; exact Hsch.
  - unfold socket_reconnected.
    cbv beta iota zeta delta
      [mbind eff_bind bind mret eff_ret ret lift modify get_state
       clearConnectionTimeout setupMessageHandlers].
    destruct (socket s) as [sock|] eqn:E; [|exact Hs].
    destruct Hs as [H1 H2 H3 H4 H5 H6 H7 H8].
    split; cbn; try assumption; try reflexivity.
    intros sock' [= <-]. cbn. exact (H8 sock E).
  - rewrite disconnect_run. cbn [final]. apply settled_initial.
Qed.

Lemma settled_after_calls (opts : ConnectionOptions) (calls : list Sdk.SupervisorCall)
    (s : State) :
  Settled opts s -> Settled opts (after_calls opts calls s).
Proof.
  revert s. induction calls as [|c calls IH]; intros s Hs; [exact Hs|].
  cbn. apply IH, settled_supervise, Hs.
Qed.

Lemma backoff_in_range (n : nat) :
  (1000 <=? backoff n)%float = true /\ (backoff n <=? 30000)%float = true.
Proof.
  destruct (le_lt_dec 9 n) as [H|H].
  - rewrite (backoff_capped n H). split; vm_compute; reflexivity.
  - do 9 (destruct n as [|n]; [split; vm_compute; reflexivity|]). lia.
Qed.

(** After any run of connection passes, reconnect timers, socket events and
    [disconnect()] on a new supervisor, the attempt counter is never
    negative and never above the configured limit. *)
Theorem attempts_never_exceed_the_limit
    (opts : ConnectionOptions) (calls : list Sdk.SupervisorCall) (m : Z) :
  maxReconnectAttempts opts = Some m -> 0 <= m ->
  0 <= reconnectAttempts (after_calls opts calls initial) <= m.
Proof.
  intros Hm Hpos.
  pose proof (settled_after_calls opts calls initial (settled_initial opts)) as Hs.
  pose proof (settled_attempts _ _ Hs). pose proof (settled_limit _ _ Hs m Hm). lia.
Qed.

Lemma attempts_limit_witness :
  0 <= reconnectAttempts
         (after_calls (MkOptions None None (Some 2))
            [Sdk.CallConnect refusing; Sdk.ReconnectTimer refusing;
             Sdk.ReconnectTimer refusing; Sdk.CallConnect refusing]
            initial) <= 2.
Proof.
  apply (attempts_never_exceed_the_limit (MkOptions None None (Some 2))
           [Sdk.CallConnect refusing; Sdk.ReconnectTimer refusing;
            Sdk.ReconnectTimer refusing; Sdk.CallConnect refusing] 2 eq_refl).
  lia.
Defined.

(** After any such run, the delay kept for the next reconnect timer is one
    of the backoff values, hence between 1000 and 30000 ms, and so is the
    delay of a timer that is pending. *)
Theorem reconnect_delay_stays_in_range
    (opts : ConnectionOptions) (calls : list Sdk.SupervisorCall) :
  let s := after_calls opts calls initial in
  (exists n, currentReconnectDelay s = backoff n)
  /\ (1000 <=? currentReconnectDelay s)%float = true
  /\ (currentReconnectDelay s <=? 30000)%float = true
  /\ (forall d, reconnectTimer s = Some d ->
        (exists n, d = backoff n)
        /\ (1000 <=? d)%float = true /\ (d <=? 30000)%float = true).
Proof.
  cbn zeta.
  pose proof (settled_after_calls opts calls initial (settled_initial opts)) as Hs.
  destruct (settled_delay _ _ Hs) as [n Hn]. split; [exists n; exact Hn|].
  rewrite Hn. split; [apply backoff_in_range|]. split; [apply backoff_in_range|].
  intros d Hd. destruct (settled_pending _ _ Hs d Hd) as [k ->].
  split; [exists k; reflexivity|apply backoff_in_range].
Qed.

(** With auto-reconnect disabled no reconnect timer is ever armed. *)
Theorem no_reconnect_timer_without_auto_reconnect
    (opts : ConnectionOptions) (calls : list Sdk.SupervisorCall) :
  auto_reconnect_enabled opts = false ->
  reconnectTimer (after_calls opts calls initial) = None.
Proof.
  intros Ha.
  exact (settled_timer _ _ (settled_after_calls opts calls initial (settled_initial opts)) Ha).
Qed.

Lemma no_reconnect_timer_witness :
  reconnectTimer
    (after_calls (MkOptions None (Some false) None)
       [Sdk.CallConnect refusing; Sdk.SocketDisconnected "transport close"] initial)
  = None.
Proof.
  apply (no_reconnect_timer_without_auto_reconnect (MkOptions None (Some false) None)
           [Sdk.CallConnect refusing; Sdk.SocketDisconnected "transport close"]).
  reflexivity.
Defined.

(** Between calls the supervisor is never left connecting and never leaves
    a connection timer pending; when [getStatus()] says connected, the port
    it reports is the port of the socket held, one of the three configured
    ports. *)
Theorem status_between_calls_is_consistent
    (opts : ConnectionOptions) (calls : list Sdk.SupervisorCall) :
  let s := after_calls opts calls initial in
  connecting (getStatus s) = false
  /\ connectionTimeoutTimer s = None
  /\ (connected (getStatus s) = true ->
      exists sock,
        socket s = Some sock
        /\ port (getStatus s) = Some (sock_port sock)
        /\ In (sock_port sock) DEFAULT_PORTS).
Proof.
  cbn zeta.
  pose proof (settled_after_calls opts calls initial (settled_initial opts)) as Hs.
  split; [exact (settled_connecting _ _ Hs)|]. split; [exact (settled_timeout _ _ Hs)|].
  unfold getStatus, isConnected. cbn [connected port].
  destruct (socket (after_calls opts calls initial)) as [sock|] eqn:E; [|discriminate].
  intros _. exists sock. split; [reflexivity|]. exact (settled_port _ _ Hs sock E).
Qed.

(** *** The socket's disconnect event, [disconnect()] and error classes *)

(** When the held socket reports a disconnect, the supervisor is no longer
    connected.  A disconnect by the server is reported as "Server
    disconnected client" and no reconnect is scheduled, with auto-reconnect
    on or off; a disconnect by the client is not reported at all; any other
    reason is reported with the reason, and a reconnect is scheduled exactly
    when auto-reconnect is on and the attempt limit is not reached. *)
Theorem server_disconnect_is_not_retried
    (opts : ConnectionOptions) (reason : string) (s : State) (sock : Socket) :
  socket s = Some sock ->
  let r := socket_disconnected opts reason s in
  result r = Ok tt
  /\ isConnected (final r) = false
  /\ (reason = "io server disconnect" ->
      trace r = [failure_status (CONNECTION_REFUSED, "Server disconnected client")]
      /\ reconnectTimer (final r) = reconnectTimer s
      /\ reconnectAttempts (final r) = reconnectAttempts s)
  /\ (reason = "io client disconnect" ->
      trace r = []
      /\ reconnectTimer (final r) = reconnectTimer s
      /\ reconnectAttempts (final r) = reconnectAttempts s)
  /\ (reason <> "io server disconnect" -> reason <> "io client disconnect" ->
      (exists rest,
         trace r = failure_status (CONNECTION_REFUSED, "Disconnected: " +:+ reason) :: rest)
      /\ (auto_reconnect_enabled opts = false ->
          reconnectTimer (final r) = reconnectTimer s
          /\ reconnectAttempts (final r) = reconnectAttempts s)
      /\ (auto_reconnect_enabled opts = true ->
          if limit_reached opts s
          then reconnectTimer (final r) = None
               /\ reconnectAttempts (final r) = reconnectAttempts s
          else reconnectTimer (final r) = Some (currentReconnectDelay s)
               /\ reconnectAttempts (final r) = reconnectAttempts s + 1)).
Proof.
  intros Hsock r. unfold r, socket_disconnected.
  cbv beta iota zeta delta
    [mbind eff_bind bind mret eff_ret ret lift modify get_state notify
     onConnectionChange clearConnectionTimeout].
  rewrite Hsock. cbv beta iota.
  destruct (bool_decide_reflect (reason = "io server disconnect")) as [Hs|Hs].
  { cbn. repeat split; try reflexivity; intros; congruence. }
  destruct (bool_decide_reflect (reason = "io client disconnect")) as [Hc|Hc].
  { cbn. repeat split; try reflexivity; intros; congruence. }
  destruct (auto_reconnect_enabled opts) eqn:Ha.
  - rewrite scheduleReconnect_run.
    match goal with |- context [limit_reached opts ?s0] =>
      change (limit_reached opts s0) with (limit_reached opts s) end.
    destruct (limit_reached opts s); cbn;
      (split; [reflexivity|]); (split; [reflexivity|]);
      (split; [intros; contradiction|]); (split; [intros; contradiction|]);
      intros _ _; (split; [eexists; reflexivity|]); (split; [discriminate|]);
      intros _; split; reflexivity.
  - cbn. split; [reflexivity|]. split; [reflexivity|].
    split; [intros; contradiction|]. split; [intros; contradiction|].
    intros _ _. split; [eexists; reflexivity|]. split; [|discriminate].
    intros _. split; reflexivity.
Qed.

Lemma server_disconnect_witness :
  let s := connected_at 50190 None in
  trace (socket_disconnected (MkOptions None None None) "io server disconnect" s)
  = [failure_status (CONNECTION_REFUSED, "Server disconnected client")]
  /\ reconnectTimer
       (final (socket_disconnected (MkOptions None None None) "io server disconnect" s))
     = None.
Proof.
  intros s.
  destruct (server_disconnect_is_not_retried (MkOptions None None None)
              "io server disconnect" s (MkSocket 50190 true own_listeners) eq_refl)
    as (_ & _ & H & _).
  destruct (H eq_refl) as (H1 & H2 & _). split; [exact H1|exact H2].
Defined.

Lemma follows_disconnect_step (opts : ConnectionOptions) (c : Sdk.SupervisorCall) :
  follows_disconnect c = true ->
  final (Sdk.supervise opts c initial) = initial
  /\ Forall (fun st => st = MkStatus false false None None)
        (trace (Sdk.supervise opts c initial)).
Proof.
  destruct c as [net|net|reason| |]; cbn [follows_disconnect]; try discriminate; intros _.
  - split; [reflexivity|constructor].
  - split; [reflexivity|constructor].
  - split; [reflexivity|]. constructor; [reflexivity|constructor].
Qed.

(** [disconnect()] puts the fields of the supervisor back to what they were
    when it was created, whatever it was doing, and reports one status, not
    connected and not connecting.  As far as its own timers and the socket
    it held go, it then stays there until [connect()] is called: over any
    run of reconnect-timer callbacks (the timer was cancelled), of the
    disconnect event that the closed socket raises and of further calls of
    [disconnect()], the fields keep their initial values and no status other
    than that of [disconnect()] is reported; [emit] throws. *)
Theorem disconnect_returns_to_the_initial_state
    (opts : ConnectionOptions) (s : State) (calls : list Sdk.SupervisorCall) :
  let r := disconnect s in
  result r = Ok tt
  /\ trace r = [MkStatus false false None None]
  /\ final r = initial
  /\ getStatus (final r) = MkStatus false false None None
  /\ emit (final r) = Throw (KrispSDKError CONNECTION_REFUSED "Not connected to server")
  /\ (Forall (fun c => follows_disconnect c = true) calls ->
      after_calls opts calls (final r) = initial
      /\ Forall (fun st => st = MkStatus false false None None)
            (statuses_of opts calls (final r))).
Proof.
  cbn zeta. rewrite disconnect_run. cbn [result trace final].
  repeat (split; [reflexivity|]).
  change (MkCM None None false 0 None DEFAULT_RECONNECT_DELAY None) with initial.
  induction 1 as [|c calls Hc _ IH]; [split; [reflexivity|constructor]|].
  destruct (follows_disconnect_step opts c Hc) as [Hfinal Htrace].
  cbn [after_calls foldl statuses_of]. rewrite Hfinal. split; [apply IH|].
  apply Forall_app. split; [exact Htrace|apply IH].
Qed.

Lemma disconnect_witness :
  after_calls (MkOptions None None None)
    [Sdk.ReconnectTimer refusing; Sdk.SocketDisconnected "io client disconnect"]
    (final (disconnect (connected_at 50190 (Some 1000%float))))
  = initial.
Proof.
  apply (disconnect_returns_to_the_initial_state (MkOptions None None None)
           (connected_at 50190 (Some 1000%float))
           [Sdk.ReconnectTimer refusing; Sdk.SocketDisconnected "io client disconnect"]).
  repeat constructor.
Defined.

Lemma prefix_spec (needle hay : string) :
  String.prefix needle hay = true <-> exists rest, hay = needle +:+ rest.
Proof.
  revert needle. induction hay as [|c' hay IH]; intros needle;
    destruct needle as [|c needle]; cbn.
  - split; [intros _; exists EmptyString; reflexivity|reflexivity].
  - split; [discriminate|intros [rest [=]]].
  - split; [intros _; exists (String c' hay); reflexivity|reflexivity].
  - destruct (Ascii.ascii_dec c c') as [->|Hne].
    + rewrite IH. split; intros [rest H]; exists rest; [rewrite H; reflexivity|].
      injection H as ->. reflexivity.
    + split; [discriminate|]. intros [rest [= -> _]]. destruct Hne. reflexivity.
Qed.

Lemma includes_spec (needle hay : string) :
  includes needle hay = true <-> substring needle hay.
Proof.
  unfold substring. induction hay as [|c hay IH]; cbn [includes].
  - destruct (String.prefix needle EmptyString) eqn:E.
    + split; [intros _|reflexivity]. apply prefix_spec in E as [rest E].
      exists EmptyString, rest. exact E.
    + split; [discriminate|]. intros (before & after & H).
      destruct before; [|discriminate].
      assert (String.prefix needle EmptyString = true)
        by (apply prefix_spec; exists after; exact H).
      congruence.
  - destruct (String.prefix needle (String c hay)) eqn:E.
    + split; [intros _|reflexivity]. apply prefix_spec in E as [rest E].
      exists EmptyString, rest. exact E.
    + rewrite IH. split.
      * intros (before & after & ->). exists (String c before), after. reflexivity.
      * intros (before & after & H). destruct before as [|c' before].
        -- assert (String.prefix needle (String c hay) = true)
             by (apply prefix_spec; exists after; exact H).
           congruence.
        -- injection H as -> ->. exists before, after. reflexivity.
Qed.

(** The error of a [connect_error] event: CONNECTION_REFUSED exactly when
    the transport's message contains "xhr poll error" or "websocket error"
    somewhere, UNKNOWN_ERROR otherwise; the message is kept after a fixed
    prefix. *)
Theorem connect_error_is_refused_on_transport_errors (message : string) :
  (substring "xhr poll error" message \/ substring "websocket error" message ->
   connect_error message
   = KrispSDKError CONNECTION_REFUSED ("Connection refused: " +:+ message))
  /\ (~ substring "xhr poll error" message -> ~ substring "websocket error" message ->
      connect_error message
      = KrispSDKError UNKNOWN_ERROR ("Connection error: " +:+ message)).
Proof.
  unfold connect_error.
  destruct (includes "xhr poll error" message) eqn:E1;
    destruct (includes "websocket error" message) eqn:E2; cbn [orb].
  - split; [reflexivity|]. intros H. destruct H. apply includes_spec, E1.
  - split; [reflexivity|]. intros H. destruct H. apply includes_spec, E1.
  - split; [reflexivity|]. intros _ H. destruct H. apply includes_spec, E2.
  - split; [|reflexivity]. intros [H|H]; apply includes_spec in H; congruence.
Qed.

Lemma connect_error_witness :
  substring "websocket error" "TransportError: websocket error"
  /\ connect_error "TransportError: websocket error"
     = KrispSDKError CONNECTION_REFUSED
         "Connection refused: TransportError: websocket error".
Proof.
  assert (H : substring "websocket error" "TransportError: websocket error")
    by (exists "TransportError: ", EmptyString; reflexivity).
  split; [exact H|].
  apply (proj1 (connect_error_is_refused_on_transport_errors
                  "TransportError: websocket error")).
  right. exact H.
Defined.

(** *** The socket that reconnects by itself *)

Lemma socket_disconnected_socket (opts : ConnectionOptions) (reason : string) (s : State)
    (sock : Socket) :
  socket s = Some sock ->
  socket (final (socket_disconnected opts reason s))
  = Some (MkSocket (sock_port sock) false (sock_listeners sock)).
Proof.
  intros E. unfold socket_disconnected.
  cbv beta iota zeta delta
    [mbind eff_bind bind mret eff_ret ret lift modify get_state notify
     onConnectionChange clearConnectionTimeout].
  rewrite E. cbv beta iota.
  destruct (bool_decide (reason = "io server disconnect")); [reflexivity|].
  destruct (bool_decide (reason = "io client disconnect")); [reflexivity|].
  destruct (auto_reconnect_enabled opts); [|reflexivity].
  rewrite scheduleReconnect_run.
  match goal with |- context [limit_reached opts ?s0] =>
    destruct (limit_reached opts s0) end; reflexivity.
Qed.

Lemma socket_reconnected_socket (s : State) (sock : Socket) :
  socket s = Some sock ->
  socket (final (socket_reconnected s))
  = Some (MkSocket (sock_port sock) true
            (sock_listeners sock ++ map (fun e => (e, Own)) message_events)).
Proof.
  intros E. unfold socket_reconnected.
  cbv beta iota zeta delta
    [mbind eff_bind bind mret eff_ret ret lift modify get_state
     clearConnectionTimeout setupMessageHandlers].
  rewrite E. reflexivity.
Qed.

Lemma own_listeners_for_app (e : StateManager.ServerEvent)
    (l1 l2 : list (string * Handler)) :
  own_listeners_for e (l1 ++ l2) = (own_listeners_for e l1 + own_listeners_for e l2)%nat.
Proof. unfold own_listeners_for. rewrite filter_app, length_app. reflexivity. Qed.

Lemma own_listeners_for_messages (e : StateManager.ServerEvent) :
  own_listeners_for e (map (fun n => (n, Own)) message_events) = 1%nat.
Proof. destruct e; vm_compute; reflexivity. Qed.

Lemma own_listeners_for_new (e : StateManager.ServerEvent) :
  own_listeners_for e own_listeners = 1%nat.
Proof. destruct e; vm_compute; reflexivity. Qed.

(** Every [connect] event of a socket registers the six message handlers
    again, and nothing ever removes them.  So on a socket that the supervisor
    connected and that then came back by itself [k] times, through any run of
    its disconnect and connect events, each server message has [k + 1]
    listeners of the supervisor, every one of which hands the message to
    [onMessage]. *)
Theorem message_listeners_pile_up_on_reconnect
    (opts : ConnectionOptions) (p : Z) (timer : option float)
    (calls : list Sdk.SupervisorCall) :
  Forall (fun c => socket_event c = true) calls ->
  exists sock,
    socket (after_calls opts calls (connected_at p timer)) = Some sock
    /\ sock_port sock = p
    /\ forall e, own_listeners_for e (sock_listeners sock) = S (reconnections calls).
Proof.
  induction calls as [|c calls IH] using rev_ind; intros Hall.
  - exists (MkSocket p true own_listeners). split; [reflexivity|]. split; [reflexivity|].
    intros e. apply own_listeners_for_new.
  - apply Forall_app in Hall as [Hcalls Hc]. apply Forall_inv in Hc.
    destruct (IH Hcalls) as (sock & Hs & Hp & Hn).
    unfold after_calls in *. rewrite foldl_snoc.
    unfold reconnections in *. rewrite filter_app, length_app.
    destruct c as [net|net|reason| |]; try discriminate Hc; cbn [Sdk.supervise].
    + rewrite (socket_disconnected_socket opts reason _ sock Hs).
      eexists. split; [reflexivity|]. split; [exact Hp|]. intros e.
      cbn [sock_listeners]. rewrite Hn.
      rewrite filter_cons_False by discriminate. cbn. lia.
    + rewrite (socket_reconnected_socket _ sock Hs).
      eexists. split; [reflexivity|]. split; [exact Hp|]. intros e.
      cbn [sock_listeners]. rewrite own_listeners_for_app, Hn, own_listeners_for_messages.
      rewrite filter_cons_True by reflexivity. cbn. lia.
Qed.

Lemma message_listeners_witness :
  exists sock,
    socket (after_calls (MkOptions None None None)
              [Sdk.SocketDisconnected "transport close"; Sdk.SocketReconnected]
              (connected_at 50190 None)) = Some sock
    /\ own_listeners_for StateManager.device_state (sock_listeners sock) = 2%nat.
Proof.
  destruct (message_listeners_pile_up_on_reconnect (MkOptions None None None) 50190 None
              [Sdk.SocketDisconnected "transport close"; Sdk.SocketReconnected])
    as (sock & H1 & _ & H2).
  - repeat constructor.
  - exists sock. split; [exact H1|]. apply (H2 StateManager.device_state).
Defined.

End SupervisorInvariants.

(** ** The state cache behind the facade: what a server message can do *)

Module CacheInvariants.
Import Js StateManager Sdk CacheSpec ProcessingSpec StateCacheFacts ProcessingFacts
  MessagesSpec.

(** [update] in two cases: it throws and leaves every snapshot alone, or it
    stores a normalized snapshot and notifies at most once. *)
Lemma update_cases (d : Domain) (p : JsValue) (s : State) :
  (exists e s1,
     update d p s = MkRun (Throw e) s1 []
     /\ forall d', cached d' s1 = cached d' s)
  \/ (exists n k b,
        update d p s
        = MkRun (Ok tt) (set_cached d n (advance k s))
            (if b : bool then [(changeEvent d, n)] else [])
        /\ Snapshot d n).
Proof.
  destruct (changed_or_first_run d p s) as [c Hc].
  destruct (normalize_run d p s) as (v & k & Hv & Hn).
  rewrite (update_run d p s c v (advance k s) Hc Hv).
  destruct c as [b|e0]; [destruct v as [n|e1]|].
  - right. exists n, k, b. split; [reflexivity|]. apply (Hn n eq_refl).
  - left. exists e1, (advance k s). split; [reflexivity|]. intros d'. apply cached_advance.
  - left. exists e0, s. split; [reflexivity|reflexivity].
Qed.

Lemma forward_change (d : Domain) (n : JsValue) :
  forward (changeEvent d, n) = [(changeEvent d, n)].
Proof. destruct d; reflexivity. Qed.

(** [onMessage] at a push event, in the same two cases. *)
Lemma onMessage_cases (d : Domain) (p : JsValue) (s : State) :
  (exists e s1,
     result (update d p s) = Throw e
     /\ onMessage (pushEvent d) p s = MkRun (Ok tt) s1 [processing_error e]
     /\ forall d', cached d' s1 = cached d' s)
  \/ (exists n k b,
        onMessage (pushEvent d) p s
        = MkRun (Ok tt) (set_cached d n (advance k s))
            (if b : bool then [(changeEvent d, n)] else [])
        /\ Snapshot d n).
Proof.
  destruct (update_cases d p s) as [(e & s1 & Hu & Hc)|(n & k & b & Hu & Hn)].
  - left. exists e, s1. assert (Hr : result (update d p s) = Throw e) by (rewrite Hu; reflexivity).
    split; [exact Hr|]. rewrite (onMessage_throws d p s e Hr), Hu. split; [reflexivity|exact Hc].
  - right. exists n, k, b. split; [|exact Hn].
    unfold onMessage, try_catch. rewrite relay_run.
    change (handleMessage (pushEvent d) p s) with (update d p s). rewrite Hu.
    cbn [result final trace]. destruct b; cbn [flat_map]; [|reflexivity].
    rewrite forward_change. reflexivity.
Qed.

Lemma onMessage_error (data : JsValue) (s : State) :
  onMessage error data s = MkRun (Ok tt) s (forward (ERROR, data)).
Proof.
  unfold onMessage, try_catch. rewrite relay_run. cbn. rewrite app_nil_r. reflexivity.
Qed.

Lemma onMessage_pong (data : JsValue) (s : State) :
  onMessage pong data s = MkRun (Ok tt) s [].
Proof. reflexivity. Qed.

Lemma event_cases (e : ServerEvent) :
  (exists d, e = pushEvent d) \/ e = error \/ e = pong.
Proof.
  destruct e; [left; exists Devices|left; exists NoiseCancellation
              |left; exists AccentConversion|left; exists InCall|auto|auto]; reflexivity.
Qed.

Lemma pushEvent_inj (d d' : Domain) : pushEvent d = pushEvent d' -> d = d'.
Proof. destruct d, d'; intros H; (reflexivity || discriminate H). Qed.

Lemma cached_set_same (d : Domain) (v : JsValue) (s : State) :
  cached d (set_cached d v s) = Some v.
Proof. destruct d; reflexivity. Qed.

Lemma forward_length (n : Notification) : (length (forward n) <= 1)%nat.
Proof.
  destruct n as [[] v]; cbn [forward fst snd length]; try lia.
  destruct (prop v "message") as [m|]; [|cbn; lia].
  destruct (to_string (or_else m (JStr "Server error"))); cbn; lia.
Qed.

(** [onMessage] never throws, whatever the server sends.  It gives the
    client at most one event per message; a change event comes only from the
    push of its own domain and carries exactly the snapshot that is cached
    when the handlers run. *)
Theorem each_message_raises_at_most_one_event
    (e : ServerEvent) (data : JsValue) (s : State) :
  let r := onMessage e data s in
  result r = Ok tt
  /\ (length (trace r) <= 1)%nat
  /\ (forall d v, (changeEvent d, v) ∈ trace r ->
        e = pushEvent d /\ cached d (final r) = Some v).
Proof.
  cbn zeta. destruct (event_cases e) as [[d0 ->]|[->| ->]].
  - destruct (onMessage_cases d0 data s) as [(err & s1 & _ & Hm & _)|(n & k & b & Hm & _)];
      rewrite Hm; cbn [result final trace].
    + split; [reflexivity|]. split; [cbn; lia|].
      intros d v Hin. apply list_elem_of_singleton in Hin.
      unfold processing_error in Hin. destruct d; discriminate Hin.
    + split; [reflexivity|]. split; [destruct b; cbn; lia|].
      intros d v Hin. destruct b; [|inversion Hin].
      apply list_elem_of_singleton in Hin.
      assert (d = d0) by (destruct d, d0; (reflexivity || discriminate Hin)). subst d0.
      injection Hin as ->. split; [reflexivity|apply cached_set_same].
  - rewrite onMessage_error. cbn [result final trace].
    split; [reflexivity|]. split; [apply forward_length|].
    intros d v Hin. exfalso. unfold forward in Hin. cbn [fst snd] in Hin.
    destruct (prop data "message") as [m|]; [|inversion Hin].
    destruct (to_string (or_else m (JStr "Server error"))); [|inversion Hin].
    apply list_elem_of_singleton in Hin. destruct d; discriminate Hin.
  - rewrite onMessage_pong. cbn. split; [reflexivity|]. split; [lia|].
    intros d v Hin. inversion Hin.
Qed.

(** A message changes the snapshot of a domain only if it is the push of
    that domain: the pushes of the other domains, [error] and [pong] leave
    it as it is, whether they are processed or rejected. *)
Theorem only_its_own_push_changes_a_snapshot
    (e : ServerEvent) (d : Domain) (data : JsValue) (s : State) :
  e <> pushEvent d ->
  cached d (final (onMessage e data s)) = cached d s.
Proof.
  intros Hne. destruct (event_cases e) as [[d0 ->]|[->| ->]].
  - assert (Hd : d0 <> d) by (intros ->; apply Hne; reflexivity).
    destruct (onMessage_cases d0 data s) as [(err & s1 & _ & Hm & Hc)|(n & k & b & Hm & _)];
      rewrite Hm; cbn [final]; [apply Hc|].
    rewrite (cached_set_other d0 d n _ Hd). apply cached_advance.
  - rewrite onMessage_error. reflexivity.
  - reflexivity.
Qed.

Lemma only_its_own_push_witness :
  cached NoiseCancellation
    (final (onMessage device_state (JObj [("0", JObj []); ("1", JObj [])])
              (set_cached NoiseCancellation example_toggles (initial example_clock))))
  = Some example_toggles.
Proof.
  apply (only_its_own_push_changes_a_snapshot device_state NoiseCancellation
           (JObj [("0", JObj []); ("1", JObj [])])
           (set_cached NoiseCancellation example_toggles (initial example_clock))).
  discriminate.
Defined.

Lemma onMessage_keeps_some (e : ServerEvent) (data : JsValue) (d : Domain) (s : State) :
  is_Some (cached d s) -> is_Some (cached d (final (onMessage e data s))).
Proof.
  intros H. destruct (event_cases e) as [[d0 ->]|[->| ->]].
  - destruct (onMessage_cases d0 data s) as [(err & s1 & _ & Hm & Hc)|(n & k & b & Hm & _)];
      rewrite Hm; cbn [final]; [rewrite Hc; exact H|].
    destruct (decide (d0 = d)) as [->|Hd].
    + rewrite cached_set_same. eauto.
    + rewrite (cached_set_other d0 d n _ Hd), cached_advance. exact H.
  - rewrite onMessage_error. exact H.
  - exact H.
Qed.

Lemma onMessage_well_cached (e : ServerEvent) (data : JsValue) (s : State) :
  well_cached s -> well_cached (final (onMessage e data s)).
Proof.
  intros H. destruct (event_cases e) as [[d0 ->]|[->| ->]].
  - destruct (onMessage_cases d0 data s) as [(err & s1 & _ & Hm & Hc)|(n & k & b & Hm & Hn)];
      rewrite Hm; cbn [final].
    + intros d v Hv. rewrite Hc in Hv. exact (H d v Hv).
    + intros d v Hv. destruct (decide (d0 = d)) as [->|Hd].
      * rewrite cached_set_same in Hv. injection Hv as <-. exact Hn.
      * rewrite (cached_set_other d0 d n _ Hd), cached_advance in Hv. exact (H d v Hv).
  - rewrite onMessage_error. exact H.
  - exact H.
Qed.

(** The cache is never cleared: a domain that has a snapshot keeps having
    one through any run of server messages, valid or not. *)
Theorem a_cached_snapshot_is_never_dropped
    (d : Domain) (s : State) (msgs : list (ServerEvent * JsValue)) :
  is_Some (cached d s) -> is_Some (cached d (after_messages s msgs)).
Proof.
  revert s. induction msgs as [|[e data] msgs IH]; intros s H; [exact H|].
  cbn. apply IH, onMessage_keeps_some, H.
Qed.

Lemma a_cached_snapshot_witness :
  is_Some (cached NoiseCancellation
             (after_messages
                (set_cached NoiseCancellation example_toggles (initial example_clock))
                [(nc_state, JNull); (error, JNull); (pong, JObj [])])).
Proof.
  apply (a_cached_snapshot_is_never_dropped NoiseCancellation
           (set_cached NoiseCancellation example_toggles (initial example_clock))
           [(nc_state, JNull); (error, JNull); (pong, JObj [])]).
  eexists. reflexivity.
Defined.

(** Whatever the server sends, from the start on, the cache holds only
    snapshots in normal form: two channel entries with [physicalDeviceInfo]
    (never a falsy value other than [null]) and [updatedAt] for devices, two
    entries with a boolean [enabled] and [updatedAt] for NC and AC, a
    boolean [inCall] and [updatedAt] for in-call. *)
Theorem the_cache_holds_normalized_snapshots_only
    (clk : nat -> Z) (msgs : list (ServerEvent * JsValue)) (d : Domain) (v : JsValue) :
  cached d (after_messages (initial clk) msgs) = Some v -> Snapshot d v.
Proof.
  assert (H : forall s, well_cached s -> well_cached (after_messages s msgs)).
  { induction msgs as [|[e data] msgs IH]; intros s Hs; [exact Hs|].
    cbn. apply IH, onMessage_well_cached, Hs. }
  apply (H (initial clk) (initial_well_cached clk)).
Qed.

Lemma the_cache_witness :
  Snapshot InCall (in_call_snapshot false (JNum 1700000000000)).
Proof.
  apply (the_cache_holds_normalized_snapshots_only example_clock
           [(in_call_state, JObj [])] InCall).
  reflexivity.
Defined.

(** How numbers print: digits up to 21 of them, the shortest numeral that
    reads back as the same binary64 value, exponent notation beyond. *)
Lemma number_to_string_values :
  map number_to_string
    [0; -42; 1700000000000; 2 ^ 53; 2 ^ 53 + 1; 2 ^ 60; 10 ^ 21; 2 ^ 70; -(10 ^ 22)]
  = ["0"; "-42"; "1700000000000"; "9007199254740992"; "9007199254740992";
     "1152921504606847000"; "1e+21"; "1.1805916207174113e+21"; "-1e+22"].
Proof. vm_compute. reflexivity. Qed.

(** An [error] message of the server reaches the client as one ERROR event
    with code UNKNOWN_ERROR and its [message] as a string: the message
    itself when it is a string, "Server error" when it is missing or falsy,
    and otherwise what [String] makes of it.  The client gets nothing when
    the payload is [null] or [undefined], for reading [message] throws
    inside the handler, and nothing when the message cannot be converted to
    a string (an object with a [toString] property of its own); the dispatch
    catches both.  In no case does [onMessage] throw or the cache change. *)
Theorem server_errors_become_unknown_error_events (data : JsValue) (s : State) :
  let r := onMessage error data s in
  let message := or_else (opt_prop data "message") (JStr "Server error") in
  result r = Ok tt
  /\ final r = s
  /\ (data = JNull \/ data = JUndefined -> trace r = [])
  /\ (data <> JNull -> data <> JUndefined ->
      (forall text, to_string message = Some text ->
         trace r = [(ERROR, error_data UNKNOWN_ERROR text)])
      /\ (to_string message = None -> trace r = [])
      /\ (forall text, opt_prop data "message" = JStr text -> text <> EmptyString ->
            trace r = [(ERROR, error_data UNKNOWN_ERROR text)])
      /\ (truthy (opt_prop data "message") = false ->
          trace r = [(ERROR, error_data UNKNOWN_ERROR "Server error")])).
Proof.
  cbn zeta. rewrite onMessage_error. cbn [result final trace].
  split; [reflexivity|]. split; [reflexivity|]. unfold forward. cbn [fst snd]. split.
  - intros [-> | ->]; reflexivity.
  - intros H1 H2.
    assert (Hm : prop data "message" = Ok (opt_prop data "message")).
    { unfold opt_prop. destruct data; try reflexivity; [destruct H2|destruct H1]; reflexivity. }
    rewrite Hm. split; [|split; [|split]].
    + intros text ->. reflexivity.
    + intros ->. reflexivity.
    + intros text -> Hne. unfold or_else. cbn [truthy].
      rewrite bool_decide_eq_false_2 by exact Hne. reflexivity.
    + intros Hf. unfold or_else. rewrite Hf. reflexivity.
Qed.

Lemma server_errors_witness :
  trace (onMessage error (JObj [("code", JStr "E1")]) (initial example_clock))
  = [(ERROR, error_data UNKNOWN_ERROR "Server error")]
  /\ trace (onMessage error (JObj [("message", JNum (10 ^ 21))]) (initial example_clock))
     = [(ERROR, error_data UNKNOWN_ERROR "1e+21")]
  /\ trace (onMessage error (JObj [("message", JObj [("toString", JNum 1)])])
              (initial example_clock))
     = [].
Proof.
  split; [|split].
  - destruct (server_errors_become_unknown_error_events (JObj [("code", JStr "E1")])
                (initial example_clock)) as (_ & _ & _ & H).
    destruct H as (_ & _ & _ & H); [discriminate|discriminate|]. apply H. reflexivity.
  - destruct (server_errors_become_unknown_error_events
                (JObj [("message", JNum (10 ^ 21))]) (initial example_clock))
      as (_ & _ & _ & H).
    destruct H as (H & _); [discriminate|discriminate|]. apply H.
    vm_compute. reflexivity.
  - destruct (server_errors_become_unknown_error_events
                (JObj [("message", JObj [("toString", JNum 1)])]) (initial example_clock))
      as (_ & _ & _ & H).
    destruct H as (_ & H & _); [discriminate|discriminate|]. apply H. reflexivity.
Defined.

Lemma compare_null (d : Domain) (old p : JsValue) (s : State) :
  Snapshot d old -> p = JNull \/ p = JUndefined ->
  hasStateChanged d old p s = MkRun (Throw (TypeError p (first_read d))) s [].
Proof.
  intros Hs Hp. destruct Hs; destruct Hp as [-> | ->]; run; props; reflexivity.
Qed.

(** Which error a [null] or [undefined] payload raises depends on the
    cache, because the comparison with the cached snapshot reads the payload
    before the payload is validated: with nothing cached for the domain the
    validation error "must be an object" is raised; with a snapshot cached,
    a [TypeError] from the first property read.  In both cases the client
    gets one INVALID_MESSAGE event and the cache stays as it was. *)
Theorem null_payload_error_depends_on_the_cache
    (d : Domain) (p : JsValue) (s : State) :
  p = JNull \/ p = JUndefined ->
  (cached d s = None ->
   result (update d p s) = Throw (PlainError (not_object_message d)))
  /\ (forall old, cached d s = Some old -> Snapshot d old ->
        result (update d p s) = Throw (TypeError p (first_read d)))
  /\ (exists e,
        trace (onMessage (pushEvent d) p s) = [processing_error e]
        /\ forall d', cached d' (final (onMessage (pushEvent d) p s)) = cached d' s).
Proof.
  intros Hp.
  assert (Hobj : is_object p = false) by (destruct Hp as [-> | ->]; reflexivity).
  assert (H1 : cached d s = None ->
               result (update d p s) = Throw (PlainError (not_object_message d))).
  { intros Hc.
    rewrite (update_run d p s (Ok true) (Throw (PlainError (not_object_message d))) s
               (first_run d p s Hc) (normalize_not_object d p s Hobj)).
    reflexivity. }
  assert (H2 : forall old, cached d s = Some old -> Snapshot d old ->
               result (update d p s) = Throw (TypeError p (first_read d))).
  { intros old Hc Hs.
    assert (Hcmp : changed_or_first (cached d s) (hasStateChanged d) p s
                   = MkRun (Throw (TypeError p (first_read d))) s []).
    { rewrite (next_run d old p s Hc). apply compare_null; assumption. }
    rewrite (update_run d p s _ _ s Hcmp (normalize_not_object d p s Hobj)).
    reflexivity. }
  split; [exact H1|]. split; [exact H2|].
  destruct (update_not_object d p s Hobj) as [e He]. exists e.
  rewrite (onMessage_throws d p s e He). cbn [trace final].
  split; [reflexivity|]. apply (update_throws d p s e He).
Qed.

Lemma null_payload_witness :
  result (update NoiseCancellation JNull (initial example_clock))
  = Throw (PlainError "Invalid NC state: must be an object")
  /\ result (update NoiseCancellation JNull
               (set_cached NoiseCancellation example_toggles (initial example_clock)))
     = Throw (TypeError JNull "0").
Proof.
  split.
  - apply (proj1 (null_payload_error_depends_on_the_cache NoiseCancellation JNull
                    (initial example_clock) (or_introl eq_refl))).
    reflexivity.
  - apply (proj1 (proj2 (null_payload_error_depends_on_the_cache NoiseCancellation JNull
                           (set_cached NoiseCancellation example_toggles
                              (initial example_clock))
                           (or_introl eq_refl))) example_toggles eq_refl).
    constructor.
Defined.

Lemma toggle_entry_channel (p x : JsValue) (k : string) (s : State) :
  prop p k = Ok x ->
  exists t n,
    toggle_entry p k s
    = MkRun (Ok (JObj [("enabled", JBool (truthy (opt_prop x "enabled")));
                       ("updatedAt", t)])) (advance n s) [].
Proof.
  intros Hx. destruct (or_now_run (opt_prop x "updatedAt") s) as (t & n & Ht & _).
  exists t, n. unfold toggle_entry. run. rewrite Hx. cbn. rewrite Ht. reflexivity.
Qed.

Lemma toggle_normalizes (d : Domain) (p x : JsValue) (s : State) :
  d = NoiseCancellation \/ d = AccentConversion ->
  is_object p = true -> prop p "0" = Ok x ->
  exists t e1 k,
    validateAndNormalize d p s
    = MkRun (Ok (JObj [("0", JObj [("enabled", JBool (truthy (opt_prop x "enabled")));
                                   ("updatedAt", t)]);
                       ("1", e1)])) (advance k s) [].
Proof.
  intros Hd Hp Hx.
  destruct (toggle_entry_channel p x "0" s Hx) as (t & n0 & H0).
  destruct (toggle_entry_run p "1" (advance n0 s) Hp) as (b1 & t1 & n1 & H1 & _).
  exists t, (JObj [("enabled", JBool b1); ("updatedAt", t1)]), (n1 + n0)%nat.
  rewrite <- advance_advance.
  destruct Hd as [-> | ->]; run; rewrite object_guard, Hp; cbv beta iota delta [negb];
    rewrite H0; cbv beta iota; rewrite H1; reflexivity.
Qed.

Lemma compare_channel (d : Domain) (old p x : JsValue) (s : State) :
  d = NoiseCancellation \/ d = AccentConversion ->
  Snapshot d old -> prop p "0" = Ok x -> x = JNull \/ x = JUndefined ->
  hasStateChanged d old p s = MkRun (Throw (TypeError x "enabled")) s [].
Proof.
  intros Hd Hs Hx Hn.
  destruct Hs; destruct Hd as [Hd|Hd]; try discriminate Hd;
    run; props; rewrite Hx; cbv beta iota;
    destruct Hn as [-> | ->]; reflexivity.
Qed.

(** A noise-cancellation or accent-conversion payload that is an object
    without a channel 0 entry ([null] or missing): with nothing cached for
    the domain it is accepted, and channel 0 is stored as not enabled; once
    a snapshot is cached the same payload is rejected with a [TypeError],
    because the comparison reads [newState[0].enabled] before the
    normalizer, which reads [state[0]?.enabled], gets to run.  The cache
    then stays as it was. *)
Theorem channel_less_toggle_payload_is_accepted_only_first
    (d : Domain) (p x : JsValue) (s : State) :
  d = NoiseCancellation \/ d = AccentConversion ->
  is_object p = true -> prop p "0" = Ok x -> x = JNull \/ x = JUndefined ->
  (cached d s = None ->
   result (update d p s) = Ok tt
   /\ exists n,
        cached d (final (update d p s)) = Some n
        /\ field2 n "0" "enabled" = Ok (JBool false))
  /\ (forall old, cached d s = Some old -> Snapshot d old ->
        result (update d p s) = Throw (TypeError x "enabled")
        /\ forall d', cached d' (final (update d p s)) = cached d' s).
Proof.
  intros Hd Hp Hx Hn. split.
  - intros Hc. destruct (toggle_normalizes d p x s Hd Hp Hx) as (t & e1 & k & Hv).
    rewrite (update_run d p s (Ok true) _ _ (first_run d p s Hc) Hv).
    cbn [result final]. split; [reflexivity|]. eexists. split; [apply cached_set_same|].
    replace (truthy (opt_prop x "enabled")) with false
      by (destruct Hn as [-> | ->]; reflexivity).
    reflexivity.
  - intros old Hc Hs.
    assert (Hcmp : changed_or_first (cached d s) (hasStateChanged d) p s
                   = MkRun (Throw (TypeError x "enabled")) s []).
    { rewrite (next_run d old p s Hc). apply compare_channel; assumption. }
    destruct (normalize_run d p s) as (v & k & Hv & _).
    rewrite (update_run d p s _ v (advance k s) Hcmp Hv). cbn [result final].
    split; reflexivity.
Qed.

Lemma channel_less_toggle_witness :
  result (update NoiseCancellation (JObj []) (initial example_clock)) = Ok tt
  /\ result (update NoiseCancellation (JObj [])
               (set_cached NoiseCancellation example_toggles (initial example_clock)))
     = Throw (TypeError JUndefined "enabled").
Proof.
  pose proof (channel_less_toggle_payload_is_accepted_only_first NoiseCancellation
                (JObj []) JUndefined) as H.
  split.
  - apply (H (initial example_clock) (or_introl eq_refl) eq_refl eq_refl
             (or_intror eq_refl)).
    reflexivity.
  - apply (proj2 (H (set_cached NoiseCancellation example_toggles (initial example_clock))
                    (or_introl eq_refl) eq_refl eq_refl (or_intror eq_refl))
             example_toggles eq_refl).
    constructor.
Defined.

End CacheInvariants.

(** ** The facade: unsubscribe, ping, connect and the reconnection flags *)

Module FacadeFacts.
Import Js StateManager Sdk CacheSpec SupervisorSpec RecoverySpec RequestSpec
  StateCacheFacts SupervisorFacts SubscribeFacts RecoveryFacts PortsSpec
  SupervisorInvariants FacadeSpec.

(** *** unsubscribe *)

Lemma delete_topics_filter (topics subscribed : list string) :
  delete_topics topics subscribed = filter (fun t => t ∉ topics) subscribed.
Proof.
  unfold delete_topics. revert subscribed.
  induction topics as [|x topics IH]; intros subscribed; cbn [foldl].
  - induction subscribed as [|t l IHl]; [reflexivity|].
    rewrite filter_cons_True by (intros H; inversion H). f_equal. exact IHl.
  - rewrite IH. clear IH. induction subscribed as [|t l IHl]; [reflexivity|].
    destruct (decide (t = x)) as [->|Hne].
    + rewrite (filter_cons_False (fun t => t <> x)) by (intros H; apply H; reflexivity).
      rewrite (filter_cons_False (fun t => t ∉ x :: topics))
        by (intros H; apply H, list_elem_of_here).
      exact IHl.
    + rewrite (filter_cons_True (fun t => t <> x)) by exact Hne.
      destruct (decide (t ∈ topics)) as [Hin|Hin].
      * rewrite (filter_cons_False (fun t => t ∉ topics)) by (intros H; exact (H Hin)).
        rewrite (filter_cons_False (fun t => t ∉ x :: topics))
          by (intros H; apply H, list_elem_of_further, Hin).
        exact IHl.
      * rewrite (filter_cons_True (fun t => t ∉ topics)) by exact Hin.
        rewrite (filter_cons_True (fun t => t ∉ x :: topics))
          by (intros H; apply elem_of_cons in H as [H|H]; [exact (Hne H)|exact (Hin H)]).
        f_equal. exact IHl.
Qed.

(** After [unsubscribe(topics)], a successful acknowledgement resolves the
    call and removes exactly the given topics from the subscription set,
    keeping the others in order; an acknowledgement without success rejects
    with "Failed to unsubscribe" and the expiry of the 5000 ms timer with
    "Request timeout", both leaving the set alone; a call made while not
    connected throws at once, with no timer and the set untouched. *)
Theorem unsubscribe_removes_exactly_the_topics
    (topics subscribed : list string) (response : JsValue) :
  let s := unsubscribe true topics subscribed in
  sub_timer s = Some 5000 /\ sub_promise s = None
  /\ (truthy (opt_prop response "success") = true ->
      sub_promise (unsub_on_ack response s) = Some (Ok tt)
      /\ sub_timer (unsub_on_ack response s) = None
      /\ subscribedTopics (unsub_on_ack response s)
         = filter (fun t => t ∉ topics) subscribed)
  /\ (truthy (opt_prop response "success") = false ->
      sub_promise (unsub_on_ack response s)
      = Some (Throw (KrispSDKError UNKNOWN_ERROR "Failed to unsubscribe"))
      /\ subscribedTopics (unsub_on_ack response s) = subscribed)
  /\ (sub_promise (unsub_on_timeout s)
      = Some (Throw (KrispSDKError CONNECTION_TIMEOUT "Request timeout"))
      /\ subscribedTopics (unsub_on_timeout s) = subscribed)
  /\ (sub_promise (unsubscribe false topics subscribed)
      = Some (Throw (KrispSDKError CONNECTION_REFUSED "Not connected to server"))
      /\ sub_timer (unsubscribe false topics subscribed) = None
      /\ subscribedTopics (unsubscribe false topics subscribed) = subscribed).
Proof.
  cbn zeta. split; [reflexivity|]. split; [reflexivity|]. split; [|split].
  - intros H. unfold unsub_on_ack. rewrite H. cbn.
    split; [reflexivity|]. split; [reflexivity|]. apply delete_topics_filter.
  - intros H. unfold unsub_on_ack. rewrite H. cbn. split; reflexivity.
  - cbn. repeat split.
Qed.

Lemma unsubscribe_witness :
  subscribedTopics
    (unsub_on_ack (JObj [("success", JBool true)])
       (unsubscribe true ["ac"] ["devices"; "nc"; "ac"; "in_call"]))
  = ["devices"; "nc"; "in_call"].
Proof.
  destruct (unsubscribe_removes_exactly_the_topics ["ac"] ["devices"; "nc"; "ac"; "in_call"]
              (JObj [("success", JBool true)])) as (_ & _ & H & _).
  destruct (H eq_refl) as (_ & _ & ->). reflexivity.
Defined.

(** *** The subscription set over many calls *)

Lemma set_add_NoDup (x : string) (l : list string) : NoDup l -> NoDup (set_add x l).
Proof.
  intros H. unfold set_add. destruct (bool_decide_reflect (x ∈ l)) as [|Hn]; [exact H|].
  apply NoDup_app. split; [exact H|]. split; [|apply NoDup_singleton].
  intros y Hy Hy'. apply list_elem_of_singleton in Hy'. subst. exact (Hn Hy).
Qed.

Lemma add_confirmed_NoDup (topics : list string) (items : list JsValue) (l : list string) :
  NoDup l -> NoDup (add_confirmed topics items l).
Proof.
  unfold add_confirmed. revert l. induction items as [|x items IH]; intros l H; [exact H|].
  cbn [foldl]. apply IH. destruct x; try exact H.
  destruct (bool_decide (s ∈ topics)); [apply set_add_NoDup, H|exact H].
Qed.

Lemma add_confirmed_asked (topics : list string) (items : list JsValue) (l : list string)
    (t : string) :
  t ∈ add_confirmed topics items l -> t ∈ l \/ t ∈ topics.
Proof. rewrite elem_of_add_confirmed. tauto. Qed.

Lemma after_call_keeps (subscribed : list string) (c : TopicCall) :
  NoDup subscribed ->
  NoDup (after_call subscribed c)
  /\ forall t, t ∈ after_call subscribed c ->
       t ∈ subscribed \/ (exists topics response, c = SubscribeCall topics response
                                                   /\ t ∈ topics).
Proof.
  intros Hd. destruct c as [topics response|topics response|]; cbn [after_call].
  - unfold sub_on_ack, subscribe. cbn [requested subscribedTopics sub_timer sub_promise].
    destruct (truthy (opt_prop response "success")); cbn; [|auto].
    destruct (truthy (opt_prop response "subscribed")).
    + destruct (opt_prop response "subscribed"); cbn; auto.
      split; [apply add_confirmed_NoDup, Hd|].
      intros t Ht. apply add_confirmed_asked in Ht as [Ht|Ht]; [auto|]. right. eauto.
    + cbn. split; [apply add_confirmed_NoDup, Hd|].
      intros t Ht. apply add_confirmed_asked in Ht as [Ht|Ht]; [auto|]. right. eauto.
  - unfold unsub_on_ack, unsubscribe.
    cbn [requested subscribedTopics sub_timer sub_promise].
    destruct (truthy (opt_prop response "success")); cbn; [|auto].
    rewrite delete_topics_filter. split; [apply NoDup_filter, Hd|].
    intros t Ht. apply list_elem_of_filter in Ht as [_ Ht]. auto.
  - split; [apply NoDup_nil_2|]. intros t Ht. inversion Ht.
Qed.

(** Over any run of acknowledged subscribe and unsubscribe calls and of
    [disconnect()], starting from the empty set of a new facade, the
    subscription set never holds a topic twice and never holds a topic that
    no subscribe call asked for, whatever the server confirms. *)
Theorem subscription_set_holds_only_requested_topics (calls : list TopicCall) :
  let subscribed := foldl after_call [] calls in
  NoDup subscribed /\ forall t, t ∈ subscribed -> t ∈ asked_for calls.
Proof.
  cbn zeta. induction calls as [|c calls IH] using rev_ind.
  - split; [apply NoDup_nil_2|]. intros t H. inversion H.
  - rewrite foldl_snoc. destruct IH as [Hd Hin].
    destruct (after_call_keeps (foldl after_call [] calls) c Hd) as [Hd' Hin'].
    split; [exact Hd'|]. intros t Ht. unfold asked_for. rewrite flat_map_app.
    apply elem_of_app. destruct (Hin' t Ht) as [H|(topics & response & -> & H)].
    + left. apply Hin, H.
    + right. cbn. rewrite app_nil_r. exact H.
Qed.

Lemma filter_disjoint (topics l : list string) :
  (forall t, t ∈ topics -> t ∉ l) -> filter (fun t => t ∉ topics) l = l.
Proof.
  intros Hdis. induction l as [|t l IHl]; [reflexivity|].
  rewrite filter_cons_True by (intros Ht; apply (Hdis t Ht), list_elem_of_here).
  f_equal. apply IHl. intros t' Ht' Hin. apply (Hdis t' Ht'), list_elem_of_further, Hin.
Qed.

(** Subscribing to topics and then unsubscribing from the same topics
    leaves exactly the topics held before that were not among them, in
    their order, whenever the unsubscription is acknowledged with success
    and whatever the server answered to the subscription (success or not,
    with any [subscribed] list or none); if none of the topics was held
    before, the set is back to what it was. *)
Theorem unsubscribe_undoes_subscribe
    (topics subscribed : list string) (answer ok : JsValue) :
  truthy (opt_prop ok "success") = true ->
  let after := after_call (after_call subscribed (SubscribeCall topics answer))
                          (UnsubscribeCall topics ok) in
  after = filter (fun t => t ∉ topics) subscribed
  /\ ((forall t, t ∈ topics -> t ∉ subscribed) -> after = subscribed).
Proof.
  intros Hok. cbn zeta.
  assert (Hf : forall items l,
             filter (fun t => t ∉ topics) (add_confirmed topics items l)
             = filter (fun t => t ∉ topics) l).
  { unfold add_confirmed. induction items as [|x items IHi]; intros l; [reflexivity|].
    cbn [foldl]. rewrite IHi. destruct x; try reflexivity.
    destruct (bool_decide_reflect (s ∈ topics)) as [Hs|Hs]; [|reflexivity].
    unfold set_add. destruct (bool_decide (s ∈ l)); [reflexivity|].
    rewrite filter_app. rewrite (filter_cons_False _ s []) by (intros Hn; exact (Hn Hs)).
    rewrite filter_nil. apply app_nil_r. }
  assert (Hsub : filter (fun t => t ∉ topics)
                   (after_call subscribed (SubscribeCall topics answer))
                 = filter (fun t => t ∉ topics) subscribed).
  { cbn [after_call]. unfold sub_on_ack, subscribe.
    cbn [requested subscribedTopics sub_timer sub_promise].
    destruct (truthy (opt_prop answer "success")); [|reflexivity].
    destruct (truthy (opt_prop answer "subscribed")).
    - destruct (opt_prop answer "subscribed"); try reflexivity. cbn. apply Hf.
    - cbn. apply Hf. }
  assert (H : after_call (after_call subscribed (SubscribeCall topics answer))
                (UnsubscribeCall topics ok)
              = filter (fun t => t ∉ topics) subscribed).
  { rewrite <- Hsub. generalize (after_call subscribed (SubscribeCall topics answer)).
    intros l. cbn [after_call]. unfold unsub_on_ack, unsubscribe.
    cbn [requested subscribedTopics sub_timer sub_promise]. rewrite Hok. cbn.
    apply delete_topics_filter. }
  rewrite H. split; [reflexivity|]. apply filter_disjoint.
Qed.

Lemma unsubscribe_undoes_witness :
  after_call
    (after_call ["nc"]
       (SubscribeCall ["devices"; "ac"]
          (JObj [("success", JBool true); ("subscribed", JArr [JStr "devices"])])))
    (UnsubscribeCall ["devices"; "ac"] (JObj [("success", JBool true)]))
  = ["nc"].
Proof.
  destruct (unsubscribe_undoes_subscribe ["devices"; "ac"] ["nc"]
              (JObj [("success", JBool true); ("subscribed", JArr [JStr "devices"])])
              (JObj [("success", JBool true)]) eq_refl) as [H _].
  rewrite H. reflexivity.
Defined.

(** *** ping *)

Lemma ping_settled_stays (p : Ping) (o : Outcome JsError unit) (evs : list RequestEvent) :
  ping_promise p = Some o -> ping_promise (foldl ping_step p evs) = Some o.
Proof.
  revert p. induction evs as [|ev evs IH]; intros p H; [exact H|].
  cbn [foldl]. apply IH. destruct ev as [response|]; cbn [ping_step].
  - unfold ping_on_ack, ping_settle. cbn [ping_promise ping_timer].
    destruct (truthy (opt_prop response "success")); rewrite H; reflexivity.
  - destruct (ping_timer p); [|exact H].
    unfold ping_on_timeout, ping_settle. cbn [ping_promise]. rewrite H. reflexivity.
Qed.

(** [ping()] while connected arms a 5000 ms timer and stays pending until
    its first event, which settles it for good: a successful
    acknowledgement resolves it, another acknowledgement rejects it with
    "Ping failed", the timer with "Ping timeout".  An acknowledgement clears
    the timer.  While not connected, [ping()] throws at once and arms no
    timer. *)
Theorem ping_is_settled_by_its_first_event
    (ev : RequestEvent) (evs : list RequestEvent) :
  ping_promise (ping true) = None
  /\ ping_timer (ping true) = Some 5000
  /\ ping_promise (foldl ping_step (ping true) (ev :: evs)) = Some (ping_outcome ev)
  /\ (forall response, ping_timer (ping_step (ping true) (AckArrives response)) = None)
  /\ ping (false)
     = MkPing None (Some (Throw (KrispSDKError CONNECTION_REFUSED "Not connected to server")))
  /\ ping_promise (foldl ping_step (ping false) (ev :: evs))
     = Some (Throw (KrispSDKError CONNECTION_REFUSED "Not connected to server")).
Proof.
  split; [reflexivity|]. split; [reflexivity|]. split; [|split; [|split]].
  - cbn [foldl]. apply ping_settled_stays. destruct ev as [response|]; cbn.
    + unfold ping_on_ack. destruct (truthy (opt_prop response "success")); reflexivity.
    + reflexivity.
  - intros response. cbn. unfold ping_on_ack.
    destruct (truthy (opt_prop response "success")); reflexivity.
  - reflexivity.
  - apply ping_settled_stays. reflexivity.
Qed.

(** *** connect *)

Lemma exec_fetch_checked {A} (env : Env) (polls : nat) (k : Prog A) (c : bool) :
  (forall n, connectivity env n = c) ->
  exec env polls (prog_bind fetchInitialStates_checked (fun _ => k))
  = let '(r, t) := exec env (4 + polls) k in
    (r, (if c
         then [Polled true; Requested Devices; Polled true; Requested NoiseCancellation;
               Polled true; Requested AccentConversion; Polled true; Requested InCall]
         else [Polled false; Polled false; Polled false; Polled false]) ++ t).
Proof.
  intros Hc. unfold fetchInitialStates_checked, try_get_state.
  change (4 + polls)%nat with (S (S (S (S polls)))).
  destruct c;
    repeat (progress (cbn [prog_bind exec map app]; rewrite ?Hc));
    destruct (exec env (S (S (S (S polls)))) k); reflexivity.
Qed.

(** The facade's [connect()] on a new facade, when nothing else happens
    meanwhile.  If every port fails and auto-reconnect is off, it rejects
    with the failure of the pass and asks nothing of the server.  If every
    port fails and auto-reconnect is on, the supervisor does not reject, and
    [connect()] goes on unconnected: the four get-state calls fail and are
    ignored, and then either the automatic subscribe call throws, so that
    [connect()] rejects with "Not connected to server", or, with
    auto-subscribe off, [connect()] resolves although nothing is connected.
    If a port connects it issues the four get-state requests and then, with
    auto-subscribe on, one subscribe request for the auto-subscribe topics,
    whose outcome is the outcome of [connect()]. *)
Theorem facade_connect_outcomes
    (opts : KrispSDKOptions) (net : Z -> ConnectionManager.Transport)
    (outcome : list string -> Outcome JsError unit) :
  let r := ConnectionManager.connect (connection opts) net ConnectionManager.initial in
  let env := steady (ConnectionManager.isConnected (final r)) outcome in
  let run := exec env 0 (connect opts (result r)) in
  (all_ports_fail net ->
   (ConnectionManager.auto_reconnect_enabled (connection opts) = false ->
    run = (Throw (aggregate_failure (connection opts) net), []))
   /\ (ConnectionManager.auto_reconnect_enabled (connection opts) = true ->
       run = if auto_subscribe_enabled opts
             then (Throw (KrispSDKError CONNECTION_REFUSED "Not connected to server"),
                   [Polled false; Polled false; Polled false; Polled false; Polled false])
             else (Ok tt, [Polled false; Polled false; Polled false; Polled false])))
  /\ ((exists before p after, first_connects net before p after) ->
      run = if auto_subscribe_enabled opts
            then (match outcome (auto_topics opts) with
                  | Ok _ => Ok tt
                  | Throw e => Throw e
                  end,
                  [Polled true; Requested Devices; Polled true; Requested NoiseCancellation;
                   Polled true; Requested AccentConversion; Polled true; Requested InCall;
                   Polled true; Subscribed (auto_topics opts)])
            else (Ok tt,
                  [Polled true; Requested Devices; Polled true; Requested NoiseCancellation;
                   Polled true; Requested AccentConversion; Polled true; Requested InCall])).
Proof.
  cbn zeta. split.
  - intros Hall.
    rewrite (connect_all_fail (connection opts) net ConnectionManager.initial
               eq_refl eq_refl Hall). cbv zeta.
    split; intros Ha; rewrite Ha.
    + reflexivity.
    + destruct (limit_reached (connection opts) ConnectionManager.initial);
        cbn [result final]; unfold connect;
        rewrite (exec_fetch_checked _ 0 _ false) by reflexivity;
        destruct (auto_subscribe_enabled opts); reflexivity.
  - intros (before & p & after & Hf).
    rewrite (connect_first (connection opts) net before p after ConnectionManager.initial
               Hf eq_refl eq_refl).
    cbn [result final]. unfold connect.
    rewrite (exec_fetch_checked _ 0 _ true) by reflexivity.
    destruct (auto_subscribe_enabled opts); [|reflexivity].
    cbn. destruct (outcome (auto_topics opts)); reflexivity.
Qed.

Lemma facade_connect_witness :
  exec (steady false (fun _ => Ok tt)) 0
    (connect (MkSdkOptions (ConnectionManager.MkOptions None None None) None None)
       (result (ConnectionManager.connect (ConnectionManager.MkOptions None None None)
                  refusing ConnectionManager.initial)))
  = (Throw (KrispSDKError CONNECTION_REFUSED "Not connected to server"),
     [Polled false; Polled false; Polled false; Polled false; Polled false]).
Proof.
  destruct (facade_connect_outcomes
              (MkSdkOptions (ConnectionManager.MkOptions None None None) None None)
              refusing (fun _ => Ok tt)) as [H _].
  destruct (H refusing_fails) as [_ H2]. exact (H2 eq_refl).
Defined.

(** *** The reconnection flags *)

Lemma waiting_flags (evs : list FlagEvent) :
  flags_of evs = MkFlags false true
  <-> exists before lost rest,
        evs = before ++ StatusReported lost :: rest
        /\ wasConnected (flags_of before) = true
        /\ ConnectionManager.connected lost = false
        /\ Forall reports_loss rest.
Proof.
  split.
  - induction evs as [|ev evs IH] using rev_ind; [discriminate|].
    rewrite flags_of_snoc. destruct ev as [st| |]; cbn [flag_step].
    + unfold emitConnectionChange.
      destruct (ConnectionManager.connected st) eqn:Hst;
        destruct (wasConnected (flags_of evs)) eqn:Hw; cbn; intros H.
      * destruct (flags_of evs); cbn in Hw; congruence.
      * discriminate.
      * exists evs, st, []. repeat split; [exact Hw|exact Hst|constructor].
      * destruct (IH H) as (before & lost & rest & -> & H1 & H2 & H3).
        exists before, lost, (rest ++ [StatusReported st]).
        rewrite <- app_assoc. repeat split; try assumption.
        apply Forall_app. split; [exact H3|]. constructor; [|constructor].
        exists st. auto.
    + unfold manual_connect_flags. discriminate.
    + discriminate.
  - intros (before & lost & rest & -> & Hw & Hl & Hr).
    unfold flags_of. rewrite foldl_app. cbn [foldl flag_step].
    apply loss_keeps_waiting; [|exact Hr].
    unfold emitConnectionChange. rewrite Hl. fold (flags_of before). rewrite Hw. reflexivity.
Qed.

(** On a facade that starts new, a status starts the recovery sequence
    exactly when it reports a connection and the facade is waiting for one:
    the facade had a connection, then a status reported its loss, and since
    then only statuses without a connection came in.  A call of
    [disconnect()], or of [connect()] while the facade has no connection,
    ends the waiting, and so does the first connected status; hence no
    recovery for the first connection ever made, and none for a connection
    that comes after the client called [connect()] itself, even when it is
    the reconnect timer that made it. *)
Theorem recovery_starts_only_after_a_reported_loss
    (evs : list FlagEvent) (up : ConnectionManager.ConnectionStatus) :
  (snd (emitConnectionChange up (flags_of evs)) = true
   <-> ConnectionManager.connected up = true
       /\ exists before lost rest,
            evs = before ++ StatusReported lost :: rest
            /\ wasConnected (flags_of before) = true
            /\ ConnectionManager.connected lost = false
            /\ Forall reports_loss rest)
  /\ (Forall reports_loss evs -> snd (emitConnectionChange up (flags_of evs)) = false)
  /\ (forall rest, Forall reports_loss rest ->
        (wasConnected (flags_of evs) = false ->
         snd (emitConnectionChange up (flags_of (evs ++ ConnectCalled :: rest))) = false)
        /\ snd (emitConnectionChange up (flags_of (evs ++ DisconnectCalled :: rest)))
           = false)
  /\ (ConnectionManager.connected up = true ->
      snd (emitConnectionChange up (flags_of (evs ++ [StatusReported up]))) = false).
Proof.
  assert (Hiff : forall l,
            snd (emitConnectionChange up (flags_of l)) = true
            <-> ConnectionManager.connected up = true /\ flags_of l = MkFlags false true).
  { intros l. unfold emitConnectionChange.
    destruct (ConnectionManager.connected up), (flags_of l) as [[] []]; cbn;
      split; try discriminate; try (intros [? ?]; discriminate); auto. }
  assert (Hno : forall l, flags_of l <> MkFlags false true ->
                  snd (emitConnectionChange up (flags_of l)) = false).
  { intros l Hl. destruct (snd (emitConnectionChange up (flags_of l))) eqn:E; [|reflexivity].
    apply Hiff in E as [_ E]. contradiction. }
  assert (Hquiet : forall f l, Forall reports_loss l -> isReconnecting f = false ->
                     wasConnected f = false -> foldl flag_step f l = f).
  { intros f l Hl. revert f. induction Hl as [|ev l (st & -> & Hst) _ IH]; intros f Hr Hw;
      [reflexivity|].
    cbn [foldl flag_step]. unfold emitConnectionChange. rewrite Hst, Hw. cbn.
    apply IH; assumption. }
  split; [|split; [|split]].
  - rewrite Hiff, waiting_flags. reflexivity.
  - intros Hl. apply Hno. unfold flags_of. rewrite (Hquiet _ _ Hl) by reflexivity.
    discriminate.
  - intros rest Hl. split; [intros Hw|]; apply Hno; unfold flags_of; rewrite foldl_app;
      cbn [foldl flag_step].
    + rewrite (Hquiet _ _ Hl) by (reflexivity || exact Hw).
      unfold manual_connect_flags. discriminate.
    + rewrite (Hquiet _ _ Hl) by reflexivity. discriminate.
  - intros Hup. apply Hno. rewrite flags_of_snoc. cbn [flag_step].
    unfold emitConnectionChange. rewrite Hup.
    destruct (flags_of evs) as [[] []]; cbn; discriminate.
Qed.

Lemma recovery_witness_after_loss :
  let up := ConnectionManager.MkStatus true false (Some 50190) None in
  let down := ConnectionManager.MkStatus false false None None in
  snd (emitConnectionChange up (flags_of [StatusReported up; StatusReported down])) = true
  /\ snd (emitConnectionChange up
            (flags_of [StatusReported up; StatusReported down; ConnectCalled])) = false.
Proof.
  intros up down.
  pose proof (recovery_starts_only_after_a_reported_loss
                [StatusReported up; StatusReported down] up) as (H1 & _ & H3 & _).
  split.
  - apply H1. split; [reflexivity|].
    exists [StatusReported up], down, []. repeat split. constructor.
  - exact (proj1 (H3 [] (Forall_nil_2 _)) eq_refl).
Defined.

(** *** A get-state call: what it never does *)










End FacadeFacts.
